(** * Restaurant orders dashboard (src/App.jsx): order store, completion
      archive, filter pipeline, pagination and export formatters.

    Modelling conventions.
    - JS strings are [string] (sequences of 8-bit characters); the case
      mapping and the white space of [trim] are the ASCII ones.
    - JS numbers that the dashboard computes with (quantities, prices,
      page numbers, lengths) are integers, [Z]; on integer-valued doubles
      below 2^53 the arithmetic of the source is exact integer arithmetic.
    - React state is threaded explicitly: every handler is a function from
      the state before to the state after.  All updates in the source build
      new arrays and objects (spread, map, filter); nothing is mutated in
      place, so values are modelled as immutable data.
    - Calls that read the clock or the time zone ([new Date()], date-fns
      [format]) are inputs: the current time is an argument of the handlers
      and the date functions are variables of the section. *)

From Stdlib Require Import String Ascii List ZArith Lia Bool.
From Stdlib Require Import Sorted Permutation DecimalString.
Import ListNotations.
Open Scope string_scope.
Open Scope Z_scope.

Set Default Proof Using "Type".

(** ** Strings *)

(** The double quote character, code 34. *)
Definition dquote : ascii := Ascii false true false false false true false false.
Definition dq : string := String dquote EmptyString.
(** The apostrophe, code 39, and the line feed, code 10. *)
Definition squote : ascii := Ascii true true true false false true false false.
Definition lf : string := String "010"%char EmptyString.

(** [String.prototype.toLowerCase] on ASCII text. *)
Definition lower_ascii (c : ascii) : ascii :=
  let n := nat_of_ascii c in
  if ((65 <=? n)%nat && (n <=? 90)%nat)%bool then ascii_of_nat (n + 32) else c.

Fixpoint toLowerCase (s : string) : string :=
  match s with
  | EmptyString => EmptyString
  | String c s' => String (lower_ascii c) (toLowerCase s')
  end.

(** White space removed by [String.prototype.trim]: TAB, LF, VT, FF, CR, SP. *)
Definition is_space (c : ascii) : bool :=
  let n := nat_of_ascii c in
  (((9 <=? n)%nat && (n <=? 13)%nat) || (n =? 32)%nat)%bool.

Fixpoint trimStart (s : string) : string :=
  match s with
  | EmptyString => EmptyString
  | String c s' => if is_space c then trimStart s' else s
  end.

Fixpoint trimEnd (s : string) : string :=
  match s with
  | EmptyString => EmptyString
  | String c s' =>
      match trimEnd s' with
      | EmptyString => if is_space c then EmptyString else String c EmptyString
      | t => String c t
      end
  end.

Definition trim (s : string) : string := trimEnd (trimStart s).

(** [s.includes(q)]: [q] occurs in [s] as a contiguous substring. *)
Fixpoint includes (q s : string) : bool :=
  (prefix q s ||
   match s with
   | EmptyString => false
   | String _ s' => includes q s'
   end)%bool.

(** [s.replace(/c/g, r)] for a one-character pattern. *)
Fixpoint replaceAll (c : ascii) (r : string) (s : string) : string :=
  match s with
  | EmptyString => EmptyString
  | String a s' =>
      if Ascii.eqb a c then r ++ replaceAll c r s' else String a (replaceAll c r s')
  end.

(** [Array.prototype.join]. *)
Fixpoint join (sep : string) (l : list string) : string :=
  match l with
  | [] => EmptyString
  | [x] => x
  | x :: l' => x ++ sep ++ join sep l'
  end.

(** JS truthiness of a string: every string but the empty one. *)
Definition truthy (s : string) : bool := negb (s =? "")%string.

(** [a || b] on strings. *)
Definition or_else (a b : string) : string := if truthy a then a else b.

(** [a.localeCompare(b)] on day keys [yyyy-MM-dd]: two keys differ first at
    a digit, and there the collation order is the order of the character
    codes. *)
Definition localeCompare (a b : string) : Z :=
  match String.compare a b with
  | Lt => -1
  | Eq => 0
  | Gt => 1
  end.

(** ** Numbers *)

(** [String(n)] for an integer [n]. *)
Definition Number_toString (n : Z) : string := NilZero.string_of_int (Z.to_int n).

(** [n.toFixed(2)] for an integer [n]: its digits and two zero decimals. *)
Definition toFixed2 (n : Z) : string := Number_toString n ++ ".00".

(** [Math.ceil(a / b)] for integers [a] and [b > 0]. *)
Definition Math_ceil_div (a b : Z) : Z := - ((- a) / b).

(** ** Arrays *)

(** [Array.prototype.sort(cmp)]: the sort of the language is stable, and a
    stable sort is determined by the comparator.  It is modelled by stable
    insertion: an element goes in front of the first later element that it
    does not compare greater than. *)
Fixpoint sort_insert {A : Type} (cmp : A -> A -> Z) (x : A) (l : list A) : list A :=
  match l with
  | [] => [x]
  | y :: l' => if cmp x y <=? 0 then x :: y :: l' else y :: sort_insert cmp x l'
  end.

Definition Array_sort {A : Type} (cmp : A -> A -> Z) (l : list A) : list A :=
  fold_right (sort_insert cmp) [] l.

(** [Array.prototype.findIndex], [find] and [some]. *)
Fixpoint findIndex {A : Type} (p : A -> bool) (l : list A) : option nat :=
  match l with
  | [] => None
  | x :: l' => if p x then Some O else option_map S (findIndex p l')
  end.

Definition some {A : Type} (p : A -> bool) (l : list A) : bool := existsb p l.

(** [copy[idx] = v] on a copy of the array, for an index inside it. *)
Fixpoint set_nth {A : Type} (idx : nat) (v : A) (l : list A) : list A :=
  match l, idx with
  | [], _ => []
  | _ :: l', O => v :: l'
  | x :: l', S i => x :: set_nth i v l'
  end.

(** ** Data model

    Optional text fields ([delivery.name], [paymentType], [shop.logo], ...)
    are read by the source only through truthiness tests and [x || ""], which
    do not tell [undefined] from the empty string: both are the empty
    string here.  [order.delivery] is [null] or an object: an option. *)

Module Item.
Record t : Type := mk
  { id : string; name : string; price : Z; qty : Z }.
End Item.

Module Delivery.
Record t : Type := mk
  { name : string; phone : string; address : string; note : string }.
End Delivery.

Module Order.
Record t : Type := mk
  { id : string;
    customer : string;
    type : string;
    items : list Item.t;
    status : string;
    assigned : string;
    createdAt : string;
    delivery : option Delivery.t;
    paymentType : string;
    payment : string }.
End Order.

(** A completion record [{ ...order, completedAt }]. *)
Module Completed.
Record t : Type := mk
  { order : Order.t; completedAt : string }.
Definition id (c : t) : string := Order.id (order c).
End Completed.

Module Shop.
Record t : Type := mk
  { name : string; address : string; phone : string; taxNumber : string; logo : string }.
End Shop.

(** The second argument of [onUpdate(id, patch)]: an object holding any
    subset of the fields of an order. *)
Module Patch.
Record t : Type := mk
  { id : option string;
    customer : option string;
    type : option string;
    items : option (list Item.t);
    status : option string;
    assigned : option string;
    createdAt : option string;
    delivery : option (option Delivery.t);
    paymentType : option string;
    payment : option string }.

Definition override {A : Type} (old : A) (new : option A) : A :=
  match new with
  | Some v => v
  | None => old
  end.

(** [{ ...o, ...patch }]. *)
Definition apply (o : Order.t) (p : t) : Order.t :=
  Order.mk (override (Order.id o) (id p))
           (override (Order.customer o) (customer p))
           (override (Order.type o) (type p))
           (override (Order.items o) (items p))
           (override (Order.status o) (status p))
           (override (Order.assigned o) (assigned p))
           (override (Order.createdAt o) (createdAt p))
           (override (Order.delivery o) (delivery p))
           (override (Order.paymentType o) (paymentType p))
           (override (Order.payment o) (payment p)).

Definition empty : t := mk None None None None None None None None None None.

(** [{ status: s }], the patch sent by the status drop-down. *)
Definition of_status (s : string) : t :=
  mk None None None None (Some s) None None None None None.
End Patch.

(** A group of the completed list: [{ day, items }]. *)
Module Group.
Record t : Type := mk
  { day : string; items : list Completed.t }.
End Group.

(** The state of [RestaurantOrdersDashboard] that the handlers below use. *)
Record State : Type := mkState
  { orders : list Order.t;
    completedOrders : list Completed.t;
    query : string;
    statusFilter : string;
    typeFilter : string;
    page : Z }.

Definition perPage : Z := 6.

Definition statuses : list string :=
  ["Pending"; "Preparing"; "Ready"; "Delivered"; "Canceled"].

(** [items.reduce((s, it) => s + it.qty * it.price, 0)]. *)
Definition total (its : list Item.t) : Z :=
  fold_left (fun s it => s + Item.qty it * Item.price it) its 0.

(** ** Completion archive *)

Definition addCompleted (now : string) (order : Order.t) (prev : list Completed.t)
  : list Completed.t :=
  if some (fun o => Completed.id o =? Order.id order)%string prev then prev
  else Completed.mk order now :: prev.

Definition removeCompleted (id : string) (prev : list Completed.t) : list Completed.t :=
  filter (fun o => negb (Completed.id o =? id)%string) prev.

(** [confirmed] is the answer of [window.confirm]. *)
Definition clearCompleted (confirmed : bool) (prev : list Completed.t) : list Completed.t :=
  if negb confirmed then prev else [].

(** ** Order store *)

Definition set_orders (st : State) (os : list Order.t) (cs : list Completed.t) : State :=
  mkState os cs (query st) (statusFilter st) (typeFilter st) (page st).

Definition set_completed (st : State) (cs : list Completed.t) : State :=
  set_orders st (orders st) cs.

Definition upsertOrder (now : string) (order : Order.t) (st : State) : State :=
  let s := orders st in
  match findIndex (fun o => Order.id o =? Order.id order)%string s with
  | None =>
      set_orders st (order :: s)
        (if (Order.status order =? "Delivered")%string
         then addCompleted now order (completedOrders st)
         else completedOrders st)
  | Some idx =>
      let prev := nth_error s idx in
      let copy := set_nth idx order s in
      let changed :=
        match prev with
        | Some p => negb (Order.status p =? Order.status order)%string
        | None => true
        end in
      set_orders st copy
        (if (changed && (Order.status order =? "Delivered")%string)%bool
         then addCompleted now order (completedOrders st)
         else completedOrders st)
  end.

Definition deleteOrder (id : string) (st : State) : State :=
  set_orders st (filter (fun o => negb (Order.id o =? id)%string) (orders st))
    (completedOrders st).

(** The [onUpdate] handler given to [OrdersTable]. *)
Definition onUpdate (now : string) (id : string) (patch : Patch.t) (st : State) : State :=
  let prev := orders st in
  let before := find (fun o => Order.id o =? id)%string prev in
  let next :=
    map (fun o => if (Order.id o =? id)%string then Patch.apply o patch else o) prev in
  let after := find (fun o => Order.id o =? id)%string next in
  set_orders st next
    (match before, after with
     | Some b, Some a =>
         if (negb (Order.status b =? Order.status a)%string
             && (Order.status a =? "Delivered")%string)%bool
         then addCompleted now a (completedOrders st)
         else completedOrders st
     | _, _ => completedOrders st
     end).

(** ** Filters, search and pagination *)

Definition set_view (st : State) (q sf tf : string) (p : Z) : State :=
  mkState (orders st) (completedOrders st) q sf tf p.

Definition setQuery (v : string) (st : State) : State :=
  set_view st v (statusFilter st) (typeFilter st) 1.

Definition setStatusFilter (v : string) (st : State) : State :=
  set_view st (query st) v (typeFilter st) 1.

Definition setTypeFilter (v : string) (st : State) : State :=
  set_view st (query st) (statusFilter st) v 1.

Definition setPage (f : Z -> Z) (st : State) : State :=
  set_view st (query st) (statusFilter st) (typeFilter st) (f (page st)).

(** [Array.prototype.slice(start, end)], negative indices counting from the
    end of the array. *)
Definition rel_index (len k : Z) : Z :=
  if k <? 0 then Z.max (len + k) 0 else Z.min k len.

Definition slice {A : Type} (s e : Z) (l : list A) : list A :=
  let len := Z.of_nat (length l) in
  let a := rel_index len s in
  let b := rel_index len e in
  firstn (Z.to_nat (b - a)) (skipn (Z.to_nat a) l).

(** ** Tabular export (downloadCSV) *)

Definition headers : list string :=
  ["id"; "customer"; "type"; "status"; "assigned"; "createdAt"; "items"; "total";
   "delivery_name"; "delivery_phone"; "delivery_address"; "delivery_note"].

(** [o.delivery?.f || ""]. *)
Definition delivery_field (f : Delivery.t -> string) (o : Order.t) : string :=
  match Order.delivery o with
  | Some d => or_else (f d) ""
  | None => ""
  end.

Definition itemsStr (o : Order.t) : string :=
  join "; "
    (map (fun it => Item.name it ++ " x" ++ Number_toString (Item.qty it)) (Order.items o)).

Definition csv_row (o : Order.t) : list string :=
  [ Order.id o;
    Order.customer o;
    Order.type o;
    Order.status o;
    or_else (Order.assigned o) "";
    Order.createdAt o;
    itemsStr o;
    toFixed2 (total (Order.items o));
    delivery_field Delivery.name o;
    delivery_field Delivery.phone o;
    delivery_field Delivery.address o;
    delivery_field Delivery.note o ].

(** The cell template: a quote, the cell with every quote doubled, a quote. *)
Definition csv_cell (c : string) : string :=
  dq ++ replaceAll dquote (dq ++ dq) c ++ dq.

Definition csv_line (r : list string) : string := join "," (map csv_cell r).

(** The text handed to the [Blob]. *)
Definition downloadCSV (os : list Order.t) : string :=
  join lf (join "," headers :: map csv_line (map csv_row os)).

(** ** HTML escaping *)

Definition escapeHtml (unsafe : string) : string :=
  if negb (truthy unsafe) then ""
  else
    replaceAll squote "&#039;"
      (replaceAll dquote "&quot;"
        (replaceAll ">"%char "&gt;"
          (replaceAll "<"%char "&lt;"
            (replaceAll "&"%char "&amp;" unsafe)))).

(** ** Receipt (printOrder)

    A template literal is a sequence of literal chunks and interpolated
    expressions; its value is the concatenation of the chunks and of the
    expressions converted to strings.  A [piece] is one element of that
    sequence, tagged by how the source computes it:
    [Lit] a literal chunk of the template, [Esc s] an interpolation
    [escapeHtml(s)], [Raw s] an interpolation of the string [s] itself,
    [Num n] an interpolated number and [Fixed2 n] an interpolation
    [n.toFixed(2)]. *)
Inductive piece : Type :=
| Lit (s : string)
| Esc (s : string)
| Raw (s : string)
| Num (n : Z)
| Fixed2 (n : Z).

Definition render_piece (p : piece) : string :=
  match p with
  | Lit s => s
  | Esc s => escapeHtml s
  | Raw s => s
  | Num n => Number_toString n
  | Fixed2 n => toFixed2 n
  end.

Definition render (ps : list piece) : string :=
  fold_right (fun p acc => render_piece p ++ acc) "" ps.

(** The separator [" . "] whose middle character is the bullet U+2022
    (bytes 226 128 162 in UTF-8). *)
Definition bullet_sep : string :=
  String " "%char (String "226"%char (String "128"%char (String "162"%char " "))).

(** One table row per item; [lines] is their concatenation ([join("")]). *)
Definition line (it : Item.t) : list piece :=
  let lineTotal := Item.qty it * Item.price it in
  ([Lit ("<tr style=" ++ dq ++ "font-size:13px" ++ dq ++ ">
    <td style=" ++ dq ++ "padding:4px 6px;" ++ dq ++ ">")]
   ++ [Esc (Item.name it)]
   ++ [Lit ("</td>
    <td class=" ++ dq ++ "right" ++ dq ++ " style=" ++ dq ++ "padding:2px 3px;" ++ dq ++ ">")]
   ++ [Num (Item.qty it)]
   ++ [Lit ("</td>
    <td class=" ++ dq ++ "right" ++ dq ++ " style=" ++ dq ++ "padding:2px 3px;" ++ dq ++ ">")]
   ++ [Num (Item.price it)]
   ++ [Lit ("</td>
    <td class=" ++ dq ++ "right" ++ dq ++ " style=" ++ dq ++ "padding:2px 3px;" ++ dq ++ ">")]
   ++ [Num lineTotal]
   ++ [Lit "</td>
  </tr>"])%list.

Definition lines (order : Order.t) : list piece :=
  flat_map line (Order.items order).

(** [deliverySection] is computed by [printOrder] but not placed in the
    document. *)
Definition deliverySection (order : Order.t) : list piece :=
  match Order.delivery order with
  | Some d =>
      if (Order.type order =? "Delivery")%string
      then ([Lit ("
      <div style=" ++ dq ++ "margin-top:8px;font-size:13px;" ++ dq ++ ">
        <strong>Delivery to:</strong><br/>
        ")]
   ++ [Esc (or_else (Delivery.name d) "")]
   ++ [Lit "<br/>
        "]
   ++ [Esc (or_else (Delivery.phone d) "")]
   ++ [Lit "<br/>
        "]
   ++ [Esc (or_else (Delivery.address d) "")]
   ++ [Lit "<br/>
        "]
   ++ (if truthy (Delivery.note d)
       then [Lit "<em>Note: "] ++ [Esc (Delivery.note d)] ++ [Lit "</em>"]
       else [Lit ""])
   ++ [Lit "
      </div>
    "])%list
      else [Lit ""]
  | None => [Lit ""]
  end.

Definition subtotal (order : Order.t) : Z :=
  fold_left (fun s it => s + Item.qty it * Item.price it) (Order.items order) 0.

(** The grand total: the subtotal, to be adjusted when tax or fees are added. *)
Definition grandTotal (order : Order.t) : Z := subtotal order.

(** The literal chunks of the document after the rows. *)
Definition foot_subtotal : string :=
  ("
      </tbody>
    </table>

    <hr />

    <div style=" ++ dq ++ "display:flex;justify-content:space-between;font-weight:700;margin-top:6px;" ++ dq ++ ">
      <div class=" ++ dq ++ "muted" ++ dq ++ ">Subtotal</div>
      <div class=" ++ dq ++ "right" ++ dq ++ ">").

Definition foot_total : string :=
  ("</div>
    </div>

    <div style=" ++ dq ++ "display:flex;justify-content:space-between;font-weight:900;margin-top:6px;" ++ dq ++ ">
      <div class=" ++ dq ++ "bold" ++ dq ++ ">Total (PKR)</div>
      <div class=" ++ dq ++ "right bold" ++ dq ++ ">").

Definition foot_end : string :=
  ("</div>
    </div>

    <div class=" ++ dq ++ "spacer" ++ dq ++ "></div>

    <div class=" ++ dq ++ "center muted" ++ dq ++ " style=" ++ dq ++ "font-size:12px;margin-top:6px;" ++ dq ++ ">Thank you for visiting!</div>
  </div>
</body>
</html>
").

Definition html_foot (order : Order.t) : list piece :=
  [ Lit foot_subtotal; Fixed2 (subtotal order);
    Lit foot_total; Fixed2 (grandTotal order);
    Lit foot_end ].

(** ** Events of the dashboard *)

Inductive Event : Type :=
| EUpsertOrder (now : string) (order : Order.t)
| EDeleteOrder (id : string)
| EOnUpdate (now : string) (id : string) (patch : Patch.t)
| ERemoveCompleted (id : string)
| EClearCompleted (confirmed : bool)
| ERemoveCompletedDay (dayKey : string)
| ESetQuery (v : string)
| ESetStatusFilter (v : string)
| ESetTypeFilter (v : string)
| EPrev
| ENext.

(** The state of a fresh browser: empty storage, default view. *)
Definition init : State := mkState [] [] "" "All" "All" 1.

(** ** Arrays by index *)

(** [s.map((x, i) => (i === idx ? f(x) : x))]. *)
Fixpoint update_at {A : Type} (idx : nat) (f : A -> A) (l : list A) : list A :=
  match l, idx with
  | [], _ => []
  | x :: l', O => f x :: l'
  | x :: l', S i => x :: update_at i f l'
  end.

(** [s.filter((_, i) => i !== idx)]. *)
Fixpoint remove_at {A : Type} (idx : nat) (l : list A) : list A :=
  match l, idx with
  | [], _ => []
  | _ :: l', O => l'
  | x :: l', S i => x :: remove_at i l'
  end.

(** ** Menu (defaultMenu, addMenuItem, updateMenuItem, deleteMenuItem) *)

Module MenuItem.
Record t : Type := mk
  { id : string; name : string; price : Z }.
End MenuItem.

(** The second argument of [updateMenuItem(id, patch)]. *)
Module MenuPatch.
Record t : Type := mk
  { id : option string; name : option string; price : option Z }.

(** [{ ...m, ...patch }]. *)
Definition apply (m : MenuItem.t) (p : t) : MenuItem.t :=
  MenuItem.mk (Patch.override (MenuItem.id m) (id p))
              (Patch.override (MenuItem.name m) (name p))
              (Patch.override (MenuItem.price m) (price p)).
End MenuPatch.

Definition defaultMenu : list MenuItem.t := [MenuItem.mk "m1" "chicken tikka " 250].

(** [fresh] is the value of [uid("m")]; it replaces the id of the item. *)
Definition addMenuItem (fresh : string) (item : MenuItem.t) (s : list MenuItem.t)
  : list MenuItem.t :=
  MenuItem.mk fresh (MenuItem.name item) (MenuItem.price item) :: s.

Definition updateMenuItem (id : string) (patch : MenuPatch.t) (s : list MenuItem.t)
  : list MenuItem.t :=
  map (fun m => if (MenuItem.id m =? id)%string then MenuPatch.apply m patch else m) s.

Definition deleteMenuItem (id : string) (s : list MenuItem.t) : list MenuItem.t :=
  filter (fun m => negb (MenuItem.id m =? id)%string) s.

(** [submit] of the menu dialog, as a change of the menu: [editing] is the
    item being edited if any, [name] and [price] the two inputs, the price
    already a number. *)
Definition menu_submit (fresh : string) (editing : option MenuItem.t)
    (name : string) (price : Z) (s : list MenuItem.t) : list MenuItem.t :=
  if negb (truthy name) then s
  else
    match editing with
    | Some e => updateMenuItem (MenuItem.id e) (MenuPatch.mk None (Some name) (Some price)) s
    | None => addMenuItem fresh (MenuItem.mk "" name price) s
    end.

(** What the menu dialog can do to the menu. *)
Inductive MenuEvent : Type :=
| MSubmit (fresh : string) (editing : option MenuItem.t) (name : string) (price : Z)
| MDelete (id : string).

Definition menu_step (s : list MenuItem.t) (e : MenuEvent) : list MenuItem.t :=
  match e with
  | MSubmit fresh editing name price => menu_submit fresh editing name price s
  | MDelete id => deleteMenuItem id s
  end.

(** ** The dialog of a new order (CreateOrderModal) *)

(** [{ ...m, qty: 1 }] for a menu item [m]. *)
Definition line_of (m : MenuItem.t) : Item.t :=
  Item.mk (MenuItem.id m) (MenuItem.name m) (MenuItem.price m) 1.

(** The argument of [updateItem(idx, patch)]. *)
Module ItemPatch.
Record t : Type := mk
  { id : option string; name : option string; price : option Z; qty : option Z }.

Definition apply (it : Item.t) (p : t) : Item.t :=
  Item.mk (Patch.override (Item.id it) (id p))
          (Patch.override (Item.name it) (name p))
          (Patch.override (Item.price it) (price p))
          (Patch.override (Item.qty it) (qty p)).
End ItemPatch.

(** The state of the dialog. *)
Module CreateForm.
Record t : Type := mk
  { customer : string; type : string; items : list Item.t; delivery : Delivery.t }.
End CreateForm.

(** The first state of the dialog.  With an empty menu [menu[0]] is
    [undefined] and the line has neither name nor price, which an order line
    of the data model cannot be: there is no state then. *)
Definition form_initial (menu : list MenuItem.t) : option CreateForm.t :=
  match menu with
  | m :: _ => Some (CreateForm.mk "" "Dine-in" [line_of m] (Delivery.mk "" "" "" ""))
  | [] => None
  end.

Definition updateItem (idx : nat) (patch : ItemPatch.t) (s : list Item.t) : list Item.t :=
  update_at idx (fun it => ItemPatch.apply it patch) s.

Definition removeItem (idx : nat) (s : list Item.t) : list Item.t := remove_at idx s.

(** [addItem]; no line can be made of an empty menu. *)
Definition addItem (menu : list MenuItem.t) (s : list Item.t) : option (list Item.t) :=
  match menu with
  | m :: _ => Some (s ++ [line_of m])%list
  | [] => None
  end.

(** The effect that runs when the menu changes. *)
Definition refill (menu : list MenuItem.t) (s : list Item.t) : option (list Item.t) :=
  match s with
  | _ :: _ => Some s
  | [] =>
      match menu with
      | m :: _ => Some [line_of m]
      | [] => None
      end
  end.

(** The [onChange] of the item selector: [menu.find] of an id that is not
    on the menu is [undefined], and reading its fields throws. *)
Definition selectItem (menu : list MenuItem.t) (idx : nat) (value : string)
    (s : list Item.t) : option (list Item.t) :=
  match find (fun m => (MenuItem.id m =? value)%string) menu with
  | Some m =>
      Some (updateItem idx
              (ItemPatch.mk (Some (MenuItem.id m)) (Some (MenuItem.name m))
                 (Some (MenuItem.price m)) None) s)
  | None => None
  end.

(** The [onChange] of a quantity input holding the number [n]. *)
Definition setQty (idx : nat) (n : Z) (s : list Item.t) : list Item.t :=
  updateItem idx (ItemPatch.mk None None None (Some (Z.max 1 n))) s.

Inductive FormEvent : Type :=
| FCustomer (v : string)
| FType (v : string)
| FAddItem
| FSelect (idx : nat) (value : string)
| FQty (idx : nat) (n : Z)
| FRemove (idx : nat)
| FDeliveryName (v : string)
| FDeliveryPhone (v : string)
| FDeliveryAddress (v : string)
| FDeliveryNote (v : string)
| FMenuEffect.

Definition with_items (f : CreateForm.t) (its : list Item.t) : CreateForm.t :=
  CreateForm.mk (CreateForm.customer f) (CreateForm.type f) its (CreateForm.delivery f).

Definition with_delivery (f : CreateForm.t) (d : Delivery.t) : CreateForm.t :=
  CreateForm.mk (CreateForm.customer f) (CreateForm.type f) (CreateForm.items f) d.

Definition form_step (menu : list MenuItem.t) (f : CreateForm.t) (e : FormEvent)
  : option CreateForm.t :=
  let d := CreateForm.delivery f in
  match e with
  | FCustomer v =>
      Some (CreateForm.mk v (CreateForm.type f) (CreateForm.items f) d)
  | FType v =>
      Some (CreateForm.mk (CreateForm.customer f) v (CreateForm.items f) d)
  | FAddItem => option_map (with_items f) (addItem menu (CreateForm.items f))
  | FSelect idx value =>
      option_map (with_items f) (selectItem menu idx value (CreateForm.items f))
  | FQty idx n => Some (with_items f (setQty idx n (CreateForm.items f)))
  | FRemove idx => Some (with_items f (removeItem idx (CreateForm.items f)))
  | FDeliveryName v =>
      Some (with_delivery f
              (Delivery.mk v (Delivery.phone d) (Delivery.address d) (Delivery.note d)))
  | FDeliveryPhone v =>
      Some (with_delivery f
              (Delivery.mk (Delivery.name d) v (Delivery.address d) (Delivery.note d)))
  | FDeliveryAddress v =>
      Some (with_delivery f
              (Delivery.mk (Delivery.name d) (Delivery.phone d) v (Delivery.note d)))
  | FDeliveryNote v =>
      Some (with_delivery f
              (Delivery.mk (Delivery.name d) (Delivery.phone d) (Delivery.address d) v))
  | FMenuEffect => option_map (with_items f) (refill menu (CreateForm.items f))
  end.

Fixpoint form_run (menu : list MenuItem.t) (f : CreateForm.t) (es : list FormEvent)
  : option CreateForm.t :=
  match es with
  | [] => Some f
  | e :: es' =>
      match form_step menu f e with
      | Some f' => form_run menu f' es'
      | None => None
      end
  end.

(** [submit]: [id] is the value of [uid()] and [createdAt] of [now()]. *)
Definition submit (id createdAt : string) (f : CreateForm.t) : Order.t :=
  let type := CreateForm.type f in
  let delivery := CreateForm.delivery f in
  Order.mk id
    (or_else (CreateForm.customer f)
       (if (type =? "Delivery")%string then or_else (Delivery.name delivery) "Guest"
        else "Guest"))
    type
    (CreateForm.items f)
    "Pending"
    "Unassigned"
    createdAt
    (if (type =? "Delivery")%string then Some delivery else None)
    "" "".

(** ** The dialog of an order (OrderModal) *)

Definition updateItemQty (idx : nat) (qty : Z) (d : Order.t) : Order.t :=
  Patch.apply d
    (Patch.mk None None None
       (Some (update_at idx
                (fun it => ItemPatch.apply it (ItemPatch.mk None None None (Some qty)))
                (Order.items d)))
       None None None None None None).

(** [{ ...(d.delivery || {}), f: v }] for each of the four inputs. *)
Definition delivery_or_empty (d : Order.t) : Delivery.t :=
  match Order.delivery d with
  | Some x => x
  | None => Delivery.mk "" "" "" ""
  end.

Definition set_delivery (d : Order.t) (x : Delivery.t) : Order.t :=
  Patch.apply d (Patch.mk None None None None None None None (Some (Some x)) None None).

Inductive DraftEvent : Type :=
| DQty (idx : nat) (n : Z)
| DStatus (s : string)
| DAssigned (v : string)
| DDeliveryName (v : string)
| DDeliveryPhone (v : string)
| DDeliveryAddress (v : string)
| DDeliveryNote (v : string).

(** One change of the draft.  The quantity input sends
    [Math.max(1, Number(value))]; the four delivery inputs are rendered, and
    so can change, only when the type of the draft is Delivery. *)
Definition draft_step (d : Order.t) (e : DraftEvent) : Order.t :=
  let x := delivery_or_empty d in
  let on_delivery (y : Delivery.t) :=
    if (Order.type d =? "Delivery")%string then set_delivery d y else d in
  match e with
  | DQty idx n => updateItemQty idx (Z.max 1 n) d
  | DStatus s => Patch.apply d (Patch.of_status s)
  | DAssigned v =>
      Patch.apply d (Patch.mk None None None None None (Some v) None None None None)
  | DDeliveryName v =>
      on_delivery (Delivery.mk v (Delivery.phone x) (Delivery.address x) (Delivery.note x))
  | DDeliveryPhone v =>
      on_delivery (Delivery.mk (Delivery.name x) v (Delivery.address x) (Delivery.note x))
  | DDeliveryAddress v =>
      on_delivery (Delivery.mk (Delivery.name x) (Delivery.phone x) v (Delivery.note x))
  | DDeliveryNote v =>
      on_delivery (Delivery.mk (Delivery.name x) (Delivery.phone x) (Delivery.address x) v)
  end.

Definition draft_run (d : Order.t) (es : list DraftEvent) : Order.t :=
  fold_left draft_step es d.

(** ** The hourly chart (analytics)

    The object [map] of the chart: labels with their counts, in the order
    in which the labels were first written.  A label of the pattern [ha]
    ends in AM or PM, so it is neither an array index, which an object
    lists first, nor a property that every object inherits. *)
Fixpoint map_set (k : string) (v : Z) (m : list (string * Z)) : list (string * Z) :=
  match m with
  | [] => [(k, v)]
  | (k', v') :: m' =>
      if (k' =? k)%string then (k', v) :: m' else (k', v') :: map_set k v m'
  end.

(** [map[k] += 1] for a key of the object. *)
Fixpoint map_incr (k : string) (m : list (string * Z)) : list (string * Z) :=
  match m with
  | [] => []
  | (k', v') :: m' =>
      if (k' =? k)%string then (k', v' + 1) :: m' else (k', v') :: map_incr k m'
  end.

(** [k in map]. *)
Definition has_key (k : string) (m : list (string * Z)) : bool :=
  existsb (fun kv => (fst kv =? k)%string) m.


(** ** A clock for examples: UTC, ISO 8601 timestamps

    [utc_valueOf] reads the digits of a timestamp
    [yyyy-MM-ddTHH:mm:ss.SSSZ] as one number, which orders such timestamps
    as their time values do; [utc_day] is the date part. *)
Definition digit_of (c : ascii) : option Z :=
  let n := Z.of_nat (nat_of_ascii c) in
  if (48 <=? n) && (n <=? 57) then Some (n - 48) else None.

Fixpoint digits_value (acc : Z) (s : string) : Z :=
  match s with
  | EmptyString => acc
  | String c s' =>
      match digit_of c with
      | Some d => digits_value (10 * acc + d) s'
      | None => digits_value acc s'
      end
  end.

Definition utc_valueOf (s : string) : Z := digits_value 0 s.
Definition utc_day (s : string) : string := substring 0 10 s.
Definition utc_PPpp (s : string) : string := s.

(** A second clock for examples, with time values in milliseconds:
    [iso_ms] is the time value of a timestamp [yyyy-MM-ddTHH:mm:ss.SSSZ]
    and [utc_ha] the hour label of a time value, [12AM], [1AM], ..., [11PM]. *)
Definition field_value (start len : nat) (s : string) : Z :=
  digits_value 0 (substring start len s).

(** Days from 1970-01-01 to a date of the proleptic Gregorian calendar. *)
Definition days_from_civil (y m d : Z) : Z :=
  let y' := if m <=? 2 then y - 1 else y in
  let era := y' / 400 in
  let yoe := y' - era * 400 in
  let doy := (153 * (if m >? 2 then m - 3 else m + 9) + 2) / 5 + d - 1 in
  let doe := yoe * 365 + yoe / 4 - yoe / 100 + doy in
  era * 146097 + doe - 719468.

Definition iso_ms (s : string) : Z :=
  let days := days_from_civil (field_value 0 4 s) (field_value 5 2 s) (field_value 8 2 s) in
  ((days * 24 + field_value 11 2 s) * 60 + field_value 14 2 s) * 60000
  + field_value 17 2 s * 1000 + field_value 20 3 s.

Definition utc_ha (ms : Z) : string :=
  let h := (ms / 3600000) mod 24 in
  let h12 := if h mod 12 =? 0 then 12 else h mod 12 in
  Number_toString h12 ++ (if h <? 12 then "AM" else "PM").


(** ** Sample data for the examples *)

Definition soup : Item.t := Item.mk "m2" "Soup" 5 2.

Definition tikka : Item.t := Item.mk "m1" "chicken tikka " 250 3.

(** The order of a guest, created at second [k] of one minute. *)
Definition guest (k : string) : Order.t :=
  Order.mk ("ord_" ++ k) "Guest" "Takeaway" [tikka] "Pending" "Unassigned"
    ("2025-09-23T10:11:0" ++ k ++ ".000Z") None "" "".

Definition seven_orders : list Order.t :=
  map guest ["1"; "2"; "3"; "4"; "5"; "6"; "7"].

Definition ana : Order.t :=
  Order.mk "ord_ana" "Ana" "Dine-in" [soup] "Pending" "Unassigned"
    "2025-09-23T10:11:12.345Z" None "" "".

(** A customer name with a comma and double quotes. *)
Definition quoted_name : string := "Ana, " ++ dq ++ "the" ++ dq ++ " Cook".

Definition ana_quoted : Order.t :=
  Order.mk "ord_q" quoted_name "Delivery" [soup; tikka] "Ready" "Driver 2"
    "2025-09-24T08:00:00.000Z"
    (Some (Delivery.mk "Ana" "555-0101" "1 Main St, flat 2" "ring twice")) "" "".

Definition ana_delivered : Order.t := Patch.apply ana (Patch.of_status "Delivered").

(** A dashboard holding Ana's pending order and an empty archive. *)
Definition ana_pending_state : State := mkState [ana] [] "" "All" "All" 1.

(** A dashboard where Ana's order was delivered and archived. *)
Definition ana_archived_state : State :=
  mkState [ana_delivered] [Completed.mk ana_delivered "2025-09-23T11:00:00.000Z"]
    "" "All" "All" 1.

Definition seven_state : State := mkState seven_orders [] "" "All" "All" 1.

(** An archive of three completions on two days. *)
Definition two_days : list Completed.t :=
  [ Completed.mk ana_quoted "2025-09-24T09:30:00.000Z";
    Completed.mk ana_delivered "2025-09-23T11:00:00.000Z";
    Completed.mk (guest "1") "2025-09-23T10:30:00.000Z" ].

Definition shop_plain : Shop.t := Shop.mk "My Restaurant" "1 Main St" "555-0100" "" "".

(** Shops whose logo is a file name, and a text that closes the attribute
    and opens an element. *)
Definition shop_file_logo : Shop.t :=
  Shop.mk "My Restaurant" "1 Main St" "555-0100" "" "logo.png".

Definition shop_markup_logo : Shop.t :=
  Shop.mk "My Restaurant" "1 Main St" "555-0100" ""
    ("x" ++ dq ++ "><script>alert(1)</script>").

(** A menu of two items, and the new-order dialog filled in for a
    delivery, the customer left empty. *)
Definition two_items : list MenuItem.t :=
  [MenuItem.mk "m1" "chicken tikka " 250; MenuItem.mk "m2" "Soup" 5].

Definition delivery_form : CreateForm.t :=
  CreateForm.mk "" "Delivery" [Item.mk "m2" "Soup" 5 2]
    (Delivery.mk "Bo" "555-0102" "2 Side St" "").

(** Half past ten on the second day of the samples. *)
Definition half_past_ten : Z := iso_ms "2025-09-24T10:30:00.000Z".

(** Proves that the texts of a list differ from one another. *)
Ltac distinct_strings :=
  vm_compute;
  repeat (apply NoDup_cons;
          [ let H := fresh in
            intros H; repeat (destruct H as [H|H]; [discriminate H|]); exact H
          | ]);
  apply NoDup_nil.

(** Finds a piece in a template written as nested concatenations. *)
Ltac in_template :=
  lazymatch goal with
  | |- In _ (_ ++ _)%list =>
      apply in_or_app; first [ solve [left; in_template] | solve [right; in_template] ]
  | |- In _ (_ :: _) => first [ solve [left; reflexivity] | solve [right; in_template] ]
  end.

Section Dashboard.

(** [new Date(s)] as a number (its time value), [format(new Date(s),
    "yyyy-MM-dd")] and [format(new Date(s), "PPpp")] in the time zone of the
    browser.  Timestamps are written by [new Date().toISOString()], so they
    denote valid dates: a text that is no date is outside the data model. *)
Variable Date_valueOf : string -> Z.
Variable format_yyyy_MM_dd : string -> string.
Variable format_PPpp : string -> string.

Definition getDayKey (timestamp : string) : string := format_yyyy_MM_dd timestamp.

Definition removeCompletedDay (dayKey : string) (prev : list Completed.t)
  : list Completed.t :=
  filter (fun o => negb (getDayKey (Completed.completedAt o) =? dayKey)%string) prev.

(** *** The visible orders

    [status_ok], [type_ok] and [query_ok] are the callbacks of the three
    [filter] calls of [filtered], [by_createdAt_desc] the one of its sort. *)

Definition status_ok (sf : string) (o : Order.t) : bool :=
  if (sf =? "All")%string then true else (Order.status o =? sf)%string.

Definition type_ok (tf : string) (o : Order.t) : bool :=
  if (tf =? "All")%string then true else (Order.type o =? tf)%string.

(** The third filter, for the lower-cased, trimmed query [q]. *)
Definition query_ok (q : string) (o : Order.t) : bool :=
  if negb (truthy q) then true
  else (includes q (toLowerCase (Order.id o))
        || includes q (toLowerCase (Order.customer o))
        || some (fun it => includes q (toLowerCase (Item.name it))) (Order.items o))%bool.

(** [new Date(b.createdAt) - new Date(a.createdAt)]. *)
Definition by_createdAt_desc (a b : Order.t) : Z :=
  Date_valueOf (Order.createdAt b) - Date_valueOf (Order.createdAt a).

Definition filtered (os : list Order.t) (qry sf tf : string) : list Order.t :=
  let q := toLowerCase (trim qry) in
  Array_sort by_createdAt_desc
    (filter (query_ok q) (filter (type_ok tf) (filter (status_ok sf) os))).

Definition visible (st : State) : list Order.t :=
  filtered (orders st) (query st) (statusFilter st) (typeFilter st).

Definition totalPages (st : State) : Z :=
  Z.max 1 (Math_ceil_div (Z.of_nat (length (visible st))) perPage).

Definition pageItems (st : State) : list Order.t :=
  slice ((page st - 1) * perPage) (page st * perPage) (visible st).

(** The Prev and Next buttons; a disabled button does not fire. *)
Definition prevPage (st : State) : State :=
  if page st <=? 1 then st else setPage (fun p => Z.max 1 (p - 1)) st.

Definition nextPage (st : State) : State :=
  if page st >=? totalPages st then st
  else setPage (fun p => Z.min (totalPages st) (p + 1)) st.

Definition step (st : State) (e : Event) : State :=
  match e with
  | EUpsertOrder now order => upsertOrder now order st
  | EDeleteOrder id => deleteOrder id st
  | EOnUpdate now id patch => onUpdate now id patch st
  | ERemoveCompleted id => set_completed st (removeCompleted id (completedOrders st))
  | EClearCompleted c => set_completed st (clearCompleted c (completedOrders st))
  | ERemoveCompletedDay d => set_completed st (removeCompletedDay d (completedOrders st))
  | ESetQuery v => setQuery v st
  | ESetStatusFilter v => setStatusFilter v st
  | ESetTypeFilter v => setTypeFilter v st
  | EPrev => prevPage st
  | ENext => nextPage st
  end.

Definition run (st : State) (es : list Event) : State := fold_left step es st.

(** *** The completed list, grouped by day (CompletedOrdersList)

    The object [map] is a list of keys with their arrays, in the order in
    which the keys were first written: the order of [Object.keys] for keys
    that are not array indices. *)
Fixpoint map_push (day : string) (o : Completed.t) (m : list (string * list Completed.t))
  : list (string * list Completed.t) :=
  match m with
  | [] => [(day, [o])]
  | (k, v) :: m' =>
      if (k =? day)%string then (k, (v ++ [o])%list) :: m'
      else (k, v) :: map_push day o m'
  end.

Definition day_map (completed : list Completed.t) : list (string * list Completed.t) :=
  fold_left (fun m o => map_push (format_yyyy_MM_dd (Completed.completedAt o)) o m)
    completed [].

Definition map_get (m : list (string * list Completed.t)) (d : string) : list Completed.t :=
  match find (fun kv => (fst kv =? d)%string) m with
  | Some kv => snd kv
  | None => []
  end.

(** The comparator of the day sort, [(a, b) => b.localeCompare(a)]:
    newest first. *)
Definition newest_first (a b : string) : Z := localeCompare b a.

Definition grouped (completed : list Completed.t) : list Group.t :=
  let m := day_map completed in
  let days := Array_sort newest_first (map fst m) in
  map (fun d => Group.mk d (map_get m d)) days.

Definition dayTotal (its : list Completed.t) : Z :=
  fold_left (fun s o => s + total (Order.items (Completed.order o))) its 0.

(** The template literal [html] of [printOrder], in three parts: the chunks
    before the rows, the rows, and the chunks after them. *)
Definition html_head (shop : Shop.t) (order : Order.t) : list piece :=
  ([Lit ("
<html>
<head>
 
  <meta charset=" ++ dq ++ "utf-8" ++ dq ++ " />
  <style>
      @page { size: auto; margin: 0mm; } /* allow printer to choose length */
  html, body {
    margin: 0;
    padding: 0;
    color: #000;
    -webkit-print-color-adjust: exact;
    
    font-size: 12px;
    line-height: 1.1;
    height: auto !important;
  }

    .receipt {
    width: 300px;        /* change to 240px / 380px if your printer needs it */
    max-width: 100%;
    margin: 0 auto;
    padding: 8px 10px;
    box-sizing: border-box;
    display: block;
    height: auto;
    filter: none;
  }

  /* Visual styles */
  .center { text-align: center; }
  .muted { color: #000; opacity: 1; font-size: 11px; }
  .bold { font-weight: 700; }
  table { width: 100%; border-collapse: collapse; margin-top: 8px; table-layout: fixed; }
  colgroup col:first-child { width: 57%; }
  colgroup col:nth-child(2) { width: 13%; }
  colgroup col:nth-child(3) { width: 15%; }
  colgroup col:nth-child(4) { width: 15%; }
  th, td { padding: 4px 6px; vertical-align: top; word-wrap: break-word; }
  th { font-weight: 700; font-size: 12px; }
  .right { text-align: right; }
  hr { border: none; border-top: 1px dashed #000; margin: 8px 0; }

  /* Printing behaviour: avoid breaking rows across pages */
  table { page-break-inside: auto; }
  tr    { page-break-inside: avoid; page-break-after: auto; }
  thead { display: table-header-group; } /* keep header on each printed page */
  tfoot { display: table-footer-group; }
      strong{
        font-size: 13px;
      }
  /* Small print-specific tweaks */
  @media print {
    body { margin: 0; }
    .receipt { box-shadow: none; }
  }
  </style>
</head>
<body>
  <div class=" ++ dq ++ "receipt" ++ dq ++ ">
    <div class=" ++ dq ++ "center" ++ dq ++ ">
      
      ")]
   ++ (if truthy (Shop.logo shop)
     then [Lit ("<img src=" ++ dq)]
          ++ [Raw (Shop.logo shop)]
          ++ [Lit (dq ++ " alt=" ++ dq ++ "logo" ++ dq ++ " style=" ++ dq ++ "max-width:140px;height:auto;display:block;margin:0 auto 8px;" ++ dq ++ " />")]
     else [Lit ""])
   ++ [Lit ("
      <div class=" ++ dq ++ "bold" ++ dq ++ " style=" ++ dq ++ "font-size:20px;margin-bottom:2px; font-weight: 700;" ++ dq ++ ">F . H PIZZA BURGER SAUCE</div>
      <div class=" ++ dq ++ "bold" ++ dq ++ " style=" ++ dq ++ "font-size:14px;margin-bottom:2px;" ++ dq ++ ">Order Confirmation</div>
      <div class=" ++ dq ++ "bold" ++ dq ++ " style=" ++ dq ++ "font-size:13px;margin-bottom:6px;" ++ dq ++ ">Payment Receipt</div>
      <div  style=" ++ dq ++ "text-align:left; margin-top:4px" ++ dq ++ ">
         <div class=" ++ dq ++ " " ++ dq ++ "><strong>Add:</strong> ")]
   ++ [Esc (or_else (Shop.address shop) "")]
   ++ [Lit ("</div>
      <div class=" ++ dq ++ " " ++ dq ++ "><strong>Phone:</strong> ")]
   ++ [Esc (or_else (Shop.phone shop) "")]
   ++ [Lit ("</div>
      </div>
   
    </div>

    <div class=" ++ dq ++ "spacer" ++ dq ++ "></div>

    <div style=" ++ dq ++ "font-size:12px;" ++ dq ++ ">
      <div><strong>Date:</strong> ")]
   ++ [Esc (format_PPpp (Order.createdAt order))]
   ++ [Lit ("</div>
    </div>

    <div class=" ++ dq ++ "spacer" ++ dq ++ "></div>

    <div style=" ++ dq ++ "font-size:12px;" ++ dq ++ ">
      <div><strong>Order:</strong> ")]
   ++ [Esc (Order.id order)]
   ++ [Lit "</div>
      <div><strong>Order Type:</strong> "]
   ++ [Esc (or_else (Order.type order) "")]
   ++ [Lit "</div>
      <div><strong>Payment Type:</strong> "]
   ++ [Esc (or_else (Order.paymentType order) (or_else (Order.payment order) "CASH"))]
   ++ [Lit "</div>
      "]
   ++ (match Order.delivery order with
     | Some d =>
         if ((Order.type order =? "Delivery")%string && truthy (Delivery.address d))%bool
         then [Lit "<div><strong>Address:</strong> "]
              ++ [Esc (Delivery.address d)]
              ++ [Lit "</div>"]
         else [Lit ""]
     | None => [Lit ""]
     end)
   ++ [Lit "
      "]
   ++ (match Order.delivery order with
     | Some d =>
         [Lit "<div><strong>Customer:</strong> "]
         ++ [Esc (or_else (Delivery.name d) (or_else (Order.customer order) ""))]
         ++ [Lit " "]
         ++ (if truthy (Delivery.phone d)
           then [Lit bullet_sep; Esc (Delivery.phone d)]
           else [Lit ""])
         ++ [Lit "</div>"]
     | None =>
         [Lit "<div><strong>Customer:</strong> "]
         ++ [Esc (or_else (Order.customer order) "")]
         ++ [Lit "</div>"]
     end)
   ++ [Lit "
      <div><strong>Cashier:</strong> "]
   ++ [Esc (or_else (Shop.name shop) "")]
   ++ [Lit ("</div>
    </div>

    <div class=" ++ dq ++ "spacer" ++ dq ++ "></div>

    <hr />

    <table>
      <colgroup>
        <col style=" ++ dq ++ "width:52%" ++ dq ++ ">
        <col style=" ++ dq ++ "width:12%" ++ dq ++ ">
        <col style=" ++ dq ++ "width:18%" ++ dq ++ ">
        <col style=" ++ dq ++ "width:18%" ++ dq ++ ">
      </colgroup>
      <thead>
        <tr>
          <th style=" ++ dq ++ "text-align:left" ++ dq ++ ">Description</th>
          <th class=" ++ dq ++ "right" ++ dq ++ ">QTY</th>
          <th class=" ++ dq ++ "right" ++ dq ++ ">Price</th>
          <th class=" ++ dq ++ "right" ++ dq ++ ">Total</th>
        </tr>
      </thead>
      <tbody>
        ")])%list.

Definition html_template (shop : Shop.t) (order : Order.t) : list piece :=
  (html_head shop order ++ lines order ++ html_foot order)%list.

(** The document written to the print window. *)
Definition printOrder (shop : Shop.t) (order : Order.t) : string :=
  render (html_template shop order).

(** *** The hourly chart (analytics)

    [format(new Date(t), "ha")] for a time value [t], in the time zone of
    the browser; [now] is the value of [Date.now()]. *)
Variable format_ha : Z -> string.

(** The labels of the eight buckets, from seven hours ago to now. *)
Definition bucket_labels (now : Z) : list string :=
  map (fun i => format_ha (now - i * 60 * 60 * 1000)) [7; 6; 5; 4; 3; 2; 1; 0].

Definition hour_label (o : Order.t) : string :=
  format_ha (Date_valueOf (Order.createdAt o)).

Definition analytics (now : Z) (os : list Order.t) : list (string * Z) :=
  let map0 := fold_left (fun m label => map_set label 0 m) (bucket_labels now) [] in
  fold_left
    (fun m o =>
       let label := hour_label o in
       if has_key label m then map_incr label m else m)
    os map0.


(** * Vocabulary of the properties *)

(** *** Archive and store *)

(** The archive has a record of the order id. *)
Definition archived (id : string) (cs : list Completed.t) : bool :=
  some (fun o => Completed.id o =? id)%string cs.

(** The number of archive records of an order id. *)
Definition records_of (id : string) (cs : list Completed.t) : nat :=
  length (filter (fun o => Completed.id o =? id)%string cs).

(** Archival is asked for: the order enters the store as Delivered, or it
    replaces an order whose status was not Delivered and is Delivered. *)
Definition triggers (before : option Order.t) (after : Order.t) : bool :=
  match before with
  | None => (Order.status after =? "Delivered")%string
  | Some b =>
      (negb (Order.status b =? "Delivered")%string
       && (Order.status after =? "Delivered")%string)%bool
  end.

(** The test [o.id === id] of [findIndex] and [find]. *)
Definition has_id (id : string) (o : Order.t) : bool := (Order.id o =? id)%string.

(** An event that sets the status of the stored order [o] to [s]: the
    status drop-down of the table, or Save in the order dialog on a draft
    of [o] with that status. *)
Definition sets_status (now : string) (o : Order.t) (s : string) (e : Event) : Prop :=
  e = EOnUpdate now (Order.id o) (Patch.of_status s)
  \/ e = EUpsertOrder now (Patch.apply o (Patch.of_status s)).

(** Events of the order store: create, save, patch and delete. *)
Definition store_event (e : Event) : bool :=
  match e with
  | EUpsertOrder _ _ | EOnUpdate _ _ _ | EDeleteOrder _ => true
  | _ => false
  end.

(** The archive records of an order id, in archive order. *)
Definition snapshots (id : string) (cs : list Completed.t) : list Completed.t :=
  filter (fun c => Completed.id c =? id)%string cs.

(** Events of the completed list: delete one record, delete a day, clear. *)
Definition archive_event (e : Event) : bool :=
  match e with
  | ERemoveCompleted _ | EClearCompleted _ | ERemoveCompletedDay _ => true
  | _ => false
  end.

(** *** Text *)

(** The number of occurrences of a character in a text. *)
Fixpoint count_char (c : ascii) (s : string) : nat :=
  match s with
  | EmptyString => 0
  | String a s' => (if Ascii.eqb a c then 1 else 0) + count_char c s'
  end.

(** Every character of a text passes a test. *)
Fixpoint all_chars (p : ascii -> bool) (s : string) : bool :=
  match s with
  | EmptyString => true
  | String a s' => p a && all_chars p s'
  end.

(** The characters of a rendered integer: decimal digits and the sign. *)
Definition is_num_char (c : ascii) : bool :=
  let n := nat_of_ascii c in
  (((48 <=? n)%nat && (n <=? 57)%nat) || (n =? 45)%nat)%bool.

(** *** Totals

    The sum over the lines of quantity times price. *)
Definition sum_of_lines (its : list Item.t) : Z :=
  fold_right (fun it acc => Item.qty it * Item.price it + acc) 0 its.

(** [q] is a contiguous part of [s]. *)
Definition substring_of (q s : string) : Prop :=
  exists pre post, s = pre ++ q ++ post.

(** Some contiguous part of [s] equals [q] up to letter case. *)
Definition ci_contains (q s : string) : Prop :=
  exists pre mid post, s = pre ++ mid ++ post /\ toLowerCase mid = toLowerCase q.

(** *** Filters

    The three filters, as the dashboard describes them. *)
Definition status_pass (sf : string) (o : Order.t) : Prop :=
  sf = "All" \/ Order.status o = sf.

Definition type_pass (tf : string) (o : Order.t) : Prop :=
  tf = "All" \/ Order.type o = tf.

Definition query_pass (qry : string) (o : Order.t) : Prop :=
  let q := trim qry in
  ci_contains q (Order.id o)
  \/ ci_contains q (Order.customer o)
  \/ exists it, In it (Order.items o) /\ ci_contains q (Item.name it).

(** The conjunction of the three tests of the source. *)
Definition keeps (qry sf tf : string) (o : Order.t) : bool :=
  (status_ok sf o && type_ok tf o && query_ok (toLowerCase (trim qry)) o)%bool.

(** *** Days

    Later day first: the strict order of the grouped view. *)
Definition later (a b : string) : Prop := String.compare a b = Gt.

(** The day key of a record, as [getDayKey] and the grouping compute it. *)
Definition day_of (c : Completed.t) : string := getDayKey (Completed.completedAt c).

(** The record was completed on day [d]. *)
Definition on_day (d : string) (c : Completed.t) : bool := (day_of c =? d)%string.

(** The sum of the order totals of a list of records. *)
Definition sum_of_totals (cs : list Completed.t) : Z :=
  fold_right (fun c acc => sum_of_lines (Order.items (Completed.order c)) + acc) 0 cs.

(** What the object [map] holds after the records [l], then [cs]. *)
Definition holds (m : list (string * list Completed.t)) (l : list Completed.t) : Prop :=
  (forall d, map_get m d = filter (on_day d) l)
  /\ NoDup (map fst m)
  /\ (forall d, In d (map fst m) <-> exists c, In c l /\ day_of c = d).

(** *** Comma-separated text

    The reader that the round trip is stated against: comma-separated
    fields, records ended by a line feed, a field in double quotes may hold
    commas, line feeds and doubled quotes (RFC 4180).  It is a machine with
    four states, run over the characters of the text. *)
Inductive csv_state : Type :=
| FieldStart      (* nothing of the field has been read *)
| Unquoted        (* inside a field without quotes *)
| Quoted          (* inside a quoted field *)
| QuoteInQuoted.  (* a quote has been read inside a quoted field *)

Definition is_comma (c : ascii) : bool := Ascii.eqb c ","%char.
Definition is_lf (c : ascii) : bool := Ascii.eqb c "010"%char.
Definition is_dquote (c : ascii) : bool := Ascii.eqb c dquote.

Fixpoint parse_from (st : csv_state) (field : string) (row : list string)
    (rows : list (list string)) (input : string) : list (list string) :=
  match input with
  | EmptyString =>
      match st, row with
      | FieldStart, [] => rows
      | _, _ => (rows ++ [row ++ [field]])%list
      end
  | String c rest =>
      match st with
      | FieldStart =>
          if is_dquote c then parse_from Quoted "" row rows rest
          else if is_comma c then parse_from FieldStart "" (row ++ [""])%list rows rest
          else if is_lf c then parse_from FieldStart "" [] (rows ++ [row ++ [""]])%list rest
          else parse_from Unquoted (String c "") row rows rest
      | Unquoted =>
          if is_comma c then parse_from FieldStart "" (row ++ [field])%list rows rest
          else if is_lf c then parse_from FieldStart "" [] (rows ++ [row ++ [field]])%list rest
          else parse_from Unquoted (field ++ String c "") row rows rest
      | Quoted =>
          if is_dquote c then parse_from QuoteInQuoted field row rows rest
          else parse_from Quoted (field ++ String c "") row rows rest
      | QuoteInQuoted =>
          if is_dquote c then parse_from Quoted (field ++ dq) row rows rest
          else if is_comma c then parse_from FieldStart "" (row ++ [field])%list rows rest
          else if is_lf c then parse_from FieldStart "" [] (rows ++ [row ++ [field]])%list rest
          else parse_from Unquoted (field ++ String c "") row rows rest
      end
  end.

Definition parse_csv (text : string) : list (list string) :=
  parse_from FieldStart "" [] [] text.

(** A cell with every double quote doubled. *)
Fixpoint doubled (s : string) : string :=
  match s with
  | EmptyString => EmptyString
  | String a s' =>
      if Ascii.eqb a dquote then String dquote (String dquote (doubled s'))
      else String a (doubled s')
  end.

(** The header line of the export. *)
Definition header_line : string :=
  "id,customer,type,status,assigned,createdAt,items,total,delivery_name,delivery_phone,delivery_address,delivery_note".

(** The concatenation of a list of strings. *)
Definition concat_all (l : list string) : string := fold_right append "" l.

(** *** Markup

    The entity that stands for a character in escaped text. *)
Definition escape_char (c : ascii) : string :=
  if Ascii.eqb c "&"%char then "&amp;"
  else if Ascii.eqb c "<"%char then "&lt;"
  else if Ascii.eqb c ">"%char then "&gt;"
  else if Ascii.eqb c dquote then "&quot;"
  else if Ascii.eqb c squote then "&#039;"
  else String c "".

(** A text with each of its characters escaped, in one pass. *)
Fixpoint escaped (s : string) : string :=
  match s with
  | EmptyString => EmptyString
  | String c s' => escape_char c ++ escaped s'
  end.

(** The characters that open or close a tag or an attribute value. *)
Definition is_markup (c : ascii) : bool :=
  (Ascii.eqb c "<"%char || Ascii.eqb c ">"%char
   || Ascii.eqb c dquote || Ascii.eqb c squote)%bool.

(** The piece is a text interpolated as it is. *)
Definition is_raw (p : piece) : bool :=
  match p with
  | Raw _ => true
  | _ => false
  end.

(** The occurrences of a character in the literal chunks of a template. *)
Fixpoint literal_count (c : ascii) (ps : list piece) : nat :=
  match ps with
  | [] => 0
  | Lit s :: ps' => count_char c s + literal_count c ps'
  | _ :: ps' => literal_count c ps'
  end.

(** The occurrences of a character in the raw interpolations of a template. *)
Fixpoint raw_count (c : ascii) (ps : list piece) : nat :=
  match ps with
  | [] => 0
  | Raw s :: ps' => count_char c s + raw_count c ps'
  | _ :: ps' => raw_count c ps'
  end.

(** *** Further vocabulary: the store *)

(** Events that cannot change the id of a stored order: all but a patch
    that carries an id. *)
Definition keeps_id (e : Event) : bool :=
  match e with
  | EOnUpdate _ _ p =>
      match Patch.id p with
      | None => true
      | Some _ => false
      end
  | _ => true
  end.

(** The data model of an order, as far as the dialogs maintain it: delivery
    details exactly for the type Delivery, a customer name, quantities of at
    least one, one of the five statuses. *)
Definition order_ok (o : Order.t) : Prop :=
  (Order.delivery o <> None <-> Order.type o = "Delivery")
  /\ Order.customer o <> ""
  /\ Forall (fun it => 1 <= Item.qty it) (Order.items o)
  /\ In (Order.status o) statuses.

Definition state_ok (st : State) : Prop :=
  Forall order_ok (orders st)
  /\ Forall (fun c => order_ok (Completed.order c)) (completedOrders st).

(** What the controls of the dashboard can send to the store from a state:
    Create with the order of a new-order dialog, Save with a draft of a
    stored order changed in its dialog, the status drop-down of a row,
    Delete, the controls of the completed list, the filters and the pager. *)
Inductive ui_event (st : State) : Event -> Prop :=
| ui_create now id createdAt menu f0 es f :
    form_initial menu = Some f0 ->
    form_run menu f0 es = Some f ->
    ui_event st (EUpsertOrder now (submit id createdAt f))
| ui_save now o es :
    In o (orders st) ->
    Forall (fun e => match e with DStatus s => In s statuses | _ => True end) es ->
    ui_event st (EUpsertOrder now (draft_run o es))
| ui_status now id s :
    In s statuses -> ui_event st (EOnUpdate now id (Patch.of_status s))
| ui_delete id : ui_event st (EDeleteOrder id)
| ui_remove id : ui_event st (ERemoveCompleted id)
| ui_clear c : ui_event st (EClearCompleted c)
| ui_remove_day d : ui_event st (ERemoveCompletedDay d)
| ui_query v : ui_event st (ESetQuery v)
| ui_status_filter v : ui_event st (ESetStatusFilter v)
| ui_type_filter v : ui_event st (ESetTypeFilter v)
| ui_prev : ui_event st EPrev
| ui_next : ui_event st ENext.

(** The states that the controls reach from a state. *)
Inductive ui_reach (st0 : State) : State -> Prop :=
| reach_start : ui_reach st0 st0
| reach_step st e : ui_reach st0 st -> ui_event st e -> ui_reach st0 (step st e).

(** Every line has a quantity of at least one and is a copy of an entry of
    the menu. *)
Definition lines_ok (menu : list MenuItem.t) (its : list Item.t) : Prop :=
  Forall
    (fun it =>
       1 <= Item.qty it
       /\ exists m,
            In m menu /\ Item.id it = MenuItem.id m
            /\ Item.name it = MenuItem.name m /\ Item.price it = MenuItem.price m)
    its.

(** The events of a new-order dialog that the dialog can send: the
    selector offers the ids of the menu only. *)
Definition form_event_ok (menu : list MenuItem.t) (e : FormEvent) : Prop :=
  match e with
  | FSelect _ value => In value (map MenuItem.id menu)
  | _ => True
  end.


(** *** Further vocabulary: pages, search, receipt, chart, menu *)

(** The rows of page [p] of a state. *)
Definition page_at (st : State) (p : Z) : list Order.t :=
  pageItems (setPage (fun _ => p) st).

(** A text of white space only. *)
Definition blank (s : string) : bool := all_chars is_space s.

(** The five characters that [escapeHtml] replaces. *)
Definition is_special (c : ascii) : bool :=
  (Ascii.eqb c "&"%char || is_markup c)%bool.

(** Reading escaped text back, as a browser does for the five entities of
    [escapeHtml]: [skip] characters of an entity are still to be passed. *)
Fixpoint unescape_from (skip : nat) (s : string) : string :=
  match s with
  | EmptyString => EmptyString
  | String c s' =>
      match skip with
      | S k => unescape_from k s'
      | O =>
          if Ascii.eqb c "&"%char then
            if prefix "amp;" s' then String "&"%char (unescape_from 4 s')
            else if prefix "lt;" s' then String "<"%char (unescape_from 3 s')
            else if prefix "gt;" s' then String ">"%char (unescape_from 3 s')
            else if prefix "quot;" s' then String dquote (unescape_from 5 s')
            else if prefix "#039;" s' then String squote (unescape_from 5 s')
            else String c (unescape_from 0 s')
          else String c (unescape_from 0 s')
      end
  end.

Definition unescapeHtml (s : string) : string := unescape_from 0 s.

(** The number of orders with an hour label. *)
Definition orders_at (label : string) (os : list Order.t) : Z :=
  Z.of_nat (length (filter (fun o => (hour_label o =? label)%string) os)).

(** The sum of the counts of a chart. *)
Definition chart_sum (m : list (string * Z)) : Z :=
  fold_right (fun kv acc => snd kv + acc) 0 m.

(** Every item of the menu has a name. *)
Definition names_ok (s : list MenuItem.t) : Prop :=
  Forall (fun m => MenuItem.name m <> "") s.

(** The events of the menu dialog that add an item add it under an id
    that the menu does not have. *)
Fixpoint fresh_ids (s : list MenuItem.t) (es : list MenuEvent) : Prop :=
  match es with
  | [] => True
  | e :: es' =>
      match e with
      | MSubmit fresh None name _ =>
          (name <> "" -> ~ In fresh (map MenuItem.id s))
      | _ => True
      end
      /\ fresh_ids (menu_step s e) es'
  end.

(** The quantity of a line set to [q]. *)
Definition set_qty (q : Z) (it : Item.t) : Item.t :=
  ItemPatch.apply it (ItemPatch.mk None None None (Some q)).

(** What no change of the draft of an order touches. *)
Definition identity_of (o : Order.t)
  : string * string * string * string * list (string * string * Z) :=
  (Order.id o, Order.customer o, Order.type o, Order.createdAt o,
   map (fun it => (Item.id it, Item.name it, Item.price it)) (Order.items o)).


(** One order seen by the chart: the count of its label goes up by one,
    the counts of the other labels stay. *)
Definition bump (label : string) (m : list (string * Z)) : list (string * Z) :=
  map (fun kv => (fst kv, if (fst kv =? label)%string then snd kv + 1 else snd kv)) m.

(** The order was created in an hour that has the label of a bucket. *)
Definition in_chart (now : Z) (o : Order.t) : bool :=
  existsb (String.eqb (hour_label o)) (bucket_labels now).

(** The sum of [f] over a list of labels. *)
Definition sum_over (f : string -> Z) (keys : list string) : Z :=
  fold_right (fun k acc => f k + acc) 0 keys.

(** * Properties *)

(** ** Completion archive: one record per order id *)

Lemma addCompleted_archived now order prev :
  archived (Order.id order) prev = true -> addCompleted now order prev = prev.
Proof.
  unfold addCompleted, archived. now intros ->.
Qed.

Lemma addCompleted_fresh now order prev :
  archived (Order.id order) prev = false ->
  addCompleted now order prev = Completed.mk order now :: prev.
Proof.
  unfold addCompleted, archived. now intros ->.
Qed.

Lemma archived_In id cs :
  archived id cs = true <-> In id (map Completed.id cs).
Proof.
  unfold archived, some. rewrite existsb_exists, in_map_iff. split.
  - intros (c & Hc & E). apply String.eqb_eq in E. eauto.
  - intros (c & E & Hc). exists c. split; [assumption|]. now apply String.eqb_eq.
Qed.

Lemma archived_false_In id cs :
  archived id cs = false <-> ~ In id (map Completed.id cs).
Proof.
  rewrite <- archived_In. destruct (archived id cs); split; congruence.
Qed.

Lemma records_of_absent id cs :
  archived id cs = false -> records_of id cs = 0%nat.
Proof.
  unfold archived, records_of, some. induction cs as [|c cs IH]; simpl; [reflexivity|].
  intros H. apply orb_false_iff in H as [-> H]. auto.
Qed.

Lemma addCompleted_archives now order prev :
  archived (Order.id order) (addCompleted now order prev) = true.
Proof.
  destruct (archived (Order.id order) prev) eqn:E.
  - now rewrite addCompleted_archived.
  - rewrite addCompleted_fresh by assumption.
    unfold archived, some, Completed.id. simpl. now rewrite String.eqb_refl.
Qed.

Lemma addCompleted_NoDup now order prev :
  NoDup (map Completed.id prev) -> NoDup (map Completed.id (addCompleted now order prev)).
Proof.
  intros H. destruct (archived (Order.id order) prev) eqn:E.
  - now rewrite addCompleted_archived.
  - rewrite addCompleted_fresh by assumption. simpl. constructor; [|assumption].
    now apply archived_false_In.
Qed.

Lemma filter_ids_NoDup (p : Completed.t -> bool) cs :
  NoDup (map Completed.id cs) -> NoDup (map Completed.id (filter p cs)).
Proof.
  induction cs as [|c cs IH]; simpl; [auto|].
  intros H. inversion H as [|? ? Hn Hd]; subst.
  destruct (p c); simpl; [constructor|]; auto.
  intros Hin. apply Hn. apply in_map_iff in Hin as (x & E & Hx).
  apply in_map_iff. exists x. split; [assumption|]. now apply filter_In in Hx.
Qed.

Lemma NoDup_records_of id cs :
  NoDup (map Completed.id cs) -> (records_of id cs <= 1)%nat.
Proof.
  unfold records_of. induction cs as [|c cs IH]; simpl; [lia|].
  intros H. inversion H as [|? ? Hn Hd]; subst.
  destruct (Completed.id c =? id)%string eqn:E; simpl; [|auto].
  apply String.eqb_eq in E. rewrite E in Hn.
  apply archived_false_In in Hn. apply records_of_absent in Hn.
  unfold records_of in Hn. lia.
Qed.

(** *** What the store handlers do to the two arrays *)

Lemma findIndex_find {A : Type} (p : A -> bool) (l : list A) :
  match findIndex p l with
  | Some i => nth_error l i = find p l /\ find p l <> None
  | None => find p l = None
  end.
Proof.
  induction l as [|x l IH]; simpl; [reflexivity|].
  destruct (p x); [split; [reflexivity|discriminate]|].
  destruct (findIndex p l); simpl; assumption.
Qed.

Lemma status_changed_to_delivered (b a : string) :
  (negb (b =? a)%string && (a =? "Delivered")%string)%bool
  = (negb (b =? "Delivered")%string && (a =? "Delivered")%string)%bool.
Proof.
  destruct (a =? "Delivered")%string eqn:E.
  - apply String.eqb_eq in E. now subst.
  - now rewrite !andb_false_r.
Qed.

Lemma upsertOrder_completed now order st :
  completedOrders (upsertOrder now order st)
  = if triggers (find (has_id (Order.id order)) (orders st)) order
    then addCompleted now order (completedOrders st)
    else completedOrders st.
Proof.
  unfold upsertOrder.
  pose proof (findIndex_find (has_id (Order.id order)) (orders st)) as H.
  unfold has_id in *.
  destruct (findIndex _ (orders st)) as [i|]; simpl.
  - destruct H as [-> H].
    destruct (find _ (orders st)) as [b|]; [|congruence].
    simpl. now rewrite status_changed_to_delivered.
  - now rewrite H.
Qed.

Lemma upsertOrder_orders now order st :
  orders (upsertOrder now order st)
  = match findIndex (has_id (Order.id order)) (orders st) with
    | None => order :: orders st
    | Some idx => set_nth idx order (orders st)
    end.
Proof.
  unfold upsertOrder, has_id. now destruct (findIndex _ (orders st)).
Qed.

Lemma patched_id (o : Order.t) (patch : Patch.t) :
  Order.id (Patch.apply o patch) = Patch.override (Order.id o) (Patch.id patch).
Proof. reflexivity. Qed.

Lemma find_patched_none id patch (l : list Order.t) :
  (Patch.override id (Patch.id patch) =? id)%string = false ->
  find (has_id id)
    (map (fun o => if (Order.id o =? id)%string then Patch.apply o patch else o) l)
  = None.
Proof.
  intros Hp. unfold has_id. induction l as [|x l IH]; simpl; [reflexivity|].
  destruct (Order.id x =? id)%string eqn:E.
  - rewrite patched_id. apply String.eqb_eq in E. rewrite E, Hp. exact IH.
  - rewrite E. exact IH.
Qed.

Lemma find_patched id patch (l : list Order.t) :
  find (has_id id)
    (map (fun o => if (Order.id o =? id)%string then Patch.apply o patch else o) l)
  = match find (has_id id) l with
    | Some b => if has_id id (Patch.apply b patch) then Some (Patch.apply b patch) else None
    | None => None
    end.
Proof.
  induction l as [|x l IH]; simpl; [reflexivity|].
  change (Order.id x =? id)%string with (has_id id x).
  destruct (has_id id x) eqn:E.
  - destruct (has_id id (Patch.apply x patch)) eqn:E'; [reflexivity|].
    apply find_patched_none. unfold has_id in E, E'. rewrite patched_id in E'.
    apply String.eqb_eq in E. now rewrite E in E'.
  - rewrite E. exact IH.
Qed.

Lemma onUpdate_completed now id patch st :
  completedOrders (onUpdate now id patch st)
  = match find (has_id id) (orders st) with
    | Some b =>
        let a := Patch.apply b patch in
        if (has_id id a && triggers (Some b) a)%bool
        then addCompleted now a (completedOrders st)
        else completedOrders st
    | None => completedOrders st
    end.
Proof.
  unfold onUpdate. cbn [completedOrders set_orders].
  fold (has_id id). rewrite (find_patched id patch (orders st)).
  destruct (find (has_id id) (orders st)) as [b|]; [|reflexivity].
  cbn zeta. destruct (has_id id (Patch.apply b patch)); [|reflexivity].
  simpl. now rewrite status_changed_to_delivered.
Qed.

Lemma onUpdate_orders now id patch st :
  orders (onUpdate now id patch st)
  = map (fun o => if (Order.id o =? id)%string then Patch.apply o patch else o) (orders st).
Proof. reflexivity. Qed.

Lemma deleteOrder_orders id st :
  orders (deleteOrder id st) = filter (fun o => negb (has_id id o)) (orders st).
Proof. reflexivity. Qed.

(** *** The archive along a run of the dashboard *)

Lemma step_completed st e :
  completedOrders (step st e) = completedOrders st
  \/ (exists now a, completedOrders (step st e) = addCompleted now a (completedOrders st))
  \/ (exists p, completedOrders (step st e) = filter p (completedOrders st)).
Proof.
  destruct e; cbn [step]; try (left; reflexivity).
  - rewrite upsertOrder_completed. destruct (triggers _ _); eauto.
  - rewrite onUpdate_completed. destruct (find _ _); [|auto].
    cbn zeta. destruct (_ && _)%bool; eauto.
  - right; right. eexists. reflexivity.
  - destruct confirmed; simpl; [|auto].
    right; right. exists (fun _ => false). now induction (completedOrders st).
  - right; right. eexists. reflexivity.
  - unfold prevPage. now destruct (_ <=? _); left.
  - unfold nextPage. now destruct (_ >=? _); left.
Qed.

Lemma step_NoDup st e :
  NoDup (map Completed.id (completedOrders st)) ->
  NoDup (map Completed.id (completedOrders (step st e))).
Proof.
  intros H. destruct (step_completed st e) as [-> | [(now & a & ->) | (p & ->)]].
  - assumption.
  - now apply addCompleted_NoDup.
  - now apply filter_ids_NoDup.
Qed.

Lemma run_NoDup es : forall st,
  NoDup (map Completed.id (completedOrders st)) ->
  NoDup (map Completed.id (completedOrders (run st es))).
Proof.
  induction es as [|e es IH]; intros st H; simpl; [assumption|].
  apply IH. now apply step_NoDup.
Qed.

(** *** The status drop-down on one order *)

Lemma of_status_id (o : Order.t) (s : string) :
  Order.id (Patch.apply o (Patch.of_status s)) = Order.id o.
Proof. reflexivity. Qed.

Lemma of_status_status (o : Order.t) (s : string) :
  Order.status (Patch.apply o (Patch.of_status s)) = s.
Proof. reflexivity. Qed.

Lemma of_status_twice (o : Order.t) (s s' : string) :
  Patch.apply (Patch.apply o (Patch.of_status s)) (Patch.of_status s')
  = Patch.apply o (Patch.of_status s').
Proof. reflexivity. Qed.

Lemma find_has_id id (l : list Order.t) (o : Order.t) :
  find (has_id id) l = Some o -> Order.id o = id.
Proof.
  intros H. apply find_some in H as [_ H]. now apply String.eqb_eq in H.
Qed.

Lemma onUpdate_status_find now id s st o :
  find (has_id id) (orders st) = Some o ->
  find (has_id id) (orders (onUpdate now id (Patch.of_status s) st))
  = Some (Patch.apply o (Patch.of_status s)).
Proof.
  intros H. rewrite onUpdate_orders, find_patched, H.
  unfold has_id. rewrite of_status_id, (find_has_id _ _ _ H).
  now rewrite String.eqb_refl.
Qed.

Lemma onUpdate_status_completed now id s st o :
  find (has_id id) (orders st) = Some o ->
  completedOrders (onUpdate now id (Patch.of_status s) st)
  = if (negb (Order.status o =? "Delivered")%string && (s =? "Delivered")%string)%bool
    then addCompleted now (Patch.apply o (Patch.of_status s)) (completedOrders st)
    else completedOrders st.
Proof.
  intros H. rewrite onUpdate_completed, H. cbn zeta.
  unfold has_id. rewrite of_status_id, (find_has_id _ _ _ H), String.eqb_refl.
  reflexivity.
Qed.

Lemma find_set_nth {A : Type} (p : A -> bool) (v : A) (l : list A) (i : nat) :
  findIndex p l = Some i -> p v = true -> find p (set_nth i v l) = Some v.
Proof.
  revert i. induction l as [|x l IH]; intros i; simpl; [discriminate|].
  destruct (p x) eqn:E.
  - intros [= <-] Hv. simpl. now rewrite Hv.
  - destruct (findIndex p l) as [j|]; simpl; [|discriminate].
    intros [= <-] Hv. simpl. rewrite E. now apply IH.
Qed.

Lemma upsertOrder_find now order st :
  find (has_id (Order.id order)) (orders (upsertOrder now order st)) = Some order.
Proof.
  rewrite upsertOrder_orders.
  assert (Hv : has_id (Order.id order) order = true) by apply String.eqb_refl.
  destruct (findIndex _ (orders st)) as [i|] eqn:E.
  - now apply find_set_nth.
  - simpl. now rewrite Hv.
Qed.

Lemma sets_status_step st now o s e :
  find (has_id (Order.id o)) (orders st) = Some o ->
  sets_status now o s e ->
  find (has_id (Order.id o)) (orders (step st e)) = Some (Patch.apply o (Patch.of_status s))
  /\ completedOrders (step st e)
     = if (negb (Order.status o =? "Delivered")%string && (s =? "Delivered")%string)%bool
       then addCompleted now (Patch.apply o (Patch.of_status s)) (completedOrders st)
       else completedOrders st.
Proof.
  intros Hf [-> | ->]; cbn [step]; split.
  - now apply onUpdate_status_find.
  - now apply onUpdate_status_completed.
  - apply (upsertOrder_find now (Patch.apply o (Patch.of_status s)) st).
  - rewrite upsertOrder_completed.
    change (Order.id (Patch.apply o (Patch.of_status s))) with (Order.id o).
    rewrite Hf. reflexivity.
Qed.

Lemma status_cycle_archive st o n1 n2 n3 n4 e1 e2 e3 e4 :
  find (has_id (Order.id o)) (orders st) = Some o ->
  Order.status o = "Pending" ->
  archived (Order.id o) (completedOrders st) = false ->
  sets_status n1 o "Preparing" e1 ->
  sets_status n2 o "Delivered" e2 ->
  sets_status n3 o "Pending" e3 ->
  sets_status n4 o "Delivered" e4 ->
  completedOrders (run st [e1; e2; e3; e4])
  = Completed.mk (Patch.apply o (Patch.of_status "Delivered")) n2 :: completedOrders st.
Proof.
  intros Hf Hs Ha H1 H2 H3 H4. unfold run. cbn [fold_left].
  destruct (sets_status_step st n1 o "Preparing" e1 Hf H1) as [F1 C1].
  set (st1 := step st e1) in *. clearbody st1.
  destruct (sets_status_step st1 n2 (Patch.apply o (Patch.of_status "Preparing"))
              "Delivered" e2 F1 H2) as [F2 C2].
  set (st2 := step st1 e2) in *. clearbody st2.
  destruct (sets_status_step st2 n3 (Patch.apply o (Patch.of_status "Delivered"))
              "Pending" e3 F2 H3) as [F3 C3].
  set (st3 := step st2 e3) in *. clearbody st3.
  destruct (sets_status_step st3 n4 (Patch.apply o (Patch.of_status "Pending"))
              "Delivered" e4 F3 H4) as [_ C4].
  rewrite of_status_status in C2, C3, C4. rewrite of_status_twice in *.
  rewrite Hs in C1.
  change (negb ("Pending" =? "Delivered")%string && ("Preparing" =? "Delivered")%string)%bool
    with false in C1.
  change (negb ("Preparing" =? "Delivered")%string && ("Delivered" =? "Delivered")%string)%bool
    with true in C2.
  change (negb ("Delivered" =? "Delivered")%string && ("Pending" =? "Delivered")%string)%bool
    with false in C3.
  change (negb ("Pending" =? "Delivered")%string && ("Delivered" =? "Delivered")%string)%bool
    with true in C4.
  cbv iota in C1, C2, C3, C4.
  rewrite C4, C3, C2, C1.
  rewrite addCompleted_archived.
  - now apply addCompleted_fresh.
  - apply addCompleted_archives.
Qed.

(** C1. An archive record is created once per order id.  [addCompleted]
    leaves the archive as it is when the id is already there and puts a
    record in front otherwise; [upsertOrder] and [onUpdate] ask for it
    exactly when an order enters the store as Delivered or goes from a
    status other than Delivered to Delivered; an archive without two
    records of one id keeps that property along every run of the
    dashboard; and the status sequence Pending, Preparing, Delivered,
    Pending, Delivered on one stored order, each step made with the status
    drop-down or with Save in the order dialog, adds exactly one record,
    the one of the first delivery. *)
Theorem archive_record_created_once :
  (forall now order prev,
      archived (Order.id order) prev = true -> addCompleted now order prev = prev)
  /\ (forall now order prev,
      archived (Order.id order) prev = false ->
      addCompleted now order prev = Completed.mk order now :: prev)
  /\ (forall now order st,
      completedOrders (upsertOrder now order st)
      = if triggers (find (has_id (Order.id order)) (orders st)) order
        then addCompleted now order (completedOrders st)
        else completedOrders st)
  /\ (forall now id patch st,
      completedOrders (onUpdate now id patch st)
      = match find (has_id id) (orders st) with
        | Some b =>
            let a := Patch.apply b patch in
            if (has_id id a && triggers (Some b) a)%bool
            then addCompleted now a (completedOrders st)
            else completedOrders st
        | None => completedOrders st
        end)
  /\ (forall st es id,
      NoDup (map Completed.id (completedOrders st)) ->
      (records_of id (completedOrders (run st es)) <= 1)%nat)
  /\ (forall st o n1 n2 n3 n4 e1 e2 e3 e4,
      find (has_id (Order.id o)) (orders st) = Some o ->
      Order.status o = "Pending" ->
      archived (Order.id o) (completedOrders st) = false ->
      sets_status n1 o "Preparing" e1 ->
      sets_status n2 o "Delivered" e2 ->
      sets_status n3 o "Pending" e3 ->
      sets_status n4 o "Delivered" e4 ->
      completedOrders (run st [e1; e2; e3; e4])
      = Completed.mk (Patch.apply o (Patch.of_status "Delivered")) n2 :: completedOrders st
      /\ records_of (Order.id o) (completedOrders (run st [e1; e2; e3; e4])) = 1%nat).
Proof.
  split; [exact addCompleted_archived|].
  split; [exact addCompleted_fresh|].
  split; [exact upsertOrder_completed|].
  split; [exact onUpdate_completed|].
  split.
  - intros st es id H. apply NoDup_records_of. now apply run_NoDup.
  - intros st o n1 n2 n3 n4 e1 e2 e3 e4 Hf Hs Ha H1 H2 H3 H4.
    pose proof (status_cycle_archive st o n1 n2 n3 n4 e1 e2 e3 e4 Hf Hs Ha H1 H2 H3 H4) as E.
    split; [exact E|]. rewrite E. unfold records_of. simpl.
    unfold Completed.id at 1. simpl. rewrite String.eqb_refl. simpl.
    apply records_of_absent in Ha. unfold records_of in Ha. now rewrite Ha.
Qed.

(** ** Archived snapshots and live orders *)

Lemma upsertOrder_keeps_archived now order st :
  archived (Order.id order) (completedOrders st) = true ->
  completedOrders (upsertOrder now order st) = completedOrders st.
Proof.
  intros H. rewrite upsertOrder_completed.
  destruct (triggers _ _); [now apply addCompleted_archived | reflexivity].
Qed.

Lemma onUpdate_keeps_archived now id patch st :
  archived id (completedOrders st) = true ->
  completedOrders (onUpdate now id patch st) = completedOrders st.
Proof.
  intros H. rewrite onUpdate_completed.
  destruct (find _ _) as [b|]; [|reflexivity]. cbn zeta.
  destruct (has_id id (Patch.apply b patch)) eqn:E; [|reflexivity].
  destruct (triggers _ _); [|reflexivity]. simpl.
  apply addCompleted_archived. apply String.eqb_eq in E. now rewrite E.
Qed.

Lemma onUpdate_same_status now id patch st :
  Patch.status patch = None ->
  completedOrders (onUpdate now id patch st) = completedOrders st.
Proof.
  intros H. rewrite onUpdate_completed.
  destruct (find _ _) as [b|]; [|reflexivity]. cbn zeta.
  replace (triggers (Some b) (Patch.apply b patch)) with false;
    [now rewrite andb_false_r|].
  unfold triggers, Patch.apply. simpl. rewrite H. simpl.
  now destruct (Order.status b =? "Delivered")%string.
Qed.

Lemma snapshots_addCompleted id now a cs :
  archived id cs = true -> snapshots id (addCompleted now a cs) = snapshots id cs.
Proof.
  intros H. destruct (archived (Order.id a) cs) eqn:E.
  - now rewrite addCompleted_archived.
  - rewrite addCompleted_fresh by assumption. unfold snapshots. simpl.
    unfold Completed.id at 1. simpl.
    destruct (Order.id a =? id)%string eqn:E'; [|reflexivity].
    apply String.eqb_eq in E'. congruence.
Qed.

Lemma archived_addCompleted id now a cs :
  archived id cs = true -> archived id (addCompleted now a cs) = true.
Proof.
  intros H. unfold addCompleted. destruct (some _ cs); [assumption|].
  unfold archived, some in *. simpl. rewrite H. apply orb_true_r.
Qed.

Lemma store_run_snapshots es : forall st id,
  archived id (completedOrders st) = true ->
  forallb store_event es = true ->
  snapshots id (completedOrders (run st es)) = snapshots id (completedOrders st)
  /\ archived id (completedOrders (run st es)) = true.
Proof.
  induction es as [|e es IH]; intros st id Ha Hs; simpl; [auto|].
  simpl in Hs. apply andb_true_iff in Hs as [He Hs].
  assert (H : snapshots id (completedOrders (step st e)) = snapshots id (completedOrders st)
              /\ archived id (completedOrders (step st e)) = true).
  { destruct e; try discriminate; cbn [step].
    - rewrite upsertOrder_completed. destruct (triggers _ _); [|auto].
      split; [now apply snapshots_addCompleted | now apply archived_addCompleted].
    - auto.
    - rewrite onUpdate_completed. destruct (find _ _); [|auto]. cbn zeta.
      destruct (_ && _)%bool; [|auto].
      split; [now apply snapshots_addCompleted | now apply archived_addCompleted]. }
  destruct H as [H1 H2]. destruct (IH (step st e) id H2 Hs) as [H3 H4].
  unfold run in *. split; [congruence | assumption].
Qed.

(** C2. Once an order id has a record in the archive, patching or saving
    the live order with that id, whatever fields change, leaves the whole
    archive as it is; a patch that carries no status leaves it as it is for
    every id; and along any sequence of creations, saves, patches and
    deletions of live orders the records of that id stay the same. *)
Theorem archived_snapshot_unchanged st id :
  archived id (completedOrders st) = true ->
  (forall now patch, completedOrders (onUpdate now id patch st) = completedOrders st)
  /\ (forall now order,
        Order.id order = id ->
        completedOrders (upsertOrder now order st) = completedOrders st)
  /\ (forall now id' patch,
        Patch.status patch = None ->
        completedOrders (onUpdate now id' patch st) = completedOrders st)
  /\ (forall es,
        forallb store_event es = true ->
        snapshots id (completedOrders (run st es)) = snapshots id (completedOrders st)).
Proof.
  intros Ha. repeat split.
  - intros now patch. now apply onUpdate_keeps_archived.
  - intros now order <-. now apply upsertOrder_keeps_archived.
  - intros now id' patch H. now apply onUpdate_same_status.
  - intros es H. now apply store_run_snapshots.
Qed.

Lemma archive_run_orders es : forall st,
  forallb archive_event es = true -> orders (run st es) = orders st.
Proof.
  induction es as [|e es IH]; intros st H; simpl; [reflexivity|].
  simpl in H. apply andb_true_iff in H as [He H].
  change (orders (run (step st e) es) = orders st).
  rewrite IH by assumption.
  destruct e; try discriminate; reflexivity.
Qed.

Lemma deleteOrder_In id st o :
  In o (orders (deleteOrder id st)) <-> In o (orders st) /\ Order.id o <> id.
Proof.
  rewrite deleteOrder_orders, filter_In. unfold has_id.
  rewrite negb_true_iff, String.eqb_neq. reflexivity.
Qed.

Lemma removeCompleted_In id cs c :
  In c (removeCompleted id cs) <-> In c cs /\ Completed.id c <> id.
Proof.
  unfold removeCompleted. rewrite filter_In, negb_true_iff, String.eqb_neq. reflexivity.
Qed.

(** C3. Deleting a live order removes the orders of that id from the
    active list and nothing else, and leaves the archive as it is;
    deleting one archive record, deleting a day and clearing the archive
    (confirmed or not) leave the list of live orders as it is, and so does
    any sequence of them. *)
Theorem live_orders_and_archive_independent :
  (forall id st, completedOrders (deleteOrder id st) = completedOrders st)
  /\ (forall id st,
        orders (deleteOrder id st) = filter (fun o => negb (has_id id o)) (orders st))
  /\ (forall id st o,
        In o (orders (deleteOrder id st)) <-> In o (orders st) /\ Order.id o <> id)
  /\ (forall id st, orders (step st (ERemoveCompleted id)) = orders st)
  /\ (forall d st, orders (step st (ERemoveCompletedDay d)) = orders st)
  /\ (forall c st, orders (step st (EClearCompleted c)) = orders st)
  /\ (forall es st, forallb archive_event es = true -> orders (run st es) = orders st).
Proof.
  split; [reflexivity|].
  split; [reflexivity|].
  split; [exact deleteOrder_In|].
  split; [reflexivity|].
  split; [reflexivity|].
  split; [reflexivity|].
  intros es st H. now apply archive_run_orders.
Qed.

(** ** Strings: concatenation and occurrences of a character *)

Lemma append_assoc (a b c : string) : (a ++ b) ++ c = a ++ (b ++ c).
Proof. induction a as [|x a IH]; simpl; [reflexivity | now rewrite IH]. Qed.

Lemma append_nil_r (a : string) : a ++ "" = a.
Proof. induction a as [|x a IH]; simpl; [reflexivity | now rewrite IH]. Qed.

Lemma count_char_app c (a b : string) :
  count_char c (a ++ b) = (count_char c a + count_char c b)%nat.
Proof. induction a as [|x a IH]; simpl; [reflexivity | rewrite IH; lia]. Qed.

Lemma all_chars_app p (a b : string) :
  all_chars p (a ++ b) = (all_chars p a && all_chars p b)%bool.
Proof.
  induction a as [|x a IH]; simpl; [reflexivity | now rewrite IH, andb_assoc].
Qed.

Lemma all_chars_count p c s :
  all_chars p s = true -> p c = false -> count_char c s = 0%nat.
Proof.
  intros H Hc. induction s as [|a s IH]; simpl in *; [reflexivity|].
  apply andb_true_iff in H as [Ha H]. rewrite (IH H).
  destruct (Ascii.eqb_spec a c); [congruence | reflexivity].
Qed.

Lemma replaceAll_absent c r s : count_char c s = 0%nat -> replaceAll c r s = s.
Proof.
  induction s as [|a s IH]; simpl; [reflexivity|].
  destruct (Ascii.eqb a c); [discriminate|]. intros H. now rewrite IH.
Qed.

Lemma string_of_uint_chars d : all_chars is_num_char (NilEmpty.string_of_uint d) = true.
Proof. induction d; simpl; auto. Qed.

Lemma Number_toString_chars n : all_chars is_num_char (Number_toString n) = true.
Proof.
  unfold Number_toString, NilZero.string_of_int, NilZero.string_of_uint.
  destruct (Z.to_int n) as [d|d]; destruct d; simpl; try reflexivity;
    apply string_of_uint_chars.
Qed.

Lemma toFixed2_chars n :
  all_chars (fun c => is_num_char c || Ascii.eqb c "."%char)%bool (toFixed2 n) = true.
Proof.
  unfold toFixed2. rewrite all_chars_app. apply andb_true_iff. split; [|reflexivity].
  pose proof (Number_toString_chars n) as H.
  induction (Number_toString n) as [|a s IH]; simpl in *; [reflexivity|].
  apply andb_true_iff in H as [-> H]. simpl. auto.
Qed.

(** ** Totals *)

Lemma reduce_lines its : forall a,
  fold_left (fun s it => s + Item.qty it * Item.price it) its a = a + sum_of_lines its.
Proof.
  induction its as [|it its IH]; intros a; simpl; [lia|]. rewrite IH. lia.
Qed.

Lemma total_sum its : total its = sum_of_lines its.
Proof. unfold total. now rewrite reduce_lines. Qed.

Lemma render_app (a b : list piece) : render (a ++ b) = render a ++ render b.
Proof.
  induction a as [|p a IH]; simpl; [reflexivity|]. now rewrite IH, append_assoc.
Qed.

Lemma csv_cell_plain c : count_char dquote c = 0%nat -> csv_cell c = dq ++ c ++ dq.
Proof. intros H. unfold csv_cell. now rewrite replaceAll_absent. Qed.

Lemma toFixed2_no_quote n : count_char dquote (toFixed2 n) = 0%nat.
Proof. apply (all_chars_count _ _ _ (toFixed2_chars n)). reflexivity. Qed.


(** ** Search: substrings and letter case *)

Lemma prefix_spec q s : prefix q s = true <-> exists post, s = q ++ post.
Proof.
  revert s. induction q as [|a q IH]; intros s.
  - split; [intros _; now exists s | now destruct s].
  - destruct s as [|b s]; simpl;
      [split; [discriminate | intros [post H]; discriminate]|].
    destruct (ascii_dec a b) as [<-|n].
    + rewrite IH. split; intros [post H]; exists post; [now rewrite H | now injection H].
    + split; [discriminate | intros [post H]; injection H; congruence].
Qed.

Lemma includes_spec q s : includes q s = true <-> substring_of q s.
Proof.
  unfold substring_of. induction s as [|b s IH].
  - cbn [includes]. rewrite orb_false_r, prefix_spec. split.
    + intros [post H]. now exists "", post.
    + intros (pre & post & H). destruct pre; [now exists post | discriminate].
  - cbn [includes]. rewrite orb_true_iff, prefix_spec, IH. split.
    + intros [[post H] | (pre & post & H)].
      * now exists "", post.
      * exists (String b pre), post. simpl. now rewrite H.
    + intros (pre & post & H). destruct pre as [|c pre].
      * left. now exists post.
      * right. exists pre, post. simpl in H. now injection H.
Qed.

Lemma toLowerCase_app (a b : string) :
  toLowerCase (a ++ b) = toLowerCase a ++ toLowerCase b.
Proof. induction a as [|x a IH]; simpl; [reflexivity | now rewrite IH]. Qed.

Lemma toLowerCase_split s : forall x y,
  toLowerCase s = x ++ y ->
  exists a b, s = a ++ b /\ toLowerCase a = x /\ toLowerCase b = y.
Proof.
  intros x. revert s. induction x as [|c x IH]; intros s y H.
  - exists "", s. auto.
  - destruct s as [|d s]; [discriminate|]. simpl in H. injection H as Hc H.
    destruct (IH s y H) as (a & b & -> & Ha & Hb).
    exists (String d a), b. simpl. now rewrite Hc, Ha.
Qed.

Lemma lower_ascii_idem c : lower_ascii (lower_ascii c) = lower_ascii c.
Proof.
  destruct c as [[] [] [] [] [] [] [] []]; reflexivity.
Qed.

Lemma toLowerCase_idem s : toLowerCase (toLowerCase s) = toLowerCase s.
Proof.
  induction s as [|c s IH]; simpl; [reflexivity | now rewrite lower_ascii_idem, IH].
Qed.

(** The test of the source, on lower-cased text, is containment up to case. *)
Lemma includes_lower q s :
  includes (toLowerCase q) (toLowerCase s) = true <-> ci_contains q s.
Proof.
  rewrite includes_spec. unfold substring_of, ci_contains. split.
  - intros (pre & post & H).
    apply toLowerCase_split in H as (a & r & -> & Ha & H).
    apply toLowerCase_split in H as (m & b & -> & Hm & Hb).
    now exists a, m, b.
  - intros (pre & mid & post & -> & H).
    exists (toLowerCase pre), (toLowerCase post).
    now rewrite !toLowerCase_app, H.
Qed.

(** ** The sort of arrays *)

Section ArraySort.

Context {A : Type} (cmp : A -> A -> Z).

Lemma sort_insert_perm x l : Permutation (sort_insert cmp x l) (x :: l).
Proof.
  induction l as [|y l IH]; simpl; [reflexivity|].
  destruct (cmp x y <=? 0); [reflexivity|].
  rewrite IH. apply perm_swap.
Qed.

Lemma Array_sort_perm l : Permutation (Array_sort cmp l) l.
Proof.
  induction l as [|x l IH]; simpl; [reflexivity|].
  rewrite sort_insert_perm. now constructor.
Qed.

Lemma Array_sort_In l x : In x (Array_sort cmp l) <-> In x l.
Proof.
  split; apply Permutation_in; [|symmetry]; apply Array_sort_perm.
Qed.

(** Stability: a test that never holds of both an element and one that the
    element compares greater than selects the same sub-list before and
    after the sort. *)
Lemma sort_insert_filter (p : A -> bool) x l :
  (forall y, cmp x y > 0 -> p x = true -> p y = false) ->
  filter p (sort_insert cmp x l) = filter p (x :: l).
Proof.
  intros H. induction l as [|y l IH]; [reflexivity|].
  cbn [sort_insert]. destruct (cmp x y <=? 0) eqn:E; [reflexivity|].
  apply Z.leb_gt in E.
  cbn [filter] in *. rewrite IH.
  destruct (p x) eqn:Hx; [|reflexivity].
  now rewrite (H y) by (lia || reflexivity).
Qed.

Lemma Array_sort_filter (p : A -> bool) l :
  (forall x y, cmp x y > 0 -> p x = true -> p y = false) ->
  filter p (Array_sort cmp l) = filter p l.
Proof.
  intros H. induction l as [|x l IH]; [reflexivity|].
  cbn [Array_sort fold_right]. rewrite sort_insert_filter by apply H.
  cbn [filter]. fold (Array_sort cmp l). now rewrite IH.
Qed.

Hypothesis cmp_total : forall a b, cmp a b <= 0 \/ cmp b a <= 0.
Hypothesis cmp_trans : forall a b c, cmp a b <= 0 -> cmp b c <= 0 -> cmp a c <= 0.

Lemma sort_insert_sorted x l :
  StronglySorted (fun a b => cmp a b <= 0) l ->
  StronglySorted (fun a b => cmp a b <= 0) (sort_insert cmp x l).
Proof using cmp_total cmp_trans.
  induction l as [|y l IH]; intros Hs; simpl.
  - repeat constructor.
  - inversion Hs as [|? ? Hl Hy]; subst.
    destruct (cmp x y <=? 0) eqn:E.
    + apply Z.leb_le in E. constructor; [assumption|].
      constructor; [assumption|].
      eapply Forall_impl; [|exact Hy]. intros z Hz. now apply (cmp_trans x y z).
    + apply Z.leb_gt in E. constructor; [now apply IH|].
      eapply Permutation_Forall; [symmetry; apply sort_insert_perm|].
      constructor; [|assumption].
      destruct (cmp_total x y); [lia | assumption].
Qed.

Lemma Array_sort_sorted l : StronglySorted (fun a b => cmp a b <= 0) (Array_sort cmp l).
Proof using cmp_total cmp_trans.
  induction l as [|x l IH]; simpl; [constructor|]. now apply sort_insert_sorted.
Qed.

End ArraySort.

(** ** The visible orders *)

Lemma status_ok_spec sf o : status_ok sf o = true <-> status_pass sf o.
Proof.
  unfold status_ok, status_pass. destruct (String.eqb_spec sf "All") as [->|n].
  - split; [intros _; now left | reflexivity].
  - rewrite String.eqb_eq.
    split; [intros H; now right | intros [H|H]; [contradiction | assumption]].
Qed.

Lemma type_ok_spec tf o : type_ok tf o = true <-> type_pass tf o.
Proof.
  unfold type_ok, type_pass. destruct (String.eqb_spec tf "All") as [->|n].
  - split; [intros _; now left | reflexivity].
  - rewrite String.eqb_eq.
    split; [intros H; now right | intros [H|H]; [contradiction | assumption]].
Qed.

Lemma ci_contains_empty q s : toLowerCase q = "" -> ci_contains q s.
Proof. intros H. exists "", "", s. now rewrite H. Qed.

Lemma query_ok_spec qry o :
  query_ok (toLowerCase (trim qry)) o = true <-> query_pass qry o.
Proof.
  unfold query_ok, query_pass, truthy. cbn zeta. rewrite negb_involutive.
  destruct (String.eqb_spec (toLowerCase (trim qry)) "") as [E|n].
  - split; [|reflexivity]. intros _. left. now apply ci_contains_empty.
  - rewrite !orb_true_iff, !includes_lower. unfold some. rewrite existsb_exists.
    setoid_rewrite includes_lower. apply or_assoc.
Qed.

Lemma keeps_spec qry sf tf o :
  keeps qry sf tf o = true <-> status_pass sf o /\ type_pass tf o /\ query_pass qry o.
Proof.
  unfold keeps. rewrite !andb_true_iff, status_ok_spec, type_ok_spec, query_ok_spec.
  apply and_assoc.
Qed.

Lemma filter_filter {A : Type} (p q : A -> bool) (l : list A) :
  filter q (filter p l) = filter (fun x => p x && q x)%bool l.
Proof.
  induction l as [|x l IH]; simpl; [reflexivity|].
  destruct (p x); simpl; [|exact IH].
  destruct (q x); now rewrite IH.
Qed.

Lemma filtered_keeps os qry sf tf :
  filtered os qry sf tf = Array_sort by_createdAt_desc (filter (keeps qry sf tf) os).
Proof.
  unfold filtered. cbn zeta. rewrite !filter_filter. f_equal.
  apply filter_ext. intros o. unfold keeps. now rewrite andb_assoc.
Qed.

Lemma StronglySorted_weaken {A : Type} (R R' : A -> A -> Prop) (l : list A) :
  (forall a b, R a b -> R' a b) -> StronglySorted R l -> StronglySorted R' l.
Proof.
  intros H Hs. induction Hs as [|x l Hs IH Hx]; constructor; [assumption|].
  eapply Forall_impl; [|exact Hx]. intros y. apply H.
Qed.

Lemma by_createdAt_desc_le a b :
  by_createdAt_desc a b <= 0
  <-> Date_valueOf (Order.createdAt a) >= Date_valueOf (Order.createdAt b).
Proof. unfold by_createdAt_desc. lia. Qed.


(** ** Pagination *)

Lemma Math_ceil_div_spec a b :
  0 < b -> (Math_ceil_div a b - 1) * b < a <= Math_ceil_div a b * b.
Proof.
  intros Hb. unfold Math_ceil_div.
  pose proof (Z.div_mod (- a) b ltac:(lia)) as E.
  pose proof (Z.mod_pos_bound (- a) b Hb) as B.
  nia.
Qed.

(** The number of pages is the least number, at least one, of pages of
    [perPage] rows that hold all the visible orders. *)
Lemma totalPages_spec st :
  let n := Z.of_nat (length (visible st)) in
  1 <= totalPages st
  /\ n <= totalPages st * perPage
  /\ (forall p, 1 <= p -> n <= p * perPage -> totalPages st <= p).
Proof.
  cbn zeta. unfold totalPages.
  pose proof (Math_ceil_div_spec (Z.of_nat (length (visible st))) perPage ltac:(reflexivity)) as H.
  unfold perPage in *. split; [lia|]. split; [lia|]. intros p Hp Hn. nia.
Qed.

Lemma filter_change_resets_page st v :
  page (setQuery v st) = 1
  /\ page (setStatusFilter v st) = 1
  /\ page (setTypeFilter v st) = 1.
Proof. repeat split. Qed.

(** Prev and Next keep the page between 1 and the number of pages. *)
Lemma navigation_keeps_page st :
  1 <= page st <= totalPages st ->
  1 <= page (prevPage st) <= totalPages (prevPage st)
  /\ 1 <= page (nextPage st) <= totalPages (nextPage st).
Proof.
  intros H. unfold prevPage, nextPage. split.
  - destruct (page st <=? 1) eqn:E; [assumption|]. apply Z.leb_gt in E.
    change (totalPages (setPage _ st)) with (totalPages st).
    cbn [page setPage set_view]. lia.
  - destruct (page st >=? totalPages st) eqn:E; [assumption|].
    change (totalPages (setPage _ st)) with (totalPages st).
    cbn [page setPage set_view]. lia.
Qed.

(** The page never goes below 1. *)
Lemma page_positive es : forall st, 1 <= page st -> 1 <= page (run st es).
Proof.
  induction es as [|e es IH]; intros st H; [assumption|].
  change (1 <= page (run (step st e) es)). apply IH.
  destruct e; cbn [step]; try assumption; try (cbn; lia).
  - unfold upsertOrder. now destruct (findIndex _ _).
  - unfold prevPage. destruct (page st <=? 1); [assumption|].
    cbn [page setPage set_view]. lia.
  - unfold nextPage. destruct (page st >=? totalPages st); [assumption|].
    cbn [page setPage set_view]. pose proof (totalPages_spec st). cbn zeta in *. lia.
Qed.

(** ** The order of day keys *)

Lemma ascii_compare_refl a : Ascii.compare a a = Eq.
Proof. apply N.compare_refl. Qed.

Lemma string_compare_refl s : String.compare s s = Eq.
Proof. induction s as [|a s IH]; simpl; [reflexivity | now rewrite ascii_compare_refl]. Qed.

Lemma ascii_compare_lt_trans a b c :
  Ascii.compare a b = Lt -> Ascii.compare b c = Lt -> Ascii.compare a c = Lt.
Proof. unfold Ascii.compare. rewrite !N.compare_lt_iff. lia. Qed.

Lemma string_compare_lt_trans a : forall b c,
  String.compare a b = Lt -> String.compare b c = Lt -> String.compare a c = Lt.
Proof.
  induction a as [|x a IH]; intros [|y b] [|z c]; simpl; try easy.
  destruct (Ascii.compare x y) eqn:Exy; try discriminate;
    destruct (Ascii.compare y z) eqn:Eyz; try discriminate; intros H1 H2.
  - apply Ascii.compare_eq_iff in Exy, Eyz. subst. rewrite ascii_compare_refl. eauto.
  - apply Ascii.compare_eq_iff in Exy. subst. now rewrite Eyz.
  - apply Ascii.compare_eq_iff in Eyz. subst. now rewrite Exy.
  - now rewrite (ascii_compare_lt_trans x y z).
Qed.

Lemma newest_first_le a b : newest_first a b <= 0 <-> String.compare b a <> Gt.
Proof.
  unfold newest_first, localeCompare. destruct (String.compare b a); split; intros H;
    try lia; try discriminate; now elim H.
Qed.

Lemma newest_first_total a b : newest_first a b <= 0 \/ newest_first b a <= 0.
Proof.
  rewrite !newest_first_le, (String.compare_antisym b a).
  destruct (String.compare a b); simpl; (left; discriminate) || (right; discriminate).
Qed.

Lemma newest_first_trans a b c :
  newest_first a b <= 0 -> newest_first b c <= 0 -> newest_first a c <= 0.
Proof.
  rewrite !newest_first_le. intros H1 H2.
  destruct (String.compare b a) eqn:Eba; [| |congruence].
  - apply String.compare_eq_iff in Eba. now subst.
  - destruct (String.compare c b) eqn:Ecb; [| |congruence].
    + apply String.compare_eq_iff in Ecb. subst. congruence.
    + rewrite (string_compare_lt_trans c b a Ecb Eba). discriminate.
Qed.

Lemma later_irrefl a : ~ later a a.
Proof. unfold later. now rewrite string_compare_refl. Qed.

Lemma later_asym a b : later a b -> later b a -> False.
Proof. unfold later. rewrite (String.compare_antisym b a). now intros ->. Qed.

Lemma sorted_NoDup_later (l : list string) :
  StronglySorted (fun a b => newest_first a b <= 0) l -> NoDup l -> StronglySorted later l.
Proof.
  intros Hs. induction Hs as [|x l Hs IH Hx]; intros Hd; constructor.
  - apply IH. now inversion Hd.
  - inversion Hd as [|? ? Hn Hd']; subst.
    rewrite Forall_forall in *. intros y Hy. specialize (Hx y Hy).
    apply newest_first_le in Hx. unfold later.
    rewrite String.compare_antisym. destruct (String.compare y x) eqn:E; [| reflexivity | congruence].
    apply String.compare_eq_iff in E. now subst.
Qed.

Lemma later_sorted_unique (l1 : list string) : forall l2,
  StronglySorted later l1 -> StronglySorted later l2 ->
  (forall x, In x l1 <-> In x l2) -> l1 = l2.
Proof.
  induction l1 as [|x l1 IH]; intros [|y l2] H1 H2 H.
  - reflexivity.
  - exfalso. apply (proj2 (H y)). now left.
  - exfalso. apply (proj1 (H x)). now left.
  - apply StronglySorted_inv in H1 as [H1 Hx], H2 as [H2 Hy].
    rewrite Forall_forall in Hx, Hy.
    assert (x = y) as <-.
    { destruct (proj1 (H x) (or_introl eq_refl)) as [E|Hin]; [now symmetry|].
      destruct (proj2 (H y) (or_introl eq_refl)) as [E|Hin']; [assumption|].
      exfalso. exact (later_asym x y (Hx y Hin') (Hy x Hin)). }
    f_equal. apply IH; [assumption..|].
    intros z. split; intros Hz.
    + destruct (proj1 (H z) (or_intror Hz)) as [E|Hin]; [|assumption].
      subst z. exfalso. exact (later_irrefl x (Hx x Hz)).
    + destruct (proj2 (H z) (or_intror Hz)) as [E|Hin]; [|assumption].
      subst z. exfalso. exact (later_irrefl x (Hy x Hz)).
Qed.

Lemma StronglySorted_filter {A : Type} (R : A -> A -> Prop) (p : A -> bool) (l : list A) :
  StronglySorted R l -> StronglySorted R (filter p l).
Proof.
  intros Hs. induction Hs as [|x l Hs IH Hx]; simpl; [constructor|].
  destruct (p x); [|assumption]. constructor; [assumption|].
  rewrite Forall_forall in *. intros y Hy. apply Hx. now apply filter_In in Hy.
Qed.

Lemma StronglySorted_map {A B : Type} (f : A -> B) (R : B -> B -> Prop) (l : list A) :
  StronglySorted (fun a b => R (f a) (f b)) l -> StronglySorted R (map f l).
Proof.
  intros Hs. induction Hs as [|x l Hs IH Hx]; simpl; constructor; [assumption|].
  rewrite Forall_forall in *. intros y Hy.
  apply in_map_iff in Hy as (a & <- & Ha). now apply Hx.
Qed.

(** ** The completed list grouped by day *)

Lemma map_get_push k c m d :
  map_get (map_push k c m) d
  = if (k =? d)%string then (map_get m d ++ [c])%list else map_get m d.
Proof.
  unfold map_get. induction m as [|[k' v] m IH]; simpl.
  - now destruct (k =? d)%string.
  - destruct (String.eqb_spec k' k) as [->|n]; simpl.
    + now destruct (k =? d)%string.
    + destruct (String.eqb_spec k' d) as [->|n']; [|exact IH].
      destruct (String.eqb_spec k d); [congruence | reflexivity].
Qed.

Lemma keys_push_In k c m d :
  In d (map fst (map_push k c m)) <-> d = k \/ In d (map fst m).
Proof.
  induction m as [|[k' v] m IH]; simpl.
  - split; [intros [<-|[]]; now left | intros [->|[]]; now left].
  - destruct (String.eqb_spec k' k) as [->|n]; simpl.
    + split; [intros [H|H]; [right; now left | right; now right]|].
      intros [->|[H|H]]; [now left | now left | now right].
    + rewrite IH. split.
      * intros [H|[H|H]]; [right; now left | now left | right; now right].
      * intros [H|[H|H]]; [right; now left | now left | right; now right].
Qed.

Lemma keys_push_NoDup k c m : NoDup (map fst m) -> NoDup (map fst (map_push k c m)).
Proof.
  induction m as [|[k' v] m IH]; simpl; intros H.
  - repeat constructor. intros [].
  - inversion H as [|? ? Hn Hd]; subst.
    destruct (String.eqb_spec k' k) as [->|n]; simpl; [now constructor|].
    constructor; [|now apply IH].
    rewrite keys_push_In. intros [E|Hin]; [congruence | contradiction].
Qed.

Lemma filter_snoc {A : Type} (p : A -> bool) (l : list A) (x : A) :
  filter p (l ++ [x]) = (filter p l ++ if p x then [x] else [])%list.
Proof. rewrite filter_app. simpl. now destruct (p x). Qed.

Lemma holds_push m l c : holds m l -> holds (map_push (day_of c) c m) (l ++ [c]).
Proof.
  intros (Hg & Hd & Hk). split; [|split].
  - intros d. rewrite map_get_push, filter_snoc, Hg. unfold on_day.
    destruct (day_of c =? d)%string; [reflexivity | now rewrite app_nil_r].
  - now apply keys_push_NoDup.
  - intros d. rewrite keys_push_In, Hk. split.
    + intros [-> | (x & Hx & E)].
      * exists c. split; [apply in_or_app; right; now left | reflexivity].
      * exists x. split; [apply in_or_app; now left | assumption].
    + intros (x & Hx & E). apply in_app_or in Hx as [Hx | [-> | []]].
      * right. now exists x.
      * now left.
Qed.

Lemma holds_fold cs : forall m l,
  holds m l ->
  holds (fold_left (fun m o => map_push (getDayKey (Completed.completedAt o)) o m) cs m)
        (l ++ cs).
Proof.
  induction cs as [|c cs IH]; intros m l H; simpl.
  - now rewrite app_nil_r.
  - replace (l ++ c :: cs)%list with ((l ++ [c]) ++ cs)%list
      by now rewrite <- app_assoc.
    apply IH. now apply holds_push.
Qed.

Lemma day_map_holds cs : holds (day_map cs) cs.
Proof.
  apply (holds_fold cs [] []). split; [|split].
  - reflexivity.
  - constructor.
  - intros d. split; [intros [] | intros (c & [] & _)].
Qed.

Lemma sorted_days_spec cs :
  let days := Array_sort newest_first (map fst (day_map cs)) in
  StronglySorted later days
  /\ forall d, In d days <-> exists c, In c cs /\ day_of c = d.
Proof.
  cbn zeta. destruct (day_map_holds cs) as (_ & Hd & Hk). split.
  - apply sorted_NoDup_later.
    + apply Array_sort_sorted; [apply newest_first_total | apply newest_first_trans].
    + eapply Permutation_NoDup; [symmetry; apply Array_sort_perm | assumption].
  - intros d. now rewrite Array_sort_In, Hk.
Qed.

Lemma grouped_days cs :
  map Group.day (grouped cs) = Array_sort newest_first (map fst (day_map cs)).
Proof.
  unfold grouped. cbn zeta. rewrite map_map. simpl. apply map_id.
Qed.

Lemma grouped_In cs g :
  In g (grouped cs)
  <-> (exists c, In c cs /\ day_of c = Group.day g)
      /\ Group.items g = filter (on_day (Group.day g)) cs.
Proof.
  destruct (day_map_holds cs) as (Hg & _ & _).
  destruct (sorted_days_spec cs) as (_ & Hk). cbn zeta in Hk.
  unfold grouped. cbn zeta. rewrite in_map_iff. split.
  - intros (d & <- & Hin). simpl. split; [now apply Hk | apply Hg].
  - intros (Hc & Hi). exists (Group.day g). split; [|now apply Hk].
    destruct g as [d its]. simpl in *. now rewrite Hg, Hi.
Qed.

Lemma dayTotal_sum its : dayTotal its = sum_of_totals its.
Proof.
  unfold dayTotal.
  assert (H : forall a,
    fold_left (fun s o => s + total (Order.items (Completed.order o))) its a
    = a + sum_of_totals its).
  { induction its as [|c its IH]; intros a; simpl; [lia|].
    rewrite IH, total_sum. lia. }
  now rewrite H.
Qed.

Lemma removeCompletedDay_In d cs c :
  In c (removeCompletedDay d cs) <-> In c cs /\ day_of c <> d.
Proof.
  unfold removeCompletedDay. rewrite filter_In, negb_true_iff, String.eqb_neq.
  reflexivity.
Qed.

Lemma filter_map_comm {A B : Type} (f : A -> B) (p : B -> bool) (l : list A) :
  filter p (map f l) = map f (filter (fun a => p (f a)) l).
Proof.
  induction l as [|x l IH]; simpl; [reflexivity|].
  destruct (p (f x)); simpl; now rewrite IH.
Qed.

Lemma on_day_after_removal d k cs :
  k <> d -> filter (on_day k) (removeCompletedDay d cs) = filter (on_day k) cs.
Proof.
  intros Hk. unfold removeCompletedDay. rewrite filter_filter. apply filter_ext.
  intros c. unfold on_day, day_of.
  destruct (String.eqb_spec (getDayKey (Completed.completedAt c)) k) as [E|n];
    [|apply andb_false_r].
  destruct (String.eqb_spec (getDayKey (Completed.completedAt c)) d); [congruence | reflexivity].
Qed.

Lemma grouped_removeCompletedDay d cs :
  grouped (removeCompletedDay d cs)
  = filter (fun g => negb (Group.day g =? d)%string) (grouped cs).
Proof.
  destruct (sorted_days_spec cs) as (Hs & Hk).
  destruct (sorted_days_spec (removeCompletedDay d cs)) as (Hs' & Hk').
  cbn zeta in *.
  assert (Hdays : Array_sort newest_first (map fst (day_map (removeCompletedDay d cs)))
                  = filter (fun k => negb (k =? d)%string)
                      (Array_sort newest_first (map fst (day_map cs)))).
  { apply later_sorted_unique; [assumption | now apply StronglySorted_filter |].
    intros k. rewrite Hk', filter_In, Hk, negb_true_iff, String.eqb_neq. split.
    - intros (c & Hc & E). apply removeCompletedDay_In in Hc as [Hc Hd].
      split; [now exists c | congruence].
    - intros ((c & Hc & E) & Hd). exists c. split; [|assumption].
      apply removeCompletedDay_In. split; [assumption | congruence]. }
  unfold grouped. cbn zeta. rewrite Hdays, filter_map_comm. simpl.
  apply map_ext_in. intros k Hin. apply filter_In in Hin as [_ Hd].
  apply negb_true_iff, String.eqb_neq in Hd. f_equal.
  destruct (day_map_holds cs) as (Hg & _ & _).
  destruct (day_map_holds (removeCompletedDay d cs)) as (Hg' & _ & _).
  now rewrite Hg, Hg', on_day_after_removal.
Qed.

(** C7. The grouped view of the archive lists the days that have a record,
    each once, the latest day first.  The records of a day are the archive
    records with that day key, in archive order (the latest completion
    first, new records being put in front), and there is at least one; every
    record is in the group of its day.  The total of a day is the sum of
    the order totals of its records.  Deleting a day removes exactly the
    records whose day key, the key of the grouping, is that day: the
    grouped view loses that group and nothing else. *)
Theorem completed_grouped_by_day (cs : list Completed.t) :
  let gs := grouped cs in
  StronglySorted (fun g h => later (Group.day g) (Group.day h)) gs
  /\ (forall g, In g gs ->
        Group.items g = filter (on_day (Group.day g)) cs /\ Group.items g <> [])
  /\ (forall c, In c cs ->
        exists g, In g gs /\ Group.day g = day_of c /\ In c (Group.items g))
  /\ (forall g, dayTotal (Group.items g) = sum_of_totals (Group.items g))
  /\ (forall d, removeCompletedDay d cs = filter (fun c => negb (on_day d c)) cs)
  /\ (forall d c, In c (removeCompletedDay d cs) <-> In c cs /\ day_of c <> d)
  /\ (forall d,
        grouped (removeCompletedDay d cs)
        = filter (fun g => negb (Group.day g =? d)%string) gs).
Proof.
  cbn zeta. split; [|split; [|split; [|split; [|split; [|split]]]]].
  - destruct (sorted_days_spec cs) as (Hs & _). cbn zeta in Hs.
    rewrite <- grouped_days in Hs.
    clear - Hs. induction (grouped cs) as [|g gs IH]; [constructor|].
    simpl in Hs. apply StronglySorted_inv in Hs as [Hs Hg].
    constructor; [now apply IH|].
    rewrite Forall_forall in *. intros h Hh. apply Hg. now apply in_map.
  - intros g Hg. apply grouped_In in Hg as ((c & Hc & E) & Hi). split; [assumption|].
    rewrite Hi. intros Hnil.
    assert (Hin : In c (filter (on_day (Group.day g)) cs)).
    { apply filter_In. split; [assumption|]. now apply String.eqb_eq. }
    now rewrite Hnil in Hin.
  - intros c Hc.
    exists (Group.mk (day_of c) (filter (on_day (day_of c)) cs)). split; [|split].
    + apply grouped_In. simpl. split; [now exists c | reflexivity].
    + reflexivity.
    + simpl. apply filter_In. split; [assumption | apply String.eqb_refl].
  - intros g. apply dayTotal_sum.
  - reflexivity.
  - intros d c. apply removeCompletedDay_In.
  - intros d. apply grouped_removeCompletedDay.
Qed.

(** ** Reading the exported text back *)

Lemma parse_quoted_body c : forall field row rows rest,
  parse_from Quoted field row rows (replaceAll dquote (dq ++ dq) c ++ dq ++ rest)
  = parse_from QuoteInQuoted (field ++ c) row rows rest.
Proof.
  induction c as [|a c IH]; intros field row rows rest.
  - simpl. now rewrite append_nil_r.
  - cbn [replaceAll]. destruct (Ascii.eqb_spec a dquote) as [->|n].
    + change (((dq ++ dq) ++ replaceAll dquote (dq ++ dq) c) ++ dq ++ rest)
        with (String dquote (String dquote (replaceAll dquote (dq ++ dq) c ++ dq ++ rest))).
      cbn [parse_from]. unfold is_dquote. rewrite Ascii.eqb_refl.
      rewrite IH. f_equal. unfold dq. now rewrite append_assoc.
    + cbn [append parse_from]. unfold is_dquote.
      destruct (Ascii.eqb_spec a dquote); [contradiction|].
      rewrite IH. f_equal. now rewrite append_assoc.
Qed.

Lemma parse_cell c row rows rest :
  parse_from FieldStart "" row rows (csv_cell c ++ rest)
  = parse_from QuoteInQuoted c row rows rest.
Proof.
  unfold csv_cell. rewrite !append_assoc.
  change (dq ++ replaceAll dquote (dq ++ dq) c ++ dq ++ rest)
    with (String dquote (replaceAll dquote (dq ++ dq) c ++ dq ++ rest)).
  cbn [parse_from]. unfold is_dquote. rewrite Ascii.eqb_refl.
  now rewrite parse_quoted_body.
Qed.

Lemma parse_line r : forall c row rows rest,
  parse_from FieldStart "" row rows (csv_line (c :: r) ++ rest)
  = parse_from QuoteInQuoted (last (c :: r) "") (row ++ removelast (c :: r))%list rows rest.
Proof.
  unfold csv_line. induction r as [|c' r IH]; intros c row rows rest.
  - change (join "," (map csv_cell [c])) with (csv_cell c).
    rewrite parse_cell. cbn [last removelast]. now rewrite app_nil_r.
  - change (join "," (map csv_cell (c :: c' :: r)))
      with (csv_cell c ++ "," ++ join "," (map csv_cell (c' :: r))).
    rewrite !append_assoc, parse_cell.
    change ("," ++ join "," (map csv_cell (c' :: r)) ++ rest)
      with (String ","%char (join "," (map csv_cell (c' :: r)) ++ rest)).
    cbn [parse_from]. change (is_dquote ","%char) with false.
    change (is_comma ","%char) with true. cbv iota.
    rewrite IH. f_equal.
    change (removelast (c :: c' :: r)) with (c :: removelast (c' :: r)).
    now rewrite <- app_assoc.
Qed.

Lemma last_removelast (c : string) (r : list string) :
  (removelast (c :: r) ++ [last (c :: r) ""])%list = c :: r.
Proof. symmetry. apply app_removelast_last. discriminate. Qed.

Lemma parse_line_end c r row rows :
  parse_from FieldStart "" row rows (csv_line (c :: r)) = (rows ++ [row ++ c :: r])%list.
Proof.
  rewrite <- (append_nil_r (csv_line (c :: r))), parse_line.
  cbn [parse_from]. now rewrite <- app_assoc, last_removelast.
Qed.

Lemma parse_line_lf c r row rows rest :
  parse_from FieldStart "" row rows (csv_line (c :: r) ++ lf ++ rest)
  = parse_from FieldStart "" [] (rows ++ [row ++ c :: r])%list rest.
Proof.
  rewrite parse_line.
  change (lf ++ rest) with (String "010"%char rest).
  cbn [parse_from]. change (is_dquote "010"%char) with false.
  change (is_comma "010"%char) with false. change (is_lf "010"%char) with true.
  cbv iota. now rewrite <- app_assoc, last_removelast.
Qed.

Lemma parse_lines ls : forall rows,
  ls <> [] -> Forall (fun r => r <> []) ls ->
  parse_from FieldStart "" [] rows (join lf (map csv_line ls)) = (rows ++ ls)%list.
Proof.
  induction ls as [|x ls IH]; intros rows Hne Hall; [contradiction|].
  inversion Hall as [|? ? Hx Hls]; subst.
  destruct x as [|c r]; [contradiction|].
  destruct ls as [|y ls].
  - change (join lf (map csv_line [c :: r])) with (csv_line (c :: r)).
    now rewrite parse_line_end.
  - change (join lf (map csv_line ((c :: r) :: y :: ls)))
      with (csv_line (c :: r) ++ lf ++ join lf (map csv_line (y :: ls))).
    rewrite parse_line_lf, IH by (assumption || discriminate).
    now rewrite <- app_assoc.
Qed.

Lemma parse_header_lf rest :
  parse_from FieldStart "" [] [] (join "," headers ++ lf ++ rest)
  = parse_from FieldStart "" [] [headers] rest.
Proof. reflexivity. Qed.

Lemma parse_header : parse_csv (join "," headers) = [headers].
Proof. reflexivity. Qed.

Lemma csv_row_cells o : exists c r, csv_row o = c :: r /\ length (csv_row o) = 12%nat.
Proof. eexists _, _. split; reflexivity. Qed.

Lemma parse_downloadCSV os : parse_csv (downloadCSV os) = headers :: map csv_row os.
Proof.
  unfold downloadCSV, parse_csv. destruct os as [|o os].
  - exact parse_header.
  - change (join lf (join "," headers :: map csv_line (map csv_row (o :: os))))
      with (join "," headers ++ lf ++ join lf (map csv_line (map csv_row (o :: os)))).
    rewrite parse_header_lf, parse_lines; [reflexivity | discriminate |].
    apply Forall_forall. intros r Hr. apply in_map_iff in Hr as (x & <- & _).
    discriminate.
Qed.

(** C8. Reading the exported text back gives the header record and then,
    for each live order in store order, the twelve cells of its row as they
    were before quoting, whatever commas, quotes or line feeds they hold:
    every data cell is written between quotes with its quotes doubled.  The
    text has one data record per live order and depends on nothing else;
    the second cell of the record of an order is its customer name. *)
Theorem csv_round_trip (os : list Order.t) :
  parse_csv (downloadCSV os) = headers :: map csv_row os
  /\ length (parse_csv (downloadCSV os)) = S (length os)
  /\ (forall c rest_row rows,
        parse_from FieldStart "" rest_row rows (csv_cell c)
        = (rows ++ [rest_row ++ [c]])%list)
  /\ (forall c, csv_cell c = dq ++ replaceAll dquote (dq ++ dq) c ++ dq)
  /\ (forall i o,
        nth_error os i = Some o ->
        exists r,
          nth_error (parse_csv (downloadCSV os)) (S i) = Some r
          /\ nth_error r 1 = Some (Order.customer o)).
Proof.
  rewrite parse_downloadCSV.
  split; [reflexivity|].
  split; [simpl; now rewrite length_map|].
  split.
  { intros c row rows. rewrite <- (append_nil_r (csv_cell c)), parse_cell. reflexivity. }
  split; [reflexivity|].
  intros i o H. exists (csv_row o). split; [|reflexivity].
  simpl. now rewrite nth_error_map, H.
Qed.

(** ** The shape of the exported text *)

Lemma replaceAll_doubled s : replaceAll dquote (dq ++ dq) s = doubled s.
Proof.
  induction s as [|a s IH]; [reflexivity|].
  cbn [replaceAll doubled]. rewrite IH. now destruct (Ascii.eqb a dquote).
Qed.

Lemma join_cons_lines (h : string) (ls : list string) :
  join lf (h :: ls) = h ++ concat_all (map (fun l => lf ++ l) ls).
Proof.
  revert h. induction ls as [|l ls IH]; intros h.
  - simpl. now rewrite append_nil_r.
  - change (join lf (h :: l :: ls)) with (h ++ lf ++ join lf (l :: ls)).
    rewrite IH. cbn [map concat_all fold_right]. now rewrite !append_assoc.
Qed.

(** C10. The exported text is the header line, the twelve column names
    joined by commas without any quote, followed for each order by a line
    feed and its twelve cells joined by commas, every cell between double
    quotes with its double quotes doubled, a cell without any quote being
    just put between quotes. *)
Theorem csv_quotes_every_cell (os : list Order.t) :
  downloadCSV os
  = header_line
    ++ concat_all
         (map (fun o => lf ++ join "," (map (fun c => dq ++ doubled c ++ dq) (csv_row o))) os)
  /\ header_line = join "," headers
  /\ count_char dquote header_line = 0%nat
  /\ count_char "010"%char header_line = 0%nat
  /\ (forall c, csv_cell c = dq ++ doubled c ++ dq)
  /\ (forall c, count_char dquote c = 0%nat -> csv_cell c = dq ++ c ++ dq)
  /\ (forall o, length (csv_row o) = 12%nat).
Proof.
  assert (Hcell : forall c, csv_cell c = dq ++ doubled c ++ dq).
  { intros c. unfold csv_cell. now rewrite replaceAll_doubled. }
  split.
  { unfold downloadCSV. rewrite join_cons_lines, !map_map. f_equal. f_equal.
    apply map_ext. intros o. unfold csv_line. f_equal. f_equal.
    apply map_ext. exact Hcell. }
  split; [reflexivity|].
  split; [reflexivity|].
  split; [reflexivity|].
  split; [exact Hcell|].
  split; [exact csv_cell_plain | reflexivity].
Qed.

(** ** Escaping in the receipt *)

Lemma replaceAll_app c r (a b : string) :
  replaceAll c r (a ++ b) = replaceAll c r a ++ replaceAll c r b.
Proof.
  induction a as [|x a IH]; simpl; [reflexivity|].
  destruct (Ascii.eqb x c); rewrite IH; [now rewrite append_assoc | reflexivity].
Qed.

Lemma replaceAll_one c r (a : ascii) (s : string) :
  replaceAll c r (String a s)
  = (if Ascii.eqb a c then r else String a "") ++ replaceAll c r s.
Proof. simpl. now destruct (Ascii.eqb a c). Qed.

Lemma replaceAll_single c r (a : ascii) :
  replaceAll c r (String a "") = if Ascii.eqb a c then r else String a "".
Proof. simpl. destruct (Ascii.eqb a c); [apply append_nil_r | reflexivity]. Qed.

(** The five replacements of [escapeHtml], one after the other, escape each
    character once. *)
Lemma five_passes s :
  replaceAll squote "&#039;"
    (replaceAll dquote "&quot;"
      (replaceAll ">"%char "&gt;"
        (replaceAll "<"%char "&lt;"
          (replaceAll "&"%char "&amp;" s))))
  = escaped s.
Proof.
  induction s as [|a s IH]; [reflexivity|].
  rewrite (replaceAll_one "&"%char), !replaceAll_app, IH.
  cbn [escaped]. f_equal. unfold escape_char.
  destruct (Ascii.eqb a "&"%char); [reflexivity|].
  rewrite (replaceAll_single "<"%char).
  destruct (Ascii.eqb a "<"%char); [reflexivity|].
  rewrite (replaceAll_single ">"%char).
  destruct (Ascii.eqb a ">"%char); [reflexivity|].
  rewrite (replaceAll_single dquote).
  destruct (Ascii.eqb a dquote); [reflexivity|].
  rewrite (replaceAll_single squote).
  destruct (Ascii.eqb a squote); reflexivity.
Qed.

Lemma escapeHtml_escaped s : escapeHtml s = escaped s.
Proof.
  unfold escapeHtml, truthy. destruct (String.eqb_spec s "") as [->|n]; [reflexivity|].
  apply five_passes.
Qed.

Lemma escape_char_no_markup c :
  all_chars (fun x => negb (is_markup x)) (escape_char c) = true.
Proof.
  unfold escape_char.
  destruct (Ascii.eqb_spec c "&"%char); [reflexivity|].
  destruct (Ascii.eqb_spec c "<"%char) as [|n2]; [reflexivity|].
  destruct (Ascii.eqb_spec c ">"%char) as [|n3]; [reflexivity|].
  destruct (Ascii.eqb_spec c dquote) as [|n4]; [reflexivity|].
  destruct (Ascii.eqb_spec c squote) as [|n5]; [reflexivity|].
  simpl. unfold is_markup.
  apply Ascii.eqb_neq in n2, n3, n4, n5. now rewrite n2, n3, n4, n5.
Qed.

Lemma escapeHtml_no_markup s c :
  is_markup c = true -> count_char c (escapeHtml s) = 0%nat.
Proof.
  intros Hc. rewrite escapeHtml_escaped.
  apply (all_chars_count (fun x => negb (is_markup x))); [|now rewrite Hc].
  induction s as [|a s IH]; [reflexivity|].
  cbn [escaped]. now rewrite all_chars_app, escape_char_no_markup, IH.
Qed.

Lemma markup_not_num c : is_markup c = true -> is_num_char c = false.
Proof.
  unfold is_markup. rewrite !orb_true_iff, !Ascii.eqb_eq.
  intros [[[-> | ->] | ->] | ->]; reflexivity.
Qed.

Lemma render_piece_markup c p :
  is_markup c = true ->
  count_char c (render_piece p)
  = match p with
    | Lit s | Raw s => count_char c s
    | _ => 0%nat
    end.
Proof.
  intros Hc. destruct p as [s|s|s|n|n]; cbn [render_piece]; try reflexivity.
  - now apply escapeHtml_no_markup.
  - apply (all_chars_count _ _ _ (Number_toString_chars n)). now apply markup_not_num.
  - apply (all_chars_count _ _ _ (toFixed2_chars n)).
    rewrite (markup_not_num c Hc). simpl. apply Ascii.eqb_neq. intros ->. discriminate.
Qed.

Lemma render_markup c ps :
  is_markup c = true ->
  count_char c (render ps) = (literal_count c ps + raw_count c ps)%nat.
Proof.
  intros Hc. induction ps as [|p ps IH]; [reflexivity|].
  cbn [render fold_right]. fold (render ps).
  rewrite count_char_app, IH, (render_piece_markup c p Hc).
  destruct p; cbn [literal_count raw_count]; lia.
Qed.

Lemma raw_count_filter c ps : raw_count c ps = raw_count c (filter is_raw ps).
Proof.
  induction ps as [|p ps IH]; [reflexivity|].
  destruct p; cbn [filter is_raw raw_count]; now rewrite IH.
Qed.

Lemma lines_no_raw order : filter is_raw (lines order) = [].
Proof.
  unfold lines. induction (Order.items order) as [|it its IH]; [reflexivity|].
  cbn [flat_map]. rewrite filter_app, IH. reflexivity.
Qed.

Lemma html_head_raw shop order :
  filter is_raw (html_head shop order)
  = if truthy (Shop.logo shop) then [Raw (Shop.logo shop)] else [].
Proof.
  unfold html_head. rewrite !filter_app.
  destruct (truthy (Shop.logo shop));
    destruct (Order.delivery order) as [d|];
    try destruct ((Order.type order =? "Delivery")%string && truthy (Delivery.address d))%bool;
    try destruct (truthy (Delivery.phone d));
    reflexivity.
Qed.

Lemma html_template_raw shop order :
  filter is_raw (html_template shop order)
  = if truthy (Shop.logo shop) then [Raw (Shop.logo shop)] else [].
Proof.
  unfold html_template. rewrite !filter_app, html_head_raw, lines_no_raw.
  now destruct (truthy (Shop.logo shop)).
Qed.

Lemma deliverySection_no_raw order : filter is_raw (deliverySection order) = [].
Proof.
  unfold deliverySection. destruct (Order.delivery order) as [d|]; [|reflexivity].
  destruct (Order.type order =? "Delivery")%string; [|reflexivity].
  rewrite !filter_app. now destruct (truthy (Delivery.note d)).
Qed.

Lemma item_names_escaped order it :
  In it (Order.items order) -> In (Esc (Item.name it)) (lines order).
Proof.
  intros H. unfold lines. apply in_flat_map. exists it. split; [assumption|].
  unfold line. in_template.
Qed.


(** * Further properties of the code *)

(** ** The order store *)

Lemma state_ext (a b : State) :
  orders a = orders b -> completedOrders a = completedOrders b ->
  query a = query b -> statusFilter a = statusFilter b ->
  typeFilter a = typeFilter b -> page a = page b -> a = b.
Proof. destruct a, b. simpl. intros; subst. reflexivity. Qed.

Lemma map_patch_absent id patch (l : list Order.t) :
  find (has_id id) l = None ->
  map (fun o => if (Order.id o =? id)%string then Patch.apply o patch else o) l = l.
Proof.
  induction l as [|o l IH]; simpl; [reflexivity|].
  unfold has_id at 1. destruct (Order.id o =? id)%string; [discriminate|].
  intros H. now rewrite IH.
Qed.

Lemma filter_absent id (l : list Order.t) :
  find (has_id id) l = None -> filter (fun o => negb (Order.id o =? id)%string) l = l.
Proof.
  induction l as [|o l IH]; simpl; [reflexivity|].
  unfold has_id at 1. destruct (Order.id o =? id)%string; [discriminate|].
  intros H. simpl. now rewrite IH.
Qed.

(** X1. A patch or a deletion for an id that no stored order has changes
    nothing: orders, archive, filters and page stay as they are. *)
Theorem unknown_id_is_noop (st : State) (id : string) :
  find (has_id id) (orders st) = None ->
  (forall now patch, onUpdate now id patch st = st) /\ deleteOrder id st = st.
Proof.
  intros H. split.
  - intros now patch. apply state_ext; try reflexivity.
    + rewrite onUpdate_orders. now apply map_patch_absent.
    + rewrite onUpdate_completed. now rewrite H.
  - apply state_ext; try reflexivity.
    unfold deleteOrder. cbn [orders set_orders]. now apply filter_absent.
Qed.

Lemma set_nth_same {A : Type} (l : list A) (i : nat) (v : A) :
  nth_error l i = Some v -> set_nth i v l = l.
Proof.
  revert i. induction l as [|x l IH]; intros [|i]; simpl; try discriminate.
  - now intros [= ->].
  - intros H. now rewrite IH.
Qed.

Lemma findIndex_nth {A : Type} (p : A -> bool) (l : list A) (v : A) :
  find p l = Some v ->
  exists i, findIndex p l = Some i /\ nth_error l i = Some v.
Proof.
  intros H. pose proof (findIndex_find p l) as F.
  destruct (findIndex p l) as [i|].
  - exists i. split; [reflexivity|]. destruct F as [F _]. congruence.
  - congruence.
Qed.

(** X2. Saving the same order a second time changes nothing: the state
    after two saves of an order is the state after the first, whatever the
    times of the two saves. *)
Theorem upsertOrder_idempotent (now now' : string) (order : Order.t) (st : State) :
  upsertOrder now' order (upsertOrder now order st) = upsertOrder now order st.
Proof.
  set (st1 := upsertOrder now order st).
  pose proof (upsertOrder_find now order st) as Hf. fold st1 in Hf.
  destruct (findIndex_nth _ _ _ Hf) as (i & Hi & Hn).
  apply state_ext.
  - rewrite upsertOrder_orders, Hi. now apply set_nth_same.
  - rewrite upsertOrder_completed, Hf. unfold triggers.
    now destruct (Order.status order =? "Delivered")%string.
  - unfold upsertOrder. now destruct (findIndex _ (orders st1)).
  - unfold upsertOrder. now destruct (findIndex _ (orders st1)).
  - unfold upsertOrder. now destruct (findIndex _ (orders st1)).
  - unfold upsertOrder. now destruct (findIndex _ (orders st1)).
Qed.

Lemma set_nth_ids (l : list Order.t) (i : nat) (v p : Order.t) :
  nth_error l i = Some p -> Order.id p = Order.id v ->
  map Order.id (set_nth i v l) = map Order.id l.
Proof.
  revert i. induction l as [|x l IH]; intros [|i]; simpl; try discriminate.
  - intros [= ->] E. now rewrite E.
  - intros H E. now rewrite (IH i H E).
Qed.

(** The ids of the store after a save: the same list when the id is
    stored, the id in front otherwise. *)
Lemma upsertOrder_ids now order st :
  map Order.id (orders (upsertOrder now order st))
  = match find (has_id (Order.id order)) (orders st) with
    | Some _ => map Order.id (orders st)
    | None => Order.id order :: map Order.id (orders st)
    end.
Proof.
  rewrite upsertOrder_orders.
  pose proof (findIndex_find (has_id (Order.id order)) (orders st)) as F.
  destruct (findIndex _ (orders st)) as [i|].
  - destruct F as [Hn Hs].
    destruct (find _ (orders st)) as [p|] eqn:Hf; [|congruence].
    apply (set_nth_ids _ _ _ p Hn). now apply find_has_id in Hf.
  - now rewrite F.
Qed.

Lemma onUpdate_ids now id patch st :
  Patch.id patch = None ->
  map Order.id (orders (onUpdate now id patch st)) = map Order.id (orders st).
Proof.
  intros H. rewrite onUpdate_orders, map_map. apply map_ext. intros o.
  destruct (Order.id o =? id)%string; [|reflexivity].
  rewrite patched_id, H. reflexivity.
Qed.

Lemma filter_keeps_keys_unique {A K : Type} (key : A -> K) (keep : A -> bool) :
  forall xs : list A, NoDup (map key xs) -> NoDup (map key (filter keep xs)).
Proof.
  intros xs. induction xs as [|x xs IH]; intros Hu; [exact Hu|].
  cbn [map] in Hu. apply NoDup_cons_iff in Hu as [Hx Hu].
  cbn [filter]. destruct (keep x); [|now apply IH].
  cbn [map]. constructor; [|now apply IH].
  intros Hin. apply Hx. apply in_map_iff in Hin as (y & E & Hy).
  apply in_map_iff. exists y. split; [assumption|]. now apply filter_In in Hy.
Qed.

Lemma find_none_not_in id (l : list Order.t) :
  find (has_id id) l = None -> ~ In id (map Order.id l).
Proof.
  intros H Hin. apply in_map_iff in Hin as (o & E & Ho).
  apply (find_none _ _ H) in Ho. unfold has_id in Ho.
  rewrite E, String.eqb_refl in Ho. discriminate.
Qed.

Lemma step_ids_NoDup st e :
  keeps_id e = true ->
  NoDup (map Order.id (orders st)) -> NoDup (map Order.id (orders (step st e))).
Proof.
  intros Hk H. destruct e; cbn [step]; try assumption.
  - rewrite upsertOrder_ids.
    destruct (find _ (orders st)) eqn:Hf; [assumption|].
    constructor; [now apply find_none_not_in | assumption].
  - rewrite deleteOrder_orders. now apply filter_keeps_keys_unique.
  - simpl in Hk. destruct (Patch.id patch) eqn:Hp; [discriminate|].
    now rewrite onUpdate_ids.
  - unfold prevPage. now destruct (_ <=? _).
  - unfold nextPage. now destruct (_ >=? _).
Qed.

(** X3. Order ids stay unique.  A save puts a new id in front of the
    list and replaces a stored id in place; from a store without two orders
    of one id, no sequence of saves, deletions, patches that carry no id
    (such as the status patch) and other events leads to a store with two
    orders of one id. *)
Theorem order_ids_stay_unique (st : State) (es : list Event) :
  NoDup (map Order.id (orders st)) ->
  forallb keeps_id es = true ->
  NoDup (map Order.id (orders (run st es)))
  /\ (forall now order,
        map Order.id (orders (upsertOrder now order st))
        = if existsb (has_id (Order.id order)) (orders st)
          then map Order.id (orders st)
          else Order.id order :: map Order.id (orders st)).
Proof.
  intros H Hk. split.
  - revert st H Hk. induction es as [|e es IH]; intros st H Hk; [assumption|].
    simpl in Hk. apply andb_true_iff in Hk as [He Hk].
    change (NoDup (map Order.id (orders (run (step st e) es)))).
    apply IH; [now apply step_ids_NoDup | assumption].
  - intros now order. rewrite upsertOrder_ids.
    destruct (find _ (orders st)) as [p|] eqn:Hf.
    + apply find_some in Hf as [Hin Hp].
      replace (existsb _ (orders st)) with true; [reflexivity|].
      symmetry. apply existsb_exists. now exists p.
    + replace (existsb _ (orders st)) with false; [reflexivity|].
      symmetry. apply not_true_iff_false. intros Hex.
      apply existsb_exists in Hex as (p & Hin & Hp).
      now rewrite (find_none _ _ Hf p Hin) in Hp.
Qed.

(** ** The archive: removal and archival again *)

Lemma removeCompleted_absent id cs :
  archived id cs = false -> removeCompleted id cs = cs.
Proof.
  unfold archived, some, removeCompleted.
  induction cs as [|c cs IH]; simpl; [reflexivity|].
  intros H. apply orb_false_iff in H as [-> H]. simpl. now rewrite IH.
Qed.

Lemma removeCompleted_not_archived id cs : archived id (removeCompleted id cs) = false.
Proof.
  apply archived_false_In. intros H.
  apply in_map_iff in H as (c & E & Hc).
  apply removeCompleted_In in Hc as [_ Hn]. contradiction.
Qed.

(** X4. Archiving an order that has no record and then deleting its
    record gives back the archive as it was; and after the record of an id
    is deleted, asking to archive an order of that id puts a new record in
    front, stamped with the new time. *)
Theorem archive_add_remove (now : string) (order : Order.t) (cs : list Completed.t) :
  (archived (Order.id order) cs = false ->
   removeCompleted (Order.id order) (addCompleted now order cs) = cs)
  /\ addCompleted now order (removeCompleted (Order.id order) cs)
     = Completed.mk order now :: removeCompleted (Order.id order) cs.
Proof.
  split.
  - intros H. rewrite addCompleted_fresh by assumption.
    unfold removeCompleted. simpl. unfold Completed.id at 1. simpl.
    rewrite String.eqb_refl. simpl. now apply removeCompleted_absent.
  - apply addCompleted_fresh, removeCompleted_not_archived.
Qed.

(** X5. When the archive record of a delivered order has been deleted,
    saving the order again as Delivered does not archive it; taking it out
    of Delivered and back, with the drop-down or the dialog, archives it
    again with the time of the new delivery. *)
Theorem archived_again_after_removal (st : State) (o : Order.t)
    (n0 n1 n2 : string) (e0 e1 e2 : Event) :
  find (has_id (Order.id o)) (orders st) = Some o ->
  Order.status o = "Delivered" ->
  sets_status n0 o "Delivered" e0 ->
  sets_status n1 o "Pending" e1 ->
  sets_status n2 o "Delivered" e2 ->
  completedOrders (run st [ERemoveCompleted (Order.id o); e0])
  = removeCompleted (Order.id o) (completedOrders st)
  /\ completedOrders (run st [ERemoveCompleted (Order.id o); e1; e2])
     = Completed.mk (Patch.apply o (Patch.of_status "Delivered")) n2
       :: removeCompleted (Order.id o) (completedOrders st).
Proof.
  intros Hf Hs H0 H1 H2. unfold run. cbn [fold_left].
  set (st' := step st (ERemoveCompleted (Order.id o))).
  assert (Hf' : find (has_id (Order.id o)) (orders st') = Some o) by exact Hf.
  assert (Hc' : completedOrders st' = removeCompleted (Order.id o) (completedOrders st))
    by reflexivity.
  clearbody st'. split.
  - destruct (sets_status_step st' n0 o "Delivered" e0 Hf' H0) as [_ C0].
    rewrite C0, Hs, Hc'. reflexivity.
  - destruct (sets_status_step st' n1 o "Pending" e1 Hf' H1) as [F1 C1].
    set (st1 := step st' e1) in *. clearbody st1.
    destruct (sets_status_step st1 n2 (Patch.apply o (Patch.of_status "Pending"))
                "Delivered" e2 F1 H2) as [_ C2].
    rewrite of_status_status, of_status_twice in C2.
    change (negb ("Pending" =? "Delivered")%string && ("Delivered" =? "Delivered")%string)%bool
      with true in C2.
    rewrite Hs in C1.
    change (negb ("Delivered" =? "Delivered")%string && ("Pending" =? "Delivered")%string)%bool
      with false in C1.
    cbv iota in C1, C2. rewrite C2, C1, Hc'.
    apply addCompleted_fresh. apply removeCompleted_not_archived.
Qed.


(** ** Arrays by index *)

Lemma update_at_Forall {A : Type} (P : A -> Prop) (f : A -> A) (l : list A) (idx : nat) :
  (forall x, P x -> P (f x)) -> Forall P l -> Forall P (update_at idx f l).
Proof.
  intros Hf H. revert idx. induction H as [|x l Hx Hl IH]; intros [|i]; simpl;
    constructor; auto.
Qed.

Lemma update_at_length {A : Type} (f : A -> A) (l : list A) (idx : nat) :
  length (update_at idx f l) = length l.
Proof.
  revert idx. induction l as [|x l IH]; intros [|i]; simpl; auto.
Qed.

Lemma update_at_outside {A : Type} (f : A -> A) (l : list A) (idx : nat) :
  nth_error l idx = None -> update_at idx f l = l.
Proof.
  revert idx. induction l as [|x l IH]; intros [|i]; simpl; try reflexivity.
  - discriminate.
  - intros H. now rewrite IH.
Qed.

Lemma update_at_map {A B : Type} (g : A -> B) (f : A -> A) (l : list A) (idx : nat) :
  (forall x, g (f x) = g x) -> map g (update_at idx f l) = map g l.
Proof.
  intros H. revert idx. induction l as [|x l IH]; intros [|i]; simpl; try reflexivity.
  - now rewrite H.
  - now rewrite IH.
Qed.

Lemma remove_at_Forall {A : Type} (P : A -> Prop) (l : list A) (idx : nat) :
  Forall P l -> Forall P (remove_at idx l).
Proof.
  intros H. revert idx. induction H as [|x l Hx Hl IH]; intros [|i]; simpl; auto.
Qed.

(** ** The dialog of a new order *)

Lemma line_of_ok menu m : In m menu -> lines_ok menu [line_of m].
Proof.
  intros H. constructor; [|constructor]. split; [simpl; lia|].
  exists m. repeat split. assumption.
Qed.

Lemma form_step_lines menu f e :
  menu <> [] -> form_event_ok menu e -> lines_ok menu (CreateForm.items f) ->
  exists f', form_step menu f e = Some f' /\ lines_ok menu (CreateForm.items f').
Proof.
  intros Hm He H. destruct menu as [|m0 menu]; [contradiction|].
  destruct e; cbn [form_step]; try (eexists; split; [reflexivity | exact H]).
  - (* addItem *)
    eexists. split; [reflexivity|]. cbn [with_items CreateForm.items].
    apply Forall_app. split; [exact H|]. apply line_of_ok. now left.
  - (* the selector *)
    cbn [form_event_ok] in He. unfold selectItem.
    destruct (find (fun m => (MenuItem.id m =? value)%string) (m0 :: menu)) as [m|] eqn:Hf.
    + eexists. split; [reflexivity|]. cbn [with_items CreateForm.items].
      apply find_some in Hf as [Hin _].
      unfold updateItem. apply update_at_Forall; [|exact H].
      intros it [Hq _]. split; [exact Hq|]. exists m. repeat split. assumption.
    + exfalso. apply in_map_iff in He as (m & E & Hin).
      apply (find_none _ _ Hf) in Hin. rewrite E, String.eqb_refl in Hin. discriminate.
  - (* a quantity *)
    eexists. split; [reflexivity|]. cbn [with_items CreateForm.items].
    unfold setQty, updateItem. apply update_at_Forall; [|exact H].
    intros it [_ Hm']. split; [simpl; lia | exact Hm'].
  - (* Remove *)
    eexists. split; [reflexivity|]. cbn [with_items CreateForm.items].
    unfold removeItem. now apply remove_at_Forall.
  - (* the effect *)
    unfold refill. destruct (CreateForm.items f) eqn:E.
    + eexists. split; [reflexivity|]. cbn [with_items CreateForm.items].
      apply line_of_ok. now left.
    + eexists. split; [reflexivity|]. cbn [with_items CreateForm.items]. exact H.
Qed.

Lemma form_run_lines menu es : forall f,
  menu <> [] -> Forall (form_event_ok menu) es -> lines_ok menu (CreateForm.items f) ->
  exists f', form_run menu f es = Some f' /\ lines_ok menu (CreateForm.items f').
Proof.
  induction es as [|e es IH]; intros f Hm He H.
  - exists f. split; [reflexivity | assumption].
  - inversion He as [|? ? He1 He2]; subst.
    destruct (form_step_lines menu f e Hm He1 H) as (f1 & E1 & H1).
    cbn [form_run]. rewrite E1. now apply IH.
Qed.

(** X6. In the dialog of a new order, over a menu that is not empty,
    every sequence of changes (customer, type, add a line, choose an item of
    the menu for a line, set a quantity, remove a line, delivery fields)
    goes through, and every line of the dialog is then a copy of the id,
    name and price of an entry of the menu with a quantity of at least
    one. *)
Theorem new_order_lines (menu : list MenuItem.t) (f0 : CreateForm.t) (es : list FormEvent) :
  form_initial menu = Some f0 ->
  Forall (form_event_ok menu) es ->
  exists f, form_run menu f0 es = Some f /\ lines_ok menu (CreateForm.items f).
Proof.
  intros H0 He. destruct menu as [|m0 menu]; [discriminate|].
  injection H0 as <-. apply form_run_lines; [discriminate | assumption |].
  apply line_of_ok. now left.
Qed.

Lemma or_else_nonempty (a b : string) : b <> "" -> or_else a b <> "".
Proof.
  intros Hb. unfold or_else, truthy.
  destruct (String.eqb_spec a ""); simpl; assumption.
Qed.

Lemma submit_customer id createdAt f : Order.customer (submit id createdAt f) <> "".
Proof.
  unfold submit. cbn [Order.customer]. apply or_else_nonempty.
  destruct (CreateForm.type f =? "Delivery")%string; [|discriminate].
  apply or_else_nonempty. discriminate.
Qed.

Lemma submit_delivery id createdAt f :
  Order.delivery (submit id createdAt f) <> None
  <-> Order.type (submit id createdAt f) = "Delivery".
Proof.
  unfold submit. cbn [Order.delivery Order.type].
  destruct (String.eqb_spec (CreateForm.type f) "Delivery") as [E|n].
  - split; [intros _; exact E | discriminate].
  - split; [intros H; now elim H | intros E; contradiction].
Qed.

(** X7. The order that Create makes has a customer name that is not
    empty (the typed name, else the recipient of a delivery, else Guest),
    the status Pending, and delivery details exactly when its type is
    Delivery.  Sending it to the store never changes the archive; with an
    id that no stored order has it becomes the first order and the others
    stay; with the id of a stored order it takes the place of that order. *)
Theorem created_order (id createdAt : string) (f : CreateForm.t) :
  let o := submit id createdAt f in
  Order.customer o <> ""
  /\ Order.status o = "Pending"
  /\ (Order.delivery o <> None <-> Order.type o = "Delivery")
  /\ Order.items o = CreateForm.items f
  /\ (forall now st, completedOrders (upsertOrder now o st) = completedOrders st)
  /\ (forall now st,
        find (has_id id) (orders st) = None ->
        orders (upsertOrder now o st) = o :: orders st)
  /\ (forall now st p,
        find (has_id id) (orders st) = Some p ->
        map Order.id (orders (upsertOrder now o st)) = map Order.id (orders st)
        /\ find (has_id id) (orders (upsertOrder now o st)) = Some o).
Proof.
  cbn zeta.
  split; [apply submit_customer|].
  split; [reflexivity|].
  split; [apply submit_delivery|].
  split; [reflexivity|].
  split.
  { intros now st. rewrite upsertOrder_completed. unfold triggers.
    change (Order.status (submit id createdAt f)) with "Pending".
    destruct (find _ (orders st)) as [b|]; [|reflexivity].
    now rewrite andb_false_r. }
  split.
  { intros now st H. rewrite upsertOrder_orders.
    pose proof (findIndex_find (has_id id) (orders st)) as F.
    change (Order.id (submit id createdAt f)) with id.
    destruct (findIndex (has_id id) (orders st)); [|reflexivity].
    destruct F as [_ F]. contradiction. }
  intros now st p H. split.
  - rewrite upsertOrder_ids. change (Order.id (submit id createdAt f)) with id.
    now rewrite H.
  - apply (upsertOrder_find now (submit id createdAt f) st).
Qed.


(** ** The dialog of an order *)

Lemma sum_update_qty (its : list Item.t) : forall idx it q,
  nth_error its idx = Some it ->
  sum_of_lines (update_at idx (set_qty q) its)
  = sum_of_lines its + (q - Item.qty it) * Item.price it.
Proof.
  induction its as [|x its IH]; intros [|i] it q; simpl; try discriminate.
  - intros [= ->]. ring.
  - intros H. rewrite (IH i it q H). ring.
Qed.

Lemma update_at_nth {A : Type} (f : A -> A) (l : list A) : forall idx j,
  nth_error (update_at idx f l) j
  = if Nat.eqb j idx then option_map f (nth_error l j) else nth_error l j.
Proof.
  induction l as [|x l IH]; intros [|i] [|j]; simpl; try reflexivity.
  - now destruct (Nat.eqb j i).
  - apply IH.
Qed.

Lemma order_eta (d : Order.t) :
  Order.mk (Order.id d) (Order.customer d) (Order.type d) (Order.items d)
    (Order.status d) (Order.assigned d) (Order.createdAt d) (Order.delivery d)
    (Order.paymentType d) (Order.payment d) = d.
Proof. now destruct d. Qed.


Lemma draft_step_identity d e : identity_of (draft_step d e) = identity_of d.
Proof.
  unfold identity_of.
  destruct e; cbn [draft_step]; try reflexivity;
    try (destruct (Order.type d =? "Delivery")%string; reflexivity).
  f_equal. cbn. apply update_at_map. reflexivity.
Qed.

Lemma draft_run_identity es : forall d, identity_of (draft_run d es) = identity_of d.
Proof.
  induction es as [|e es IH]; intros d; [reflexivity|].
  change (identity_of (draft_run (draft_step d e) es) = identity_of d).
  now rewrite IH, draft_step_identity.
Qed.

(** X9. Whatever is changed in the dialog of an order, the draft keeps
    the id, the customer, the type, the creation time and the ids, names
    and prices of the lines.  So Save replaces the stored order of that id
    in place, the ids of the store staying as they are; and when the order
    has been deleted while the dialog was open, Save puts the draft back as
    the first order. *)
Theorem dialog_save (o : Order.t) (es : list DraftEvent) (now : string) (st : State) :
  let d := draft_run o es in
  identity_of d = identity_of o
  /\ find (has_id (Order.id o)) (orders (upsertOrder now d st)) = Some d
  /\ (find (has_id (Order.id o)) (orders st) <> None ->
      map Order.id (orders (upsertOrder now d st)) = map Order.id (orders st))
  /\ (find (has_id (Order.id o)) (orders st) = None ->
      orders (upsertOrder now d st) = d :: orders st).
Proof.
  cbn zeta. pose proof (draft_run_identity es o) as Hi.
  assert (Hid : Order.id (draft_run o es) = Order.id o).
  { unfold identity_of in Hi. now injection Hi. }
  split; [exact Hi|]. split; [|split].
  - rewrite <- Hid. apply upsertOrder_find.
  - intros H. rewrite upsertOrder_ids, Hid.
    destruct (find _ (orders st)); [reflexivity | contradiction].
  - intros H. rewrite upsertOrder_orders, Hid.
    pose proof (findIndex_find (has_id (Order.id o)) (orders st)) as F.
    destruct (findIndex _ (orders st)); [|reflexivity].
    destruct F as [_ F]. contradiction.
Qed.

(** ** The data model along the use of the dashboard *)

Lemma of_status_ok o s : In s statuses -> order_ok o -> order_ok (Patch.apply o (Patch.of_status s)).
Proof. intros Hs (H1 & H2 & H3 & H4). repeat split; try assumption; apply H1. Qed.

Lemma draft_step_ok d e :
  match e with DStatus s => In s statuses | _ => True end ->
  order_ok d -> order_ok (draft_step d e).
Proof.
  intros He (H1 & H2 & H3 & H4).
  destruct e; cbn [draft_step].
  - split; [exact H1|]. split; [exact H2|]. split; [|exact H4].
    cbn. apply update_at_Forall; [|exact H3]. intros it _. simpl. lia.
  - now apply of_status_ok.
  - repeat split; try assumption; apply H1.
  - destruct (String.eqb_spec (Order.type d) "Delivery") as [E|n];
      [|repeat split; try assumption; apply H1].
    split; [|repeat split; assumption]. cbn. split; [intros _; exact E | discriminate].
  - destruct (String.eqb_spec (Order.type d) "Delivery") as [E|n];
      [|repeat split; try assumption; apply H1].
    split; [|repeat split; assumption]. cbn. split; [intros _; exact E | discriminate].
  - destruct (String.eqb_spec (Order.type d) "Delivery") as [E|n];
      [|repeat split; try assumption; apply H1].
    split; [|repeat split; assumption]. cbn. split; [intros _; exact E | discriminate].
  - destruct (String.eqb_spec (Order.type d) "Delivery") as [E|n];
      [|repeat split; try assumption; apply H1].
    split; [|repeat split; assumption]. cbn. split; [intros _; exact E | discriminate].
Qed.

Lemma draft_run_ok es : forall d,
  Forall (fun e => match e with DStatus s => In s statuses | _ => True end) es ->
  order_ok d -> order_ok (draft_run d es).
Proof.
  induction es as [|e es IH]; intros d He H; [assumption|].
  inversion He as [|? ? He1 He2]; subst.
  change (order_ok (draft_run (draft_step d e) es)).
  apply IH; [assumption | now apply draft_step_ok].
Qed.

Lemma form_step_qty menu f e f' :
  form_step menu f e = Some f' ->
  Forall (fun it => 1 <= Item.qty it) (CreateForm.items f) ->
  Forall (fun it => 1 <= Item.qty it) (CreateForm.items f').
Proof.
  intros E H. destruct e; cbn [form_step] in E; try (injection E as <-; exact H).
  - unfold addItem in E. destruct menu as [|m menu]; [discriminate|].
    injection E as <-. cbn. apply Forall_app. split; [exact H|].
    constructor; [simpl; lia | constructor].
  - unfold selectItem in E. destruct (find _ menu); [|discriminate].
    injection E as <-. cbn. unfold updateItem.
    apply update_at_Forall; [|exact H]. intros it Hq. exact Hq.
  - injection E as <-. cbn. unfold setQty, updateItem.
    apply update_at_Forall; [|exact H]. intros it _. simpl. lia.
  - injection E as <-. cbn. unfold removeItem. now apply remove_at_Forall.
  - unfold refill in E. destruct (CreateForm.items f) eqn:Ei.
    + destruct menu as [|m menu]; [discriminate|]. injection E as <-. cbn.
      constructor; [simpl; lia | constructor].
    + injection E as <-. cbn. exact H.
Qed.

Lemma form_run_qty menu es : forall f f',
  form_run menu f es = Some f' ->
  Forall (fun it => 1 <= Item.qty it) (CreateForm.items f) ->
  Forall (fun it => 1 <= Item.qty it) (CreateForm.items f').
Proof.
  induction es as [|e es IH]; intros f f' E H.
  - injection E as <-. exact H.
  - cbn [form_run] in E. destruct (form_step menu f e) as [f1|] eqn:E1; [|discriminate].
    apply (IH f1 f' E). now apply (form_step_qty menu f e).
Qed.

Lemma submit_ok menu f0 es f id createdAt :
  form_initial menu = Some f0 -> form_run menu f0 es = Some f ->
  order_ok (submit id createdAt f).
Proof.
  intros H0 Hr. split; [apply submit_delivery|]. split; [apply submit_customer|].
  split; [|now left].
  change (Order.items (submit id createdAt f)) with (CreateForm.items f).
  apply (form_run_qty menu es f0 f Hr).
  destruct menu as [|m menu]; [discriminate|]. injection H0 as <-.
  constructor; [simpl; lia | constructor].
Qed.

Lemma set_nth_Forall {A : Type} (P : A -> Prop) (l : list A) (i : nat) (v : A) :
  P v -> Forall P l -> Forall P (set_nth i v l).
Proof.
  intros Hv H. revert i. induction H as [|x l Hx Hl IH]; intros [|i]; simpl;
    constructor; auto.
Qed.

Lemma Forall_filter {A : Type} (P : A -> Prop) (p : A -> bool) (l : list A) :
  Forall P l -> Forall P (filter p l).
Proof.
  intros H. induction H as [|x l Hx Hl IH]; simpl; [constructor|].
  destruct (p x); [constructor|]; assumption.
Qed.

Lemma addCompleted_ok now o cs :
  order_ok o -> Forall (fun c => order_ok (Completed.order c)) cs ->
  Forall (fun c => order_ok (Completed.order c)) (addCompleted now o cs).
Proof.
  intros Ho H. unfold addCompleted. destruct (some _ cs); [assumption|].
  now constructor.
Qed.

Lemma upsertOrder_ok now o st : order_ok o -> state_ok st -> state_ok (upsertOrder now o st).
Proof.
  intros Ho [H1 H2]. split.
  - rewrite upsertOrder_orders. destruct (findIndex _ (orders st)).
    + now apply set_nth_Forall.
    + now constructor.
  - rewrite upsertOrder_completed. destruct (triggers _ _); [|assumption].
    now apply addCompleted_ok.
Qed.

Lemma onUpdate_status_ok now id s st :
  In s statuses -> state_ok st -> state_ok (onUpdate now id (Patch.of_status s) st).
Proof.
  intros Hs [H1 H2]. split.
  - rewrite onUpdate_orders. rewrite Forall_forall in *. intros o Ho.
    apply in_map_iff in Ho as (b & <- & Hb).
    destruct (Order.id b =? id)%string; [apply of_status_ok|]; auto.
  - rewrite onUpdate_completed. destruct (find _ (orders st)) as [b|] eqn:Hf; [|assumption].
    cbn zeta. destruct (_ && _)%bool; [|assumption].
    apply addCompleted_ok; [|assumption]. apply of_status_ok; [assumption|].
    apply find_some in Hf as [Hin _]. rewrite Forall_forall in H1. now apply H1.
Qed.

Lemma ui_step_ok st e : ui_event st e -> state_ok st -> state_ok (step st e).
Proof.
  intros He Hst. destruct He; cbn [step].
  - apply upsertOrder_ok; [|assumption].
    match goal with
    | H0 : form_initial _ = Some _, Hr : form_run _ _ _ = Some _ |- _ =>
        exact (submit_ok _ _ _ _ _ _ H0 Hr)
    end.
  - apply upsertOrder_ok; [|assumption]. apply draft_run_ok; [assumption|].
    destruct Hst as [H1 _]. rewrite Forall_forall in H1. now apply H1.
  - now apply onUpdate_status_ok.
  - destruct Hst as [H1 H2]. split; [|assumption].
    rewrite deleteOrder_orders. now apply Forall_filter.
  - destruct Hst as [H1 H2]. split; [assumption|]. now apply Forall_filter.
  - destruct Hst as [H1 H2]. split; [assumption|].
    cbn. unfold clearCompleted. destruct (negb c); [assumption | constructor].
  - destruct Hst as [H1 H2]. split; [assumption|]. now apply Forall_filter.
  - assumption.
  - assumption.
  - assumption.
  - unfold prevPage. now destruct (_ <=? _).
  - unfold nextPage. now destruct (_ >=? _).
Qed.



(** ** Pages *)

Lemma firstn_add {A : Type} (a b : nat) (l : list A) :
  firstn (a + b) l = (firstn a l ++ firstn b (skipn a l))%list.
Proof.
  revert l. induction a as [|a IH]; intros l; [reflexivity|].
  destruct l as [|x l]; [destruct b; reflexivity | simpl; now rewrite IH].
Qed.

Lemma chunks_concat {A : Type} (n m : nat) (l : list A) :
  flat_map (fun i => firstn n (skipn (i * n) l)) (seq 0 m) = firstn (m * n) l.
Proof.
  induction m as [|m IH]; [reflexivity|].
  rewrite seq_S, flat_map_app, IH. cbn [flat_map Nat.add]. rewrite app_nil_r.
  replace (S m * n)%nat with (m * n + n)%nat by lia.
  now rewrite firstn_add.
Qed.

(** A page is the chunk of [perPage] rows that starts after the pages
    before it. *)
Lemma slice_page {A : Type} (l : list A) (i : nat) :
  slice ((Z.of_nat (S i) - 1) * perPage) (Z.of_nat (S i) * perPage) l
  = firstn 6 (skipn (i * 6) l).
Proof.
  unfold slice, rel_index, perPage.
  set (len := Z.of_nat (length l)).
  assert (Hs : (Z.of_nat (S i) - 1) * 6 = Z.of_nat (i * 6)) by lia.
  rewrite Hs.
  destruct (Z.ltb_spec (Z.of_nat (i * 6)) 0) as [Hneg|_]; [lia|].
  destruct (Z.ltb_spec (Z.of_nat (S i) * 6) 0) as [Hneg|_]; [lia|].
  destruct (Z.le_gt_cases len (Z.of_nat (i * 6))) as [Hout|Hin].
  - rewrite !Z.min_r by lia. rewrite Z.sub_diag.
    rewrite (skipn_all2 l (n := i * 6)) by (unfold len in Hout; lia).
    reflexivity.
  - rewrite (Z.min_l (Z.of_nat (i * 6)) len) by lia. rewrite Nat2Z.id.
    assert (Hl : length (skipn (i * 6) l) = (length l - i * 6)%nat) by apply length_skipn.
    destruct (Z.le_gt_cases (Z.of_nat (S i) * 6) len) as [Hfull|Hpart].
    + rewrite Z.min_l by lia.
      replace (Z.to_nat (Z.of_nat (S i) * 6 - Z.of_nat (i * 6))) with 6%nat by lia.
      reflexivity.
    + rewrite Z.min_r by lia.
      replace (Z.to_nat (len - Z.of_nat (i * 6))) with (length (skipn (i * 6) l))
        by (unfold len; lia).
      rewrite firstn_all. symmetry. apply firstn_all2. unfold len in Hpart. lia.
Qed.

Lemma page_at_chunk st i :
  page_at st (Z.of_nat (S i)) = firstn 6 (skipn (i * 6) (visible st)).
Proof. unfold page_at, pageItems. apply slice_page. Qed.

(** X11. The pages 1 to [totalPages] cut the visible orders into
    consecutive pieces: put one after the other they give the visible list.
    A page has at most six rows; a page up to [totalPages] has a row as
    soon as an order is visible; a page after [totalPages] has none. *)
Theorem pages_partition (st : State) :
  flat_map (fun i => page_at st (Z.of_nat (S i))) (seq 0 (Z.to_nat (totalPages st)))
  = visible st
  /\ (forall i, (length (page_at st (Z.of_nat (S i))) <= 6)%nat)
  /\ (forall i,
        visible st <> [] -> Z.of_nat (S i) <= totalPages st ->
        page_at st (Z.of_nat (S i)) <> [])
  /\ (forall i, totalPages st < Z.of_nat (S i) -> page_at st (Z.of_nat (S i)) = []).
Proof.
  pose proof (totalPages_spec st) as (H1 & H2 & H3). cbn zeta in *. unfold perPage in *.
  split; [|split; [|split]].
  - rewrite (flat_map_ext _ (fun i => firstn 6 (skipn (i * 6) (visible st))))
      by (intros i; apply page_at_chunk).
    rewrite chunks_concat. apply firstn_all2. lia.
  - intros i. rewrite page_at_chunk. apply firstn_le_length.
  - intros i Hne Hi. rewrite page_at_chunk.
    assert (Hlt : (i * 6 < length (visible st))%nat).
    { destruct (Nat.lt_ge_cases (i * 6) (length (visible st))) as [|Hge]; [assumption|].
      exfalso. destruct i as [|i].
      - destruct (visible st); [now apply Hne | simpl in Hge; lia].
      - specialize (H3 (Z.of_nat (S i)) ltac:(lia) ltac:(lia)). lia. }
    intros E. apply (f_equal (@length _)) in E.
    rewrite length_firstn, length_skipn in E. cbn [length] in E. lia.
  - intros i Hi. rewrite page_at_chunk.
    rewrite skipn_all2 by lia. apply firstn_nil.
Qed.

Lemma prevPage_page st : 1 <= page st -> page (prevPage st) = Z.max 1 (page st - 1).
Proof.
  intros H. unfold prevPage. destruct (Z.leb_spec (page st) 1); [lia | reflexivity].
Qed.

Lemma nextPage_page st :
  page (nextPage st) = if page st >=? totalPages st then page st
                       else Z.min (totalPages st) (page st + 1).
Proof. unfold nextPage. now destruct (page st >=? totalPages st). Qed.

Lemma nav_totalPages st :
  totalPages (prevPage st) = totalPages st /\ totalPages (nextPage st) = totalPages st.
Proof.
  unfold prevPage, nextPage.
  destruct (page st <=? 1), (page st >=? totalPages st); split; reflexivity.
Qed.

Lemma iter_prev n : forall st,
  1 <= page st ->
  page (Nat.iter n prevPage st) = Z.max 1 (page st - Z.of_nat n)
  /\ totalPages (Nat.iter n prevPage st) = totalPages st.
Proof.
  induction n as [|n IH]; intros st H.
  - simpl. split; [lia | reflexivity].
  - rewrite !Nat.iter_succ. destruct (IH st H) as [Hp Ht].
    rewrite prevPage_page by lia. rewrite (proj1 (nav_totalPages _)), Hp, Ht.
    split; [lia | reflexivity].
Qed.

Lemma iter_next n : forall st,
  page st <= totalPages st ->
  page (Nat.iter n nextPage st) = Z.min (totalPages st) (page st + Z.of_nat n)
  /\ totalPages (Nat.iter n nextPage st) = totalPages st.
Proof.
  induction n as [|n IH]; intros st H.
  - simpl. split; [lia | reflexivity].
  - rewrite !Nat.iter_succ. destruct (IH st H) as [Hp Ht].
    rewrite nextPage_page, (proj2 (nav_totalPages _)), Hp, Ht.
    split; [|reflexivity].
    destruct (Z.geb_spec (Z.min (totalPages st) (page st + Z.of_nat n)) (totalPages st)); lia.
Qed.

(** X12. Pressing Prev [n] times from a page of at least 1 leads to
    page [max 1 (page - n)], also from a page beyond the last one; pressing
    Next [n] times from a page up to the last leads to page
    [min totalPages (page + n)]; and Next followed by Prev, from a page
    before the last, leads back to the same state. *)
Theorem pager_steps (st : State) (n : nat) :
  (1 <= page st -> page (Nat.iter n prevPage st) = Z.max 1 (page st - Z.of_nat n))
  /\ (page st <= totalPages st ->
      page (Nat.iter n nextPage st) = Z.min (totalPages st) (page st + Z.of_nat n))
  /\ (1 <= page st < totalPages st -> prevPage (nextPage st) = st).
Proof.
  split; [|split].
  - intros H. now apply iter_prev.
  - intros H. now apply iter_next.
  - intros H. unfold nextPage.
    destruct (Z.geb_spec (page st) (totalPages st)); [lia|].
    unfold prevPage. cbn [page setPage set_view].
    destruct (Z.leb_spec (Z.min (totalPages st) (page st + 1)) 1); [lia|].
    apply state_ext; try reflexivity. cbn [page setPage set_view]. lia.
Qed.

(** ** The search box *)

Lemma trimStart_blank s : blank s = true -> trimStart s = "".
Proof.
  unfold blank. induction s as [|c s IH]; simpl; [reflexivity|].
  intros H. apply andb_true_iff in H as [-> H]. now apply IH.
Qed.

Lemma query_ok_empty o : query_ok "" o = true.
Proof. reflexivity. Qed.

Lemma filter_true {A : Type} (p : A -> bool) (l : list A) :
  (forall x, p x = true) -> filter p l = l.
Proof.
  intros H. induction l as [|x l IH]; simpl; [reflexivity|]. now rewrite H, IH.
Qed.

(** X13. A query of white space only is no query: it shows what the
    empty query shows, for every choice of the two filters; and with both
    filters on All it shows every order of the store, each once. *)
Theorem blank_query_shows_all (os : list Order.t) (qry sf tf : string) :
  blank qry = true ->
  filtered os qry sf tf = filtered os "" sf tf
  /\ Permutation (filtered os qry "All" "All") os
  /\ length (filtered os qry "All" "All") = length os.
Proof.
  intros H. assert (E : trim qry = "").
  { unfold trim. now rewrite trimStart_blank. }
  assert (P : Permutation (filtered os qry "All" "All") os).
  { unfold filtered. cbn zeta. rewrite E. cbn [toLowerCase].
    rewrite (filter_true (query_ok "")), (filter_true (type_ok "All")),
      (filter_true (status_ok "All")) by reflexivity.
    apply Array_sort_perm. }
  split; [|split].
  - unfold filtered. cbn zeta. now rewrite E.
  - exact P.
  - now apply Permutation_length.
Qed.


(** ** The completed list as a partition of the archive *)

Lemma flat_map_ext_in {A B : Type} (f g : A -> list B) (l : list A) :
  (forall x, In x l -> f x = g x) -> flat_map f l = flat_map g l.
Proof.
  induction l as [|x l IH]; intros H; simpl; [reflexivity|].
  rewrite (H x (or_introl eq_refl)), IH; [reflexivity|].
  intros y Hy. apply H. now right.
Qed.

Lemma days_skip c cs (days : list string) :
  ~ In (day_of c) days ->
  flat_map (fun d => filter (on_day d) (c :: cs)) days
  = flat_map (fun d => filter (on_day d) cs) days.
Proof.
  intros Hn. apply flat_map_ext_in. intros d Hd. cbn [filter]. unfold on_day at 1.
  destruct (String.eqb_spec (day_of c) d) as [E|n]; [|reflexivity].
  subst d. contradiction.
Qed.

Lemma days_insert c cs (days : list string) :
  NoDup days -> In (day_of c) days ->
  Permutation (flat_map (fun d => filter (on_day d) (c :: cs)) days)
              (c :: flat_map (fun d => filter (on_day d) cs) days).
Proof.
  induction days as [|d days IH]; intros Hd Hc; [contradiction|].
  inversion Hd as [|? ? Hn Hd']; subst. cbn [flat_map].
  change (filter (on_day d) (c :: cs))
    with (if on_day d c then c :: filter (on_day d) cs else filter (on_day d) cs).
  destruct (on_day d c) eqn:E; unfold on_day in E.
  - apply String.eqb_eq in E. subst d. rewrite (days_skip c cs days Hn). reflexivity.
  - apply String.eqb_neq in E. destruct Hc as [E'|Hc]; [now elim E|].
    rewrite (IH Hd' Hc). apply Permutation_sym, Permutation_middle.
Qed.

Lemma days_partition (days : list string) (cs : list Completed.t) :
  NoDup days ->
  (forall c, In c cs -> In (day_of c) days) ->
  Permutation (flat_map (fun d => filter (on_day d) cs) days) cs.
Proof.
  intros Hd. induction cs as [|c cs IH]; intros Hin.
  - replace (flat_map (fun d => filter (on_day d) []) days) with (@nil Completed.t);
      [constructor|].
    clear. induction days as [|d days IH]; [reflexivity | exact IH].
  - rewrite days_insert; [|assumption | apply Hin; now left].
    constructor. apply IH. intros x Hx. apply Hin. now right.
Qed.

Lemma later_NoDup (l : list string) : StronglySorted later l -> NoDup l.
Proof.
  intros H. induction H as [|x l Hs IH Hx]; constructor; [|assumption].
  intros Hin. rewrite Forall_forall in Hx. exact (later_irrefl x (Hx x Hin)).
Qed.

Lemma grouped_items cs :
  map Group.items (grouped cs)
  = map (fun d => filter (on_day d) cs) (Array_sort newest_first (map fst (day_map cs))).
Proof.
  destruct (day_map_holds cs) as (Hg & _ & _).
  unfold grouped. cbn zeta. rewrite map_map. apply map_ext. intros d. apply Hg.
Qed.

Lemma sum_of_totals_app a b : sum_of_totals (a ++ b) = sum_of_totals a + sum_of_totals b.
Proof. induction a as [|c a IH]; simpl; [reflexivity | rewrite IH; lia]. Qed.

Lemma sum_of_totals_perm a b : Permutation a b -> sum_of_totals a = sum_of_totals b.
Proof. intros H. induction H; simpl; lia. Qed.


(** ** What the receipt does not show *)

(** X15. The receipt is the same for two orders that differ only in
    status, in the assignment and in the note of the delivery, and for two
    shops that differ only in the tax number: none of these is printed.
    When the delivery has a recipient name, the customer name of the order
    is not printed either. *)
Theorem receipt_leaves_out
    (name address phone tax tax' logo : string)
    (id customer customer' type status status' assigned assigned' createdAt : string)
    (items : list Item.t) (paymentType payment : string)
    (dname dphone daddress note note' : string) :
  printOrder (Shop.mk name address phone tax logo)
    (Order.mk id customer type items status assigned createdAt
       (Some (Delivery.mk dname dphone daddress note)) paymentType payment)
  = printOrder (Shop.mk name address phone tax' logo)
      (Order.mk id customer type items status' assigned' createdAt
         (Some (Delivery.mk dname dphone daddress note')) paymentType payment)
  /\ printOrder (Shop.mk name address phone tax logo)
       (Order.mk id customer type items status assigned createdAt None paymentType payment)
     = printOrder (Shop.mk name address phone tax' logo)
         (Order.mk id customer type items status' assigned' createdAt None
            paymentType payment)
  /\ (dname <> "" ->
      printOrder (Shop.mk name address phone tax logo)
        (Order.mk id customer type items status assigned createdAt
           (Some (Delivery.mk dname dphone daddress note)) paymentType payment)
      = printOrder (Shop.mk name address phone tax logo)
          (Order.mk id customer' type items status assigned createdAt
             (Some (Delivery.mk dname dphone daddress note)) paymentType payment)).
Proof.
  split; [reflexivity|]. split; [reflexivity|].
  intros Hn. unfold printOrder, html_template. f_equal. f_equal.
  unfold html_head. cbn [Order.delivery Delivery.name Order.customer].
  assert (E : forall c, or_else dname (or_else c "") = dname).
  { intros c. unfold or_else, truthy. now destruct (String.eqb_spec dname ""). }
  now rewrite !E.
Qed.

(** ** Escaped text read back *)

Lemma prefix_app (q rest : string) : prefix q (q ++ rest) = true.
Proof. apply prefix_spec. now exists rest. Qed.

Lemma unescape_escape_char c rest :
  unescape_from 0 (escape_char c ++ rest) = String c (unescape_from 0 rest).
Proof.
  unfold escape_char.
  destruct (Ascii.eqb_spec c "&"%char) as [->|n1].
  { change ("&amp;" ++ rest) with (String "&"%char ("amp;" ++ rest)).
    cbn [unescape_from]. rewrite Ascii.eqb_refl, prefix_app. reflexivity. }
  destruct (Ascii.eqb_spec c "<"%char) as [->|n2].
  { change ("&lt;" ++ rest) with (String "&"%char ("lt;" ++ rest)).
    cbn [unescape_from]. rewrite Ascii.eqb_refl, prefix_app. reflexivity. }
  destruct (Ascii.eqb_spec c ">"%char) as [->|n3].
  { change ("&gt;" ++ rest) with (String "&"%char ("gt;" ++ rest)).
    cbn [unescape_from]. rewrite Ascii.eqb_refl, prefix_app. reflexivity. }
  destruct (Ascii.eqb_spec c dquote) as [->|n4].
  { change ("&quot;" ++ rest) with (String "&"%char ("quot;" ++ rest)).
    cbn [unescape_from]. rewrite Ascii.eqb_refl, prefix_app. reflexivity. }
  destruct (Ascii.eqb_spec c squote) as [->|n5].
  { change ("&#039;" ++ rest) with (String "&"%char ("#039;" ++ rest)).
    cbn [unescape_from]. rewrite Ascii.eqb_refl, prefix_app. reflexivity. }
  cbn [append unescape_from]. apply Ascii.eqb_neq in n1. now rewrite n1.
Qed.

Lemma unescape_escaped s : unescapeHtml (escaped s) = s.
Proof.
  unfold unescapeHtml. induction s as [|c s IH]; [reflexivity|].
  cbn [escaped]. now rewrite unescape_escape_char, IH.
Qed.

Lemma escape_char_special c :
  escape_char c = String c "" <-> is_special c = false.
Proof.
  unfold escape_char, is_special, is_markup.
  destruct (Ascii.eqb_spec c "&"%char) as [->|n1]; [split; discriminate|].
  destruct (Ascii.eqb_spec c "<"%char) as [->|n2]; [split; discriminate|].
  destruct (Ascii.eqb_spec c ">"%char) as [->|n3]; [split; discriminate|].
  destruct (Ascii.eqb_spec c dquote) as [->|n4]; [split; discriminate|].
  destruct (Ascii.eqb_spec c squote) as [->|n5]; [split; discriminate|].
  split; reflexivity.
Qed.

Lemma escape_char_length c : (1 <= String.length (escape_char c))%nat.
Proof.
  unfold escape_char.
  repeat match goal with |- context [if ?b then _ else _] => destruct b end; simpl; lia.
Qed.

Lemma string_length_app (a b : string) :
  String.length (a ++ b) = (String.length a + String.length b)%nat.
Proof. induction a as [|x a IH]; simpl; [reflexivity | now rewrite IH]. Qed.

Lemma escaped_fixed s : escaped s = s <-> all_chars (fun c => negb (is_special c)) s = true.
Proof.
  induction s as [|c s IH]; [split; reflexivity|].
  cbn [escaped all_chars]. rewrite andb_true_iff, negb_true_iff, <- IH, <- escape_char_special.
  split.
  - intros E.
    assert (Hl : String.length (escape_char c ++ escaped s) = S (String.length s))
      by now rewrite E.
    rewrite string_length_app in Hl.
    assert (Hs : (String.length s <= String.length (escaped s))%nat).
    { clear. induction s as [|x s IHs]; simpl; [lia|].
      rewrite string_length_app. pose proof (escape_char_length x). lia. }
    pose proof (escape_char_length c) as Hc.
    assert (H1 : String.length (escape_char c) = 1%nat) by lia.
    destruct (escape_char c) as [|a [|b e]] eqn:Ec; try discriminate.
    simpl in E. injection E as -> E. split; [reflexivity | assumption].
  - intros [-> ->]. reflexivity.
Qed.

(** X16. Escaping loses nothing: reading the five entities back gives
    the text that was escaped.  Escaped text is never shorter than the text,
    and it is the text itself exactly when the text has none of the five
    characters. *)
Theorem escapeHtml_reads_back (s : string) :
  unescapeHtml (escapeHtml s) = s
  /\ (String.length s <= String.length (escapeHtml s))%nat
  /\ (escapeHtml s = s <-> all_chars (fun c => negb (is_special c)) s = true).
Proof.
  rewrite escapeHtml_escaped. split; [apply unescape_escaped|]. split.
  - induction s as [|x s IHs]; simpl; [lia|].
    rewrite string_length_app. pose proof (escape_char_length x). lia.
  - apply escaped_fixed.
Qed.


(** ** The hourly chart *)

Lemma has_key_In k (m : list (string * Z)) : has_key k m = true <-> In k (map fst m).
Proof.
  unfold has_key. rewrite existsb_exists, in_map_iff. split.
  - intros (kv & Hin & E). apply String.eqb_eq in E. now exists kv.
  - intros (kv & E & Hin). exists kv. split; [assumption | now apply String.eqb_eq].
Qed.

Lemma map_set_keys k v m :
  map fst (map_set k v m) = if has_key k m then map fst m else (map fst m ++ [k])%list.
Proof.
  induction m as [|[k' v'] m IH]; [reflexivity|].
  cbn [map_set has_key existsb fst].
  destruct (k' =? k)%string; [reflexivity|].
  cbn [map fst orb]. rewrite IH. fold (has_key k m). now destruct (has_key k m).
Qed.

Lemma map_set_zero k m :
  Forall (fun kv => snd kv = 0) m -> Forall (fun kv => snd kv = 0) (map_set k 0 m).
Proof.
  intros H. induction H as [|[k' v'] m Hx Hm IH]; simpl; [repeat constructor|].
  destruct (k' =? k)%string; constructor; auto.
Qed.

Lemma NoDup_app_disjoint {A : Type} (l1 l2 : list A) (x : A) :
  NoDup (l1 ++ l2) -> In x l1 -> In x l2 -> False.
Proof.
  induction l1 as [|a l1 IH]; intros Hn H1 H2; [destruct H1|].
  cbn [app] in Hn. apply NoDup_cons_iff in Hn as [Ha Hn].
  destruct H1 as [<-|H1]; [apply Ha, in_or_app; now right | now apply IH].
Qed.

Lemma first_seen (labels : list string) : forall m,
  NoDup (map fst m) -> Forall (fun kv => snd kv = 0) m ->
  let m' := fold_left (fun m label => map_set label 0 m) labels m in
  NoDup (map fst m')
  /\ Forall (fun kv => snd kv = 0) m'
  /\ (forall k, In k (map fst m') <-> In k (map fst m) \/ In k labels)
  /\ (NoDup (map fst m ++ labels) -> map fst m' = (map fst m ++ labels)%list)
  /\ (length m' <= length m + length labels)%nat.
Proof.
  induction labels as [|l labels IH]; intros m Hd Hz; cbn zeta.
  - cbn [fold_left]. rewrite app_nil_r.
    split; [assumption|]. split; [assumption|].
    split; [intros k; split; [now left | now intros [H|[]]]|].
    split; [reflexivity | simpl; lia].
  - cbn [fold_left].
    assert (Hk : map fst (map_set l 0 m)
                 = if has_key l m then map fst m else (map fst m ++ [l])%list)
      by apply map_set_keys.
    assert (Hd1 : NoDup (map fst (map_set l 0 m))).
    { rewrite Hk. destruct (has_key l m) eqn:E; [assumption|].
      apply NoDup_app; [assumption | repeat constructor; intros [] |].
      intros x Hx [<-|[]]. apply has_key_In in Hx. congruence. }
    destruct (IH (map_set l 0 m) Hd1 (map_set_zero l m Hz)) as (I1 & I2 & I3 & I4 & I5).
    cbn zeta in *. split; [assumption|]. split; [assumption|]. split; [|split].
    + intros k. rewrite I3, Hk. destruct (has_key l m) eqn:E.
      * apply has_key_In in E. split.
        -- intros [H|H]; [now left | right; now right].
        -- intros [H|[<-|H]]; [now left | now left | now right].
      * rewrite in_app_iff. split.
        -- intros [[H|[<-|[]]]|H]; [now left | right; now left | right; now right].
        -- intros [H|[<-|H]]; [left; now left | left; right; now left | now right].
    + intros Hn. rewrite I4.
      * rewrite Hk. destruct (has_key l m) eqn:E.
        -- exfalso. apply has_key_In in E.
           apply (NoDup_app_disjoint _ _ l Hn E). now left.
        -- now rewrite <- app_assoc.
      * rewrite Hk. destruct (has_key l m) eqn:E.
        -- exfalso. apply has_key_In in E.
           apply (NoDup_app_disjoint _ _ l Hn E). now left.
        -- now rewrite <- app_assoc.
    + assert (Hlen : (length (map_set l 0 m) <= S (length m))%nat).
      { rewrite <- (length_map fst (map_set l 0 m)), Hk.
        destruct (has_key l m); rewrite ?length_app, length_map; simpl; lia. }
      simpl. lia.
Qed.


Lemma bump_absent label m : ~ In label (map fst m) -> bump label m = m.
Proof.
  induction m as [|[k v] m IH]; intros H; [reflexivity|].
  unfold bump. cbn [map fst snd]. fold (bump label m).
  destruct (k =? label)%string eqn:E.
  - apply String.eqb_eq in E. exfalso. apply H. now left.
  - f_equal. apply IH. intros Hin. apply H. now right.
Qed.

Lemma bump_keys label m : map fst (bump label m) = map fst m.
Proof.
  unfold bump. rewrite map_map. now apply map_ext.
Qed.

Lemma incr_bump label m :
  NoDup (map fst m) ->
  (if has_key label m then map_incr label m else m) = bump label m.
Proof.
  induction m as [|[k v] m IH]; intros Hd; [reflexivity|].
  cbn [map fst] in Hd. apply NoDup_cons_iff in Hd as [Hk Hd].
  unfold has_key, bump. cbn [existsb map_incr map fst snd].
  fold (bump label m). fold (has_key label m).
  destruct (k =? label)%string eqn:E; cbn [orb].
  - apply String.eqb_eq in E. subst k. now rewrite bump_absent.
  - rewrite <- (IH Hd). now destruct (has_key label m).
Qed.

Lemma counted (os : list Order.t) : forall m,
  NoDup (map fst m) ->
  fold_left
    (fun m o => if has_key (hour_label o) m then map_incr (hour_label o) m else m)
    os m
  = map (fun kv => (fst kv, snd kv + orders_at (fst kv) os)) m.
Proof.
  induction os as [|o os IH]; intros m Hd; cbn [fold_left].
  - rewrite <- (map_id m) at 1. apply map_ext. intros [k v].
    unfold orders_at. cbn [filter length fst snd]. f_equal. lia.
  - rewrite incr_bump by assumption.
    rewrite IH by now rewrite bump_keys.
    unfold bump. rewrite map_map. apply map_ext. intros [k v].
    cbn [fst snd]. f_equal. unfold orders_at. cbn [filter].
    rewrite (String.eqb_sym (hour_label o) k).
    destruct (k =? hour_label o)%string; cbn [length]; lia.
Qed.

Lemma one_bucket (x : string) (keys : list string) :
  NoDup keys ->
  sum_over (fun k => if (x =? k)%string then 1 else 0) keys
  = if existsb (String.eqb x) keys then 1 else 0.
Proof.
  induction keys as [|k keys IH]; intros Hd; [reflexivity|].
  apply NoDup_cons_iff in Hd as [Hk Hd].
  unfold sum_over. cbn [fold_right existsb].
  fold (sum_over (fun k => if (x =? k)%string then 1 else 0) keys).
  rewrite (IH Hd). destruct (x =? k)%string eqn:E; cbn [orb].
  - apply String.eqb_eq in E. subst k.
    destruct (existsb (String.eqb x) keys) eqn:F; [|reflexivity].
    exfalso. apply Hk. apply existsb_exists in F as (y & Hy & Exy).
    apply String.eqb_eq in Exy. now subst y.
  - now destruct (existsb (String.eqb x) keys).
Qed.

Lemma sum_over_add f g keys :
  sum_over (fun k => f k + g k) keys = sum_over f keys + sum_over g keys.
Proof.
  unfold sum_over. induction keys as [|k keys IH]; cbn [fold_right]; lia.
Qed.

Lemma sum_over_ext f g keys :
  (forall k, f k = g k) -> sum_over f keys = sum_over g keys.
Proof.
  intros H. unfold sum_over.
  induction keys as [|k keys IH]; cbn [fold_right]; [reflexivity|].
  now rewrite H, IH.
Qed.

Lemma sum_of_buckets (keys : list string) (os : list Order.t) :
  NoDup keys ->
  sum_over (fun k => orders_at k os) keys
  = Z.of_nat (length (filter (fun o => existsb (String.eqb (hour_label o)) keys) os)).
Proof.
  intros Hd. induction os as [|o os IH].
  - cbn [filter length]. unfold sum_over, orders_at. cbn [filter length].
    induction keys as [|k keys IHk]; cbn [fold_right]; [reflexivity|].
    apply NoDup_cons_iff in Hd as [_ Hd]. rewrite (IHk Hd). reflexivity.
  - rewrite (sum_over_ext _
      (fun k => (if (hour_label o =? k)%string then 1 else 0) + orders_at k os)).
    + rewrite sum_over_add, IH, (one_bucket _ _ Hd). cbn [filter].
      destruct (existsb (String.eqb (hour_label o)) keys); cbn [length]; lia.
    + intros k. unfold orders_at. cbn [filter].
      destruct (hour_label o =? k)%string; cbn [length]; lia.
Qed.

Lemma chart_sum_counts (os : list Order.t) (m : list (string * Z)) :
  Forall (fun kv => snd kv = 0) m ->
  chart_sum (map (fun kv => (fst kv, snd kv + orders_at (fst kv) os)) m)
  = sum_over (fun k => orders_at k os) (map fst m).
Proof.
  intros H. unfold chart_sum, sum_over.
  induction H as [|[k v] m Hx Hm IH]; cbn [map fold_right fst snd]; [reflexivity|].
  cbn [snd] in Hx. rewrite IH, Hx. lia.
Qed.

Lemma existsb_same_members (x : string) (l1 l2 : list string) :
  (forall k, In k l1 <-> In k l2) ->
  existsb (String.eqb x) l1 = existsb (String.eqb x) l2.
Proof.
  intros H. apply eq_true_iff_eq. rewrite !existsb_exists.
  split; intros (y & Hy & E); exists y; (split; [now apply H | assumption]).
Qed.

(** X17. The hourly chart has one bar for each label of the last eight
    hours, at most eight, in the order of the hours when the eight labels
    differ.  The bar of a label counts the orders that were created in an
    hour with that label, on whatever day; an order of an hour without a
    bar is not counted, and the bars add up to the number of the orders
    that have a bar. *)
Theorem hourly_chart (now : Z) (os : list Order.t) :
  NoDup (map fst (analytics now os))
  /\ (forall k, In k (map fst (analytics now os)) <-> In k (bucket_labels now))
  /\ (length (analytics now os) <= 8)%nat
  /\ (NoDup (bucket_labels now) ->
      map fst (analytics now os) = bucket_labels now)
  /\ (forall k v, In (k, v) (analytics now os) -> v = orders_at k os)
  /\ chart_sum (analytics now os)
     = Z.of_nat (length (filter (in_chart now) os)).
Proof.
  unfold analytics. cbn zeta.
  destruct (first_seen (bucket_labels now) [] (NoDup_nil _) (Forall_nil _))
    as (Hd & Hz & Hin & Hord & Hlen).
  cbn zeta in Hd, Hz, Hin, Hord, Hlen.
  set (map0 := fold_left (fun m label => map_set label 0 m) (bucket_labels now) [])
    in *.
  rewrite (counted os map0 Hd).
  assert (Hkeys : map fst (map (fun kv => (fst kv, snd kv + orders_at (fst kv) os)) map0)
                  = map fst map0)
    by (rewrite map_map; now apply map_ext).
  rewrite Hkeys, length_map.
  split; [assumption|]. split.
  { intros k. rewrite Hin. cbn [map]. split; [now intros [[]|H] | now right]. }
  split.
  { unfold bucket_labels in Hlen. rewrite length_map in Hlen. exact Hlen. }
  split.
  { intros Hn. now apply Hord. }
  split.
  { intros k v Hkv. apply in_map_iff in Hkv as ([k' v'] & E & Hk').
    cbn [fst snd] in E. injection E as <- <-.
    rewrite Forall_forall in Hz. specialize (Hz _ Hk'). cbn [snd] in Hz.
    rewrite Hz. reflexivity. }
  rewrite (chart_sum_counts os map0 Hz), (sum_of_buckets _ os Hd).
  f_equal. f_equal. apply filter_ext. intros o. unfold in_chart.
  apply existsb_same_members. intros k. rewrite Hin. cbn [map].
  split; [now intros [[]|H] | now right].
Qed.

(** ** The menu *)

Lemma truthy_nonempty (s : string) : truthy s = true <-> s <> "".
Proof.
  unfold truthy. destruct (s =? "")%string eqn:E; cbn [negb].
  - apply String.eqb_eq in E. split; [discriminate | intros H; now elim H].
  - apply String.eqb_neq in E. split; [now intros _ | reflexivity].
Qed.

Lemma menu_step_names (s : list MenuItem.t) (e : MenuEvent) :
  names_ok s -> names_ok (menu_step s e).
Proof.
  unfold names_ok. intros H. destruct e as [fresh editing name price | id].
  - cbn [menu_step]. unfold menu_submit.
    destruct (truthy name) eqn:T; cbn [negb]; [|assumption].
    apply truthy_nonempty in T. destruct editing as [e|].
    + unfold updateMenuItem. apply Forall_forall. intros x Hx.
      apply in_map_iff in Hx as (m & <- & Hm).
      rewrite Forall_forall in H.
      destruct (MenuItem.id m =? MenuItem.id e)%string; [exact T | now apply H].
    + unfold addMenuItem. constructor; [exact T | assumption].
  - cbn [menu_step]. unfold deleteMenuItem. now apply Forall_filter.
Qed.

Lemma updateMenuItem_ids id name price (s : list MenuItem.t) :
  map MenuItem.id (updateMenuItem id (MenuPatch.mk None name price) s)
  = map MenuItem.id s.
Proof.
  unfold updateMenuItem. rewrite map_map. apply map_ext. intros m.
  now destruct (MenuItem.id m =? id)%string.
Qed.

Lemma menu_absent_filter id (s : list MenuItem.t) :
  ~ In id (map MenuItem.id s) -> deleteMenuItem id s = s.
Proof.
  unfold deleteMenuItem. induction s as [|m s IH]; intros H; [reflexivity|].
  cbn [filter]. destruct (MenuItem.id m =? id)%string eqn:E; cbn [negb].
  - apply String.eqb_eq in E. exfalso. apply H. now left.
  - f_equal. apply IH. intros Hin. apply H. now right.
Qed.

(** X18. No item of the menu is without a name.  Submitting the menu
    dialog with an empty name changes nothing, so a menu whose items all
    have a name keeps that through every sequence of additions, edits
    and deletions. *)
Theorem menu_items_are_named (s : list MenuItem.t) (es : list MenuEvent) :
  names_ok s ->
  names_ok (fold_left menu_step es s)
  /\ (forall fresh editing price, menu_submit fresh editing "" price s = s).
Proof.
  intros H. split; [|reflexivity].
  revert s H. induction es as [|e es IH]; intros s H; [exact H|].
  cbn [fold_left]. apply IH. now apply menu_step_names.
Qed.

(** X19. The ids of the menu stay unique as long as every added item
    gets an id that the menu does not have.  An edit changes neither the
    ids nor the order of the items, and a name that is not empty is
    written to every item with the id of the edited one, with the
    price. *)
Theorem menu_ids_stay_unique (s : list MenuItem.t) (es : list MenuEvent) :
  NoDup (map MenuItem.id s) ->
  fresh_ids s es ->
  NoDup (map MenuItem.id (fold_left menu_step es s))
  /\ (forall fresh e name price,
        map MenuItem.id (menu_submit fresh (Some e) name price s)
        = map MenuItem.id s)
  /\ (forall fresh e name price m,
        name <> "" -> In m s -> MenuItem.id m = MenuItem.id e ->
        In (MenuItem.mk (MenuItem.id m) name price)
           (menu_submit fresh (Some e) name price s)).
Proof.
  intros Hd Hf. split; [|split].
  - revert s Hd Hf. induction es as [|ev es IH]; intros s Hd Hf; [exact Hd|].
    cbn [fold_left]. cbn [fresh_ids] in Hf. destruct Hf as [Hfr Hf].
    apply IH; [|exact Hf].
    destruct ev as [fresh editing name price | id]; cbn [menu_step].
    + unfold menu_submit. destruct (truthy name) eqn:T; cbn [negb]; [|assumption].
      destruct editing as [e|].
      * now rewrite updateMenuItem_ids.
      * unfold addMenuItem. cbn [map MenuItem.id]. constructor; [|assumption].
        apply Hfr. now apply truthy_nonempty.
    + unfold deleteMenuItem. now apply filter_keeps_keys_unique.
  - intros fresh e name price. unfold menu_submit.
    destruct (truthy name); cbn [negb]; [|reflexivity].
    apply updateMenuItem_ids.
  - intros fresh e name price m Hn Hm E. unfold menu_submit.
    apply truthy_nonempty in Hn. rewrite Hn. cbn [negb].
    unfold updateMenuItem. apply in_map_iff. exists m. split; [|assumption].
    rewrite E, String.eqb_refl. unfold MenuPatch.apply. cbn. now rewrite E.
Qed.

(** X20. Deleting an item of a menu with unique ids takes exactly that
    item away: the menu is one shorter, the id is gone and every other
    item stays.  For an id that the menu does not have, a deletion and
    an edit change nothing, and deleting an item right after it was
    added under that id gives the menu back. *)
Theorem menu_delete (s : list MenuItem.t) (id : string) :
  NoDup (map MenuItem.id s) ->
  (In id (map MenuItem.id s) -> S (length (deleteMenuItem id s)) = length s)
  /\ ~ In id (map MenuItem.id (deleteMenuItem id s))
  /\ (forall m, MenuItem.id m <> id -> (In m (deleteMenuItem id s) <-> In m s))
  /\ (~ In id (map MenuItem.id s) ->
      deleteMenuItem id s = s
      /\ (forall patch, updateMenuItem id patch s = s)
      /\ (forall item, deleteMenuItem id (addMenuItem id item s) = s)).
Proof.
  intros Hd. split; [|split; [|split]].
  - induction s as [|m s IH]; intros Hin; [destruct Hin|].
    cbn [map] in Hd. apply NoDup_cons_iff in Hd as [Hm Hd].
    unfold deleteMenuItem. cbn [filter]. fold (deleteMenuItem id s).
    destruct (MenuItem.id m =? id)%string eqn:E; cbn [negb length].
    + apply String.eqb_eq in E. subst id. now rewrite menu_absent_filter.
    + f_equal. apply IH; [assumption|]. destruct Hin as [Hin|Hin]; [|assumption].
      apply String.eqb_neq in E. now elim E.
  - intros Hin. apply in_map_iff in Hin as (m & E & Hm).
    unfold deleteMenuItem in Hm. apply filter_In in Hm as [_ Hm].
    rewrite E, String.eqb_refl in Hm. discriminate.
  - intros m Hne. unfold deleteMenuItem. rewrite filter_In.
    apply String.eqb_neq in Hne. rewrite Hne. cbn [negb].
    split; [now intros [H _] | now split].
  - intros Hn. split; [now apply menu_absent_filter|]. split.
    + intros patch. unfold updateMenuItem. rewrite <- (map_id s) at 2.
      apply map_ext_in. intros m Hm.
      destruct (MenuItem.id m =? id)%string eqn:E; [|reflexivity].
      apply String.eqb_eq in E. exfalso. apply Hn. apply in_map_iff. now exists m.
    + intros item. unfold addMenuItem, deleteMenuItem. cbn [filter MenuItem.id].
      rewrite String.eqb_refl. cbn [negb]. now apply menu_absent_filter.
Qed.

End Dashboard.

(** * Examples on the sample data, with the UTC clock *)

Example total_of_ana : toFixed2 (total (Order.items ana)) = "10.00".
Proof. reflexivity. Qed.

(** Scenario of the dashboard: Ana's order is delivered, then deleted, then
    its day is removed from the archive. *)
Example ana_scenario :
  let st1 := run utc_valueOf utc_day ana_pending_state
               [EOnUpdate "2025-09-23T11:00:00.000Z" "ord_ana" (Patch.of_status "Delivered")] in
  let st2 := run utc_valueOf utc_day st1 [EDeleteOrder "ord_ana"] in
  let st3 := run utc_valueOf utc_day st2 [ERemoveCompletedDay "2025-09-23"] in
  completedOrders st1 = [Completed.mk ana_delivered "2025-09-23T11:00:00.000Z"]
  /\ map Group.day (grouped utc_day (completedOrders st1)) = ["2025-09-23"]
  /\ map (fun g => toFixed2 (dayTotal (Group.items g))) (grouped utc_day (completedOrders st1))
     = ["10.00"]
  /\ orders st2 = [] /\ completedOrders st2 = completedOrders st1
  /\ completedOrders st3 = [].
Proof. repeat split. Qed.

(** C1, at Ana's order: the status cycle, made with the status drop-down
    and for its third step with Save in the order dialog, leaves one record
    of the order. *)
Lemma archive_record_created_once_witness :
  records_of "ord_ana"
    (completedOrders
       (run utc_valueOf utc_day ana_pending_state
          [ EOnUpdate "t1" "ord_ana" (Patch.of_status "Preparing");
            EOnUpdate "t2" "ord_ana" (Patch.of_status "Delivered");
            EUpsertOrder "t3" (Patch.apply ana (Patch.of_status "Pending"));
            EOnUpdate "t4" "ord_ana" (Patch.of_status "Delivered") ]))
  = 1%nat.
Proof.
  pose proof (archive_record_created_once utc_valueOf utc_day) as (_ & _ & _ & _ & _ & H).
  refine (proj2 (H ana_pending_state ana "t1" "t2" "t3" "t4" _ _ _ _
                   eq_refl eq_refl eq_refl _ _ _ _)).
  - left. reflexivity.
  - left. reflexivity.
  - right. reflexivity.
  - left. reflexivity.
Defined.

(** C2, at Ana's archived order: renaming the customer of the live order
    leaves the archive as it is. *)
Lemma archived_snapshot_unchanged_witness :
  archived "ord_ana" (completedOrders ana_archived_state) = true
  /\ completedOrders
       (onUpdate "2025-09-23T12:00:00.000Z" "ord_ana"
          (Patch.mk None (Some "Bob") None None None None None None None None)
          ana_archived_state)
     = completedOrders ana_archived_state.
Proof.
  split; [reflexivity|].
  exact (proj1 (archived_snapshot_unchanged utc_valueOf utc_day
                  ana_archived_state "ord_ana" eq_refl) _ _).
Defined.

(** C3, at Ana's archived order: clearing the archive and deleting a day
    keep the live order. *)
Lemma live_orders_and_archive_independent_witness :
  orders (run utc_valueOf utc_day ana_archived_state
            [ERemoveCompletedDay "2025-09-23"; EClearCompleted true; ERemoveCompleted "ord_ana"])
  = [ana_delivered].
Proof.
  pose proof (live_orders_and_archive_independent utc_valueOf utc_day)
    as (_ & _ & _ & _ & _ & _ & H).
  apply H. reflexivity.
Defined.

(** An example of the search: the query is trimmed and matched without
    regard to case, against item names too. *)
Example search_by_item_name :
  map Order.id
    (filtered utc_valueOf [ana; ana_quoted; guest "1"; guest "2"] "  TIKKA " "All" "All")
  = ["ord_q"; "ord_2"; "ord_1"].
Proof. reflexivity. Qed.

(** C6, on the code.  Seven orders fill two pages.  On page 2, deleting the
    order shown there leaves six orders, a single page, and the page number
    still 2: the table shows no order.  Changing a filter from the same state would
    have put the page back to 1. *)
Lemma page_exceeds_total_after_delete :
  let st := run utc_valueOf utc_day seven_state [ENext] in
  let st' := run utc_valueOf utc_day st [EDeleteOrder "ord_1"] in
  page st = 2 /\ totalPages utc_valueOf st = 2
  /\ map Order.id (pageItems utc_valueOf st) = ["ord_1"]
  /\ page st' = 2 /\ totalPages utc_valueOf st' = 1
  /\ length (visible utc_valueOf st') = 6%nat
  /\ pageItems utc_valueOf st' = []
  /\ page (run utc_valueOf utc_day st [ESetStatusFilter "Pending"]) = 1.
Proof. repeat split. Qed.

(** C7, at the archive of two days: the groups, their totals, and the
    removal of a day. *)
Lemma completed_grouped_by_day_witness :
  (forall g, In g (grouped utc_day two_days) ->
     Group.items g = filter (on_day utc_day (Group.day g)) two_days /\ Group.items g <> [])
  /\ map Group.day (grouped utc_day two_days) = ["2025-09-24"; "2025-09-23"]
  /\ map (fun g => map Completed.id (Group.items g)) (grouped utc_day two_days)
     = [["ord_q"]; ["ord_ana"; "ord_1"]]
  /\ map (fun g => dayTotal (Group.items g)) (grouped utc_day two_days) = [760; 760]
  /\ map Completed.id (removeCompletedDay utc_day "2025-09-23" two_days) = ["ord_q"].
Proof.
  split; [|repeat split].
  exact (proj1 (proj2 (completed_grouped_by_day utc_day two_days))).
Defined.

(** The customer name with a comma and quotes, as exported and as read back. *)
Example quoted_name_round_trip :
  nth_error (map csv_cell (csv_row ana_quoted)) 1
  = Some (dq ++ "Ana, " ++ dq ++ dq ++ "the" ++ dq ++ dq ++ " Cook" ++ dq)
  /\ parse_csv (downloadCSV [ana; ana_quoted])
     = [ headers;
         [ "ord_ana"; "Ana"; "Dine-in"; "Pending"; "Unassigned";
           "2025-09-23T10:11:12.345Z"; "Soup x2"; "10.00"; ""; ""; ""; "" ];
         [ "ord_q"; quoted_name; "Delivery"; "Ready"; "Driver 2";
           "2025-09-24T08:00:00.000Z"; "Soup x2; chicken tikka  x3"; "760.00";
           "Ana"; "555-0101"; "1 Main St, flat 2"; "ring twice" ] ].
Proof. split; reflexivity. Qed.

(** C8, at the order with the quoted name: its record is the third of the
    text read back, and its second cell is the name. *)
Lemma csv_round_trip_witness :
  exists r,
    nth_error (parse_csv (downloadCSV [ana; ana_quoted])) 2 = Some r
    /\ nth_error r 1 = Some quoted_name.
Proof.
  exact (proj2 (proj2 (proj2 (proj2 (csv_round_trip [ana; ana_quoted]))))
           1%nat ana_quoted eq_refl).
Defined.

(** C10, at a cell without quotes. *)
Lemma csv_quotes_every_cell_witness : csv_cell "Ana" = dq ++ "Ana" ++ dq.
Proof.
  pose proof (csv_quotes_every_cell []) as (_ & _ & _ & _ & _ & H & _).
  exact (H "Ana" eq_refl).
Defined.



(** * The further properties on the sample data *)

(** X1, at the dashboard with Ana's order: a patch and a deletion for an
    id that is not stored. *)
Lemma unknown_id_is_noop_witness :
  onUpdate "2025-09-23T12:00:00.000Z" "ord_none" (Patch.of_status "Ready") ana_pending_state
  = ana_pending_state
  /\ deleteOrder "ord_none" ana_pending_state = ana_pending_state.
Proof.
  pose proof (unknown_id_is_noop ana_pending_state "ord_none" eq_refl) as [H1 H2].
  split; [apply H1 | exact H2].
Defined.

(** X3, at the seven orders: a deletion, a new order and a status patch. *)
Lemma order_ids_stay_unique_witness :
  NoDup
    (map Order.id
       (orders
          (run utc_valueOf utc_day seven_state
             [ EDeleteOrder "ord_3"; EUpsertOrder "t1" ana;
               EOnUpdate "t2" "ord_ana" (Patch.of_status "Ready") ]))).
Proof.
  refine (proj1 (order_ids_stay_unique utc_valueOf utc_day seven_state
                   [ EDeleteOrder "ord_3"; EUpsertOrder "t1" ana;
                     EOnUpdate "t2" "ord_ana" (Patch.of_status "Ready") ]
                   _ eq_refl)).
  distinct_strings.
Defined.

(** X4, at Ana's order and an empty archive. *)
Lemma archive_add_remove_witness :
  removeCompleted "ord_ana" (addCompleted "2025-09-23T11:00:00.000Z" ana []) = [].
Proof.
  exact (proj1 (archive_add_remove "2025-09-23T11:00:00.000Z" ana []) eq_refl).
Defined.

(** X5, at Ana's delivered order: after its record is deleted, a save as
    Delivered leaves the archive empty, and the way over Pending archives
    it at the time of the second delivery. *)
Lemma archived_again_after_removal_witness :
  completedOrders
    (run utc_valueOf utc_day ana_archived_state
       [ ERemoveCompleted "ord_ana";
         EUpsertOrder "t0" (Patch.apply ana_delivered (Patch.of_status "Delivered")) ])
  = []
  /\ map Completed.completedAt
       (completedOrders
          (run utc_valueOf utc_day ana_archived_state
             [ ERemoveCompleted "ord_ana";
               EOnUpdate "t1" "ord_ana" (Patch.of_status "Pending");
               EOnUpdate "t2" "ord_ana" (Patch.of_status "Delivered") ]))
     = ["t2"].
Proof.
  pose proof (archived_again_after_removal utc_valueOf utc_day ana_archived_state
                ana_delivered "t0" "t1" "t2"
                (EUpsertOrder "t0" (Patch.apply ana_delivered (Patch.of_status "Delivered")))
                (EOnUpdate "t1" "ord_ana" (Patch.of_status "Pending"))
                (EOnUpdate "t2" "ord_ana" (Patch.of_status "Delivered"))
                eq_refl eq_refl
                (or_intror eq_refl) (or_introl eq_refl) (or_introl eq_refl))
    as [H1 H2].
  split; [exact H1 | exact (f_equal (map Completed.completedAt) H2)].
Defined.

(** X6, at the menu of two items: a line is added, set to the soup, its
    quantity typed as zero, and the first line removed. *)
Lemma new_order_lines_witness :
  exists f,
    form_run two_items
      (CreateForm.mk "" "Dine-in" [Item.mk "m1" "chicken tikka " 250 1]
         (Delivery.mk "" "" "" ""))
      [FAddItem; FSelect 1 "m2"; FQty 1 0; FRemove 0]
    = Some f
    /\ lines_ok two_items (CreateForm.items f).
Proof.
  apply new_order_lines; [reflexivity|].
  repeat (apply Forall_cons; [simpl; auto|]). apply Forall_nil.
Defined.

(** X7, at the delivery form: the recipient stands for the customer, and
    the order is put in front of Ana's. *)
Lemma created_order_witness :
  Order.customer (submit "ord_new" "2025-09-24T09:00:00.000Z" delivery_form) = "Bo"
  /\ orders
       (upsertOrder "2025-09-24T09:00:00.000Z"
          (submit "ord_new" "2025-09-24T09:00:00.000Z" delivery_form) ana_pending_state)
     = [submit "ord_new" "2025-09-24T09:00:00.000Z" delivery_form; ana].
Proof.
  split; [reflexivity|].
  pose proof (created_order "ord_new" "2025-09-24T09:00:00.000Z" delivery_form) as H.
  cbn zeta in H. destruct H as (_ & _ & _ & _ & _ & H & _).
  exact (H "2025-09-24T09:00:00.000Z" ana_pending_state eq_refl).
Defined.


(** X9, at Ana's order: Save of a draft with a new status and quantity
    keeps the ids of the store. *)
Lemma dialog_save_witness :
  map Order.id
    (orders
       (upsertOrder "2025-09-23T12:00:00.000Z"
          (draft_run ana [DStatus "Ready"; DQty 0 5]) ana_pending_state))
  = ["ord_ana"].
Proof.
  pose proof (dialog_save ana [DStatus "Ready"; DQty 0 5]
                "2025-09-23T12:00:00.000Z" ana_pending_state) as H.
  cbn zeta in H. destruct H as (_ & _ & H & _).
  apply H. intros E. vm_compute in E. discriminate E.
Defined.


(** X11, at the seven orders: the second page has a row, a third page
    has none. *)
Lemma pages_partition_witness :
  page_at utc_valueOf seven_state 2 <> [] /\ page_at utc_valueOf seven_state 3 = [].
Proof.
  pose proof (pages_partition utc_valueOf seven_state) as (_ & _ & H1 & H2).
  split.
  - apply (H1 1%nat); [discriminate | vm_compute; discriminate].
  - apply (H2 2%nat). reflexivity.
Defined.

(** X12, at the seven orders: Next pressed three times from page 1 stops
    at the second and last page. *)
Lemma pager_steps_witness :
  page (Nat.iter 3 (nextPage utc_valueOf) seven_state)
  = Z.min (totalPages utc_valueOf seven_state) (1 + 3).
Proof.
  apply (proj1 (proj2 (pager_steps utc_valueOf seven_state 3))).
  vm_compute. discriminate.
Defined.

(** X13, at the seven orders, for a query of three spaces. *)
Lemma blank_query_shows_all_witness :
  length (filtered utc_valueOf seven_orders "   " "All" "All") = 7%nat.
Proof.
  exact (proj2 (proj2 (blank_query_shows_all utc_valueOf seven_orders "   " "All" "All"
                         eq_refl))).
Defined.

(** X15, at the delivery to Ana: the receipt is the same under another
    customer name. *)
Lemma receipt_leaves_out_witness :
  printOrder utc_PPpp shop_plain ana_quoted
  = printOrder utc_PPpp shop_plain
      (Order.mk "ord_q" "Someone" "Delivery" [soup; tikka] "Ready" "Driver 2"
         "2025-09-24T08:00:00.000Z"
         (Some (Delivery.mk "Ana" "555-0101" "1 Main St, flat 2" "ring twice")) "" "").
Proof.
  refine (proj2 (proj2 (receipt_leaves_out utc_PPpp
                          "My Restaurant" "1 Main St" "555-0100" "" "" ""
                          "ord_q" quoted_name "Someone" "Delivery" "Ready" "Ready"
                          "Driver 2" "Driver 2" "2025-09-24T08:00:00.000Z"
                          [soup; tikka] "" "" "Ana" "555-0101" "1 Main St, flat 2"
                          "ring twice" "ring twice")) _).
  discriminate.
Defined.

(** X17, at half past ten of the second day: the bars are those of 3AM
    to 10AM; Ana's order of a quarter past ten of the day before is in the
    bar of 10AM, with the order of eight o'clock of the day in its own. *)
Lemma hourly_chart_witness :
  map fst (analytics iso_ms utc_ha half_past_ten [ana; ana_quoted])
  = ["3AM"; "4AM"; "5AM"; "6AM"; "7AM"; "8AM"; "9AM"; "10AM"]
  /\ orders_at iso_ms utc_ha "10AM" [ana; ana_quoted] = 1.
Proof.
  pose proof (hourly_chart iso_ms utc_ha half_past_ten [ana; ana_quoted])
    as (_ & _ & _ & H & _).
  split; [|reflexivity].
  refine (eq_trans (H _) _); [distinct_strings | reflexivity].
Defined.

(** X18, at the default menu: a submit without a name, an addition and
    a deletion. *)
Lemma menu_items_are_named_witness :
  names_ok
    (fold_left menu_step
       [MSubmit "m2" None "" 10; MSubmit "m3" None "Soup" 5; MDelete "m1"] defaultMenu).
Proof.
  refine (proj1 (menu_items_are_named defaultMenu
                   [MSubmit "m2" None "" 10; MSubmit "m3" None "Soup" 5; MDelete "m1"] _)).
  apply Forall_cons; [discriminate | apply Forall_nil].
Defined.

(** X19, at the default menu: an addition under a new id, then an edit
    of the added item. *)
Lemma menu_ids_stay_unique_witness :
  NoDup
    (map MenuItem.id
       (fold_left menu_step
          [ MSubmit "m2" None "Soup" 5;
            MSubmit "m3" (Some (MenuItem.mk "m2" "Soup" 5)) "Soup of the day" 6 ]
          defaultMenu)).
Proof.
  refine (proj1 (menu_ids_stay_unique defaultMenu
                   [ MSubmit "m2" None "Soup" 5;
                     MSubmit "m3" (Some (MenuItem.mk "m2" "Soup" 5)) "Soup of the day" 6 ]
                   _ _)).
  - distinct_strings.
  - cbn [fresh_ids]. split; [|split; exact I].
    intros _ [H|[]]. discriminate H.
Defined.

(** X20, at the default menu: deleting its item leaves one item less,
    deleting an id that it does not have leaves it as it is. *)
Lemma menu_delete_witness :
  S (length (deleteMenuItem "m1" defaultMenu)) = length defaultMenu
  /\ deleteMenuItem "m9" defaultMenu = defaultMenu.
Proof.
  split.
  - refine (proj1 (menu_delete defaultMenu "m1" _) _);
      [distinct_strings | left; reflexivity].
  - refine (proj1 (proj2 (proj2 (proj2 (menu_delete defaultMenu "m9" _))) _));
      [distinct_strings | intros [H|[]]; discriminate H].
Defined.
